(** * Identifier assignment in the event-management backend

    A shallow embedding of [events/models.py] ([Event.save], [Booking.save],
    [Booking.generate_unique_sno]) and of the two QR-scan endpoints of
    [events/views.py], with the properties of serial numbers and slugs.

    Text is modelled as [string] restricted to 7-bit ASCII: the embedded
    Python operations ([str.split], [str.upper], [int], ordering by code
    point) are the ASCII fragments of the Python ones, and a property that
    depends on what they do to a text asks for ASCII text ([Py.isascii]).
    Python's unbounded [int] is [Z].  The relational tables are lists of rows; the database of
    [settings.py] is SQLite, whose text columns compare and order by code
    point (binary collation). *)

From Stdlib Require Import String Ascii List ZArith NArith Lia Bool.
From Stdlib Require Import Decimal DecimalString DecimalN Sorted Permutation.
Import ListNotations.

Local Open Scope string_scope.
Local Open Scope Z_scope.

(** ** Python's built-ins on [str] and [int] used by the models *)

Module Py.

(** [c.isspace()] on ASCII: TAB..CR, FS..US and the blank. *)
Definition isspace (c : ascii) : bool :=
  let n := N_of_ascii c in
  ((9 <=? n) && (n <=? 13) || (28 <=? n) && (n <=? 32))%N.

Definition isdigit (c : ascii) : bool :=
  let n := N_of_ascii c in ((48 <=? n) && (n <=? 57))%N.

Definition islower (c : ascii) : bool :=
  let n := N_of_ascii c in ((97 <=? n) && (n <=? 122))%N.

(** [c.upper()] and [c.lower()] for one ASCII character. *)
Definition upper_char (c : ascii) : ascii :=
  if islower c then ascii_of_N (N_of_ascii c - 32) else c.

Definition isupper (c : ascii) : bool :=
  let n := N_of_ascii c in ((65 <=? n) && (n <=? 90))%N.

Definition lower_char (c : ascii) : ascii :=
  if isupper c then ascii_of_N (N_of_ascii c + 32) else c.

Fixpoint lower (s : string) : string :=
  match s with
  | EmptyString => EmptyString
  | String c r => String (lower_char c) (lower r)
  end.

(** [s.split()]: the maximal runs of non-blank characters. *)
Fixpoint split_ws (s : string) : list string :=
  match s with
  | EmptyString => []
  | String c r =>
      if isspace c then split_ws r
      else
        match r with
        | EmptyString => [String c EmptyString]
        | String c' _ =>
            if isspace c' then String c EmptyString :: split_ws r
            else
              match split_ws r with
              | w :: ws => String c w :: ws
              | [] => [String c EmptyString]
              end
        end
  end.

(** [s.split(sep)] for a one-character separator: never the empty list. *)
Fixpoint split (sep : ascii) (s : string) : list string :=
  match s with
  | EmptyString => [EmptyString]
  | String c r =>
      if Ascii.eqb c sep then EmptyString :: split sep r
      else
        match split sep r with
        | w :: ws => String c w :: ws
        | [] => [String c EmptyString]
        end
  end.

(** [l[-1]]; [None] stands for [IndexError]. *)
Fixpoint index_last {A : Type} (l : list A) : option A :=
  match l with
  | [] => None
  | [x] => Some x
  | _ :: r => index_last r
  end.

(** [l[:n]]. *)
Definition slice_to {A : Type} (n : nat) (l : list A) : list A := firstn n l.

(** [''.join(l)]. *)
Definition join (l : list string) : string := String.concat EmptyString l.

(** [s.lstrip(chars)] and [s.rstrip(chars)], the set of characters given
    by its membership test. *)
Fixpoint lstrip_by (p : ascii -> bool) (s : string) : string :=
  match s with
  | EmptyString => EmptyString
  | String c r => if p c then lstrip_by p r else s
  end.

Fixpoint rstrip_by (p : ascii -> bool) (s : string) : string :=
  match s with
  | EmptyString => EmptyString
  | String c r =>
      match rstrip_by p r with
      | EmptyString => if p c then EmptyString else String c EmptyString
      | r' => String c r'
      end
  end.

Definition strip_by (p : ascii -> bool) (s : string) : string :=
  rstrip_by p (lstrip_by p s).

(** The blanks that [int] skips around a literal: TAB..CR and the blank.
    On ASCII text [int] does not skip FS..US, which [isspace], [split] and
    the [\s] of a pattern take as blanks: [int("\x1f7")] raises. *)
Definition isspace_int (c : ascii) : bool :=
  let n := N_of_ascii c in ((9 <=? n) && (n <=? 13) || (n =? 32))%N.

Definition strip_int (s : string) : string := strip_by isspace_int s.

(** 7-bit text: the fragment of [str] on which the operations of this
    module are those of Python. *)
Definition isascii_char (c : ascii) : bool := (N_of_ascii c <? 128)%N.

Fixpoint isascii (s : string) : bool :=
  match s with
  | EmptyString => true
  | String c r => isascii_char c && isascii r
  end.

(** The digits of an [int] literal: a digit first, then digits with single
    underscores between them. *)
Fixpoint digits_ok (after_digit : bool) (s : string) : bool :=
  match s with
  | EmptyString => after_digit
  | String c r =>
      if isdigit c then digits_ok true r
      else if Ascii.eqb c "_" then after_digit && digits_ok false r
      else false
  end.

Fixpoint drop_underscores (s : string) : string :=
  match s with
  | EmptyString => EmptyString
  | String c r =>
      if Ascii.eqb c "_" then drop_underscores r else String c (drop_underscores r)
  end.

Definition nat_literal (s : string) : option N :=
  if digits_ok false s then
    option_map N.of_uint (NilZero.uint_of_string (drop_underscores s))
  else None.

(** [int(s)] in base ten, on ASCII text: blanks around, an optional sign,
    the digits; [None] stands for [ValueError].  Out of the model: the
    digits and blanks beyond ASCII that [int] also reads, and the limit of
    recent interpreters on the number of digits (4300 by default); the
    properties that depend on either say so in their hypotheses. *)
Definition int (s : string) : option Z :=
  match strip_int s with
  | EmptyString => None
  | String c r =>
      if Ascii.eqb c "-" then option_map (fun n => - Z.of_N n) (nat_literal r)
      else if Ascii.eqb c "+" then option_map Z.of_N (nat_literal r)
      else option_map Z.of_N (nat_literal (String c r))
  end.

(** [str(n)] for [n >= 0]. *)
Definition str_N (n : N) : string := NilZero.string_of_uint (N.to_uint n).

(** [str(z)]. *)
Definition str (z : Z) : string :=
  if z <? 0 then String "-" (str_N (Z.abs_N z)) else str_N (Z.to_N z).

Fixpoint zeros (n : nat) : string :=
  match n with
  | O => EmptyString
  | S n' => String "0" (zeros n')
  end.

Definition zfill (width : nat) (s : string) : string :=
  zeros (width - String.length s) ++ s.

(** [f"{z:03d}"]: the sign counts in the width, the zeros follow it. *)
Definition format_03d (z : Z) : string :=
  if z <? 0 then String "-" (zfill 2 (str_N (Z.abs_N z)))
  else zfill 3 (str_N (Z.to_N z)).

End Py.

(** ** [django.utils.text.slugify] on ASCII text

    The library function called by [Event.save] (Django 3.2 and later):
    [re.sub(r"[^\w\s-]", "", value.lower())], then
    [re.sub(r"[-\s]+", "-", value).strip("-_")].  The step in front,
    [unicodedata.normalize("NFKD", value).encode("ascii", "ignore")], is the
    identity on ASCII text, the fragment modelled here: it turns an accented
    letter into its base letter, which this model does not.  The properties
    of the base slug are stated for ASCII titles. *)

Module Django.

Definition is_word (c : ascii) : bool :=
  Py.isdigit c || Py.islower c || Py.isupper c || Ascii.eqb c "_".

Definition is_sep (c : ascii) : bool := Py.isspace c || Ascii.eqb c "-".

Fixpoint keep_word_space_hyphen (s : string) : string :=
  match s with
  | EmptyString => EmptyString
  | String c r =>
      if is_word c || is_sep c then String c (keep_word_space_hyphen r)
      else keep_word_space_hyphen r
  end.

(** Every maximal run of blanks and hyphens becomes one hyphen. *)
Fixpoint collapse_seps (in_run : bool) (s : string) : string :=
  match s with
  | EmptyString => EmptyString
  | String c r =>
      if is_sep c then
        if in_run then collapse_seps true r else String "-" (collapse_seps true r)
      else String c (collapse_seps false r)
  end.

Definition is_hyphen_or_underscore (c : ascii) : bool :=
  Ascii.eqb c "-" || Ascii.eqb c "_".

Definition slugify (value : string) : string :=
  let value := keep_word_space_hyphen (Py.lower value) in
  Py.strip_by is_hyphen_or_underscore (collapse_seps false value).

End Django.

(** ** The tables and their rows *)

Record Event : Type := mkEvent {
  event_pk : option nat;
  title : string;
  slug : string
}.

(** [payment_amount] and [total_amount] are decimals with two places, kept
    in hundredths.  [qr_code] is the name of the stored image, empty when
    the field holds no file.  [booking_pk] is [None] until the first
    insert. *)
Record Booking : Type := mkBooking {
  booking_pk : option nat;
  event_id : nat;
  sno : string;
  qr_code : string;
  is_activated : bool;
  payment_amount : Z;
  total_amount : Z
}.

Record Db : Type := mkDb {
  events : list Event;
  bookings : list Booking
}.

(** *** Query sets over [Booking] *)

Definition filter_event (eid : nat) (qs : list Booking) : list Booking :=
  filter (fun b => Nat.eqb (event_id b) eid) qs.

Definition filter_sno (s : string) (qs : list Booking) : list Booking :=
  filter (fun b => String.eqb (sno b) s) qs.

Definition qs_exists {A : Type} (qs : list A) : bool :=
  match qs with [] => false | _ :: _ => true end.

Definition qs_first {A : Type} (qs : list A) : option A := hd_error qs.

Definition qs_count {A : Type} (qs : list A) : Z := Z.of_nat (length qs).

(** [order_by('-sno')]: descending by code point. *)
Fixpoint insert_desc (b : Booking) (qs : list Booking) : list Booking :=
  match qs with
  | [] => [b]
  | x :: r =>
      if String.leb (sno x) (sno b) then b :: qs else x :: insert_desc b r
  end.

Fixpoint order_by_sno_desc (qs : list Booking) : list Booking :=
  match qs with
  | [] => []
  | b :: r => insert_desc b (order_by_sno_desc r)
  end.

(** ** [Booking.generate_unique_sno] *)

(** [''.join([word[0].upper() for word in title.split()[:3]])]; a word of
    [split()] is never empty, so [word[0]] never raises.  On ASCII text,
    where [upper] gives one character for one and the blanks of [split] are
    those of [Py.isspace]; the properties that name the acronym of a title
    are stated for ASCII titles. *)
Definition first_upper (word : string) : string :=
  match word with
  | EmptyString => EmptyString
  | String c _ => String (Py.upper_char c) EmptyString
  end.

Definition event_acronym (title : string) : string :=
  Py.join (map first_upper (Py.slice_to 3 (Py.split_ws title))).

(** [f"{event_acronym}-{number:03d}"]. *)
Definition sno_format (event_acronym : string) (number : Z) : string :=
  event_acronym ++ "-" ++ Py.format_03d number.

(** [int(highest_sno.split('-')[-1])]; [None] is the [ValueError] or
    [IndexError] that the [try] catches. *)
Definition parse_sno_number (highest_sno : string) : option Z :=
  match Py.index_last (Py.split "-" highest_sno) with
  | Some suffix => Py.int suffix
  | None => None
  end.

(** The [if existing_bookings.exists()] block: [first()] is a row exactly
    when [exists()] holds. *)
Definition highest_number (existing_bookings : list Booking) : Z :=
  match qs_first (order_by_sno_desc existing_bookings) with
  | Some top =>
      match parse_sno_number (sno top) with
      | Some n => n
      | None => qs_count existing_bookings
      end
  | None => 0
  end.

(** The [while Booking.objects.filter(sno=new_sno).exists()] loop; every
    test of the condition costs one unit of [fuel]. *)
Fixpoint sno_retry (fuel : nat) (table : list Booking) (event_acronym : string)
    (new_number : Z) (new_sno : string) (counter : Z) : option string :=
  match fuel with
  | O => None
  | S fuel' =>
      if qs_exists (filter_sno new_sno table) then
        sno_retry fuel' table event_acronym new_number
          (sno_format event_acronym (new_number + counter)) (counter + 1)
      else Some new_sno
  end.

(** [self] is the booking being saved and [event] the row [self.event]
    resolves to; [objects] is the table behind [Booking.objects]. *)
Definition generate_unique_sno_fuel (fuel : nat) (objects : list Booking)
    (self : Booking) (event : Event) : option string :=
  let event_acronym := event_acronym (title event) in
  let existing_bookings := filter_event (event_id self) objects in
  let new_number := highest_number existing_bookings + 1 in
  let new_sno := sno_format event_acronym new_number in
  sno_retry fuel objects event_acronym new_number new_sno 1.

(** With [S (length objects)] tests the loop has always ended; more fuel
    gives the same serial (both proved below). *)
Definition generate_unique_sno (objects : list Booking) (self : Booking)
    (event : Event) : option string :=
  generate_unique_sno_fuel (S (length objects)) objects self event.

(** ** The slug loop of [Event.save] *)

Definition filter_slug (s : string) (qs : list Event) : list Event :=
  filter (fun e => String.eqb (slug e) s) qs.

(** [f"{base_slug}-{counter}"]. *)
Definition slug_format (base_slug : string) (counter : Z) : string :=
  base_slug ++ "-" ++ Py.str counter.

(** The [while Event.objects.filter(slug=slug).exists()] loop. *)
Fixpoint slug_retry (fuel : nat) (objects : list Event) (base_slug slug : string)
    (counter : Z) : option string :=
  match fuel with
  | O => None
  | S fuel' =>
      if qs_exists (filter_slug slug objects) then
        slug_retry fuel' objects base_slug (slug_format base_slug counter) (counter + 1)
      else Some slug
  end.

Definition unique_slug_fuel (fuel : nat) (objects : list Event) (title : string)
    : option string :=
  let base_slug := Django.slugify title in
  slug_retry fuel objects base_slug base_slug 1.

Definition unique_slug (objects : list Event) (title : string) : option string :=
  unique_slug_fuel (S (length objects)) objects title.

(** ** Exceptions and [Model.save] *)

Inductive Exn : Type :=
| DoesNotExist
| MultipleObjectsReturned
| Http404
| RelatedObjectDoesNotExist
| IntegrityError
| LoopFuel.

Inductive result (A : Type) : Type :=
| Ok (a : A)
| Raise (e : Exn).

Arguments Ok {A} a.
Arguments Raise {A} e.

Definition bind {A B : Type} (m : result A) (k : A -> result B) : result B :=
  match m with
  | Ok a => k a
  | Raise e => Raise e
  end.

Notation "x <- m ;; k" := (bind m (fun x => k))
  (at level 61, m at next level, right associativity).

Definition pk_is (k : nat) (pk : option nat) : bool :=
  match pk with
  | Some j => Nat.eqb j k
  | None => false
  end.

(** The key the table hands out on insert: above every key in use. *)
Definition next_pk (pks : list (option nat)) : nat :=
  S (fold_right (fun pk m => match pk with Some k => Nat.max k m | None => m end) O pks).

Definition set_slug (s : string) (e : Event) : Event :=
  mkEvent (event_pk e) (title e) s.

Definition set_event_pk (k : nat) (e : Event) : Event :=
  mkEvent (Some k) (title e) (slug e).

Definition set_booking_pk (k : nat) (b : Booking) : Booking :=
  mkBooking (Some k) (event_id b) (sno b) (qr_code b) (is_activated b)
    (payment_amount b) (total_amount b).

Definition set_sno (s : string) (b : Booking) : Booking :=
  mkBooking (booking_pk b) (event_id b) s (qr_code b) (is_activated b)
    (payment_amount b) (total_amount b).

Definition set_qr_code (name : string) (b : Booking) : Booking :=
  mkBooking (booking_pk b) (event_id b) (sno b) name (is_activated b)
    (payment_amount b) (total_amount b).

Definition set_is_activated (v : bool) (b : Booking) : Booking :=
  mkBooking (booking_pk b) (event_id b) (sno b) (qr_code b) v
    (payment_amount b) (total_amount b).

Definition set_total_amount (v : Z) (b : Booking) : Booking :=
  mkBooking (booking_pk b) (event_id b) (sno b) (qr_code b) (is_activated b)
    (payment_amount b) v.

(** The statement that [super().save()] runs: UPDATE of the row with the
    object's key, INSERT otherwise.  The table and the saved object are
    returned. *)
Definition write_event (objects : list Event) (self : Event)
    : list Event * Event :=
  match event_pk self with
  | Some k =>
      if existsb (fun r => pk_is k (event_pk r)) objects then
        (map (fun r => if pk_is k (event_pk r) then self else r) objects, self)
      else ((objects ++ [self])%list, self)
  | None =>
      let self := set_event_pk (next_pk (map event_pk objects)) self in
      ((objects ++ [self])%list, self)
  end.

Definition write_booking (objects : list Booking) (self : Booking)
    : list Booking * Booking :=
  match booking_pk self with
  | Some k =>
      if existsb (fun r => pk_is k (booking_pk r)) objects then
        (map (fun r => if pk_is k (booking_pk r) then self else r) objects, self)
      else ((objects ++ [self])%list, self)
  | None =>
      let self := set_booking_pk (next_pk (map booking_pk objects)) self in
      ((objects ++ [self])%list, self)
  end.

(** The rows that the statement replaces: those of the object's key. *)
Definition same_event_row (self r : Event) : bool :=
  match event_pk self with
  | Some k => pk_is k (event_pk r)
  | None => false
  end.

Definition same_booking_row (self r : Booking) : bool :=
  match booking_pk self with
  | Some k => pk_is k (booking_pk r)
  | None => false
  end.

(** [unique=True] on [Event.slug] and on [Booking.sno]: the statement is
    refused when another row holds the value written.  A row that already
    holds the value keeps its entry in the index, and is not refused: on a
    table that satisfies the constraint (every table the statements build
    from one that does) no other row can hold it then. *)
Definition slug_conflict (objects : list Event) (self : Event) : bool :=
  existsb (fun r => String.eqb (slug r) (slug self) && negb (same_event_row self r))
    objects &&
  negb (existsb (fun r => String.eqb (slug r) (slug self) && same_event_row self r)
          objects).

Definition sno_conflict (objects : list Booking) (self : Booking) : bool :=
  existsb (fun r => String.eqb (sno r) (sno self) && negb (same_booking_row self r))
    objects &&
  negb (existsb (fun r => String.eqb (sno r) (sno self) && same_booking_row self r)
          objects).

(** [super().save()] of an event: [IntegrityError] on a slug held by another
    row.  The host of the event is not among the columns modelled: its
    foreign key is taken as met. *)
Definition Model_save_event (objects : list Event) (self : Event)
    : result (list Event * Event) :=
  if slug_conflict objects self then Raise IntegrityError
  else Ok (write_event objects self).

(** ** [Event.save] *)

Definition Event_save (objects : list Event) (self : Event)
    : result (list Event * Event) :=
  self <- (if String.eqb (slug self) "" then
             match unique_slug objects (title self) with
             | Some slug => Ok (set_slug slug self)
             | None => Raise LoopFuel
             end
           else Ok self) ;;
  Model_save_event objects self.

(** ** [Booking.save] *)

(** [self.event]: the row the foreign key points to. *)
Definition Booking_event (db : Db) (self : Booking) : result Event :=
  match find (fun e => pk_is (event_id self) (event_pk e)) (events db) with
  | Some e => Ok e
  | None => Raise RelatedObjectDoesNotExist
  end.

(** [super().save()] of a booking: [IntegrityError] when the foreign key
    [event] points to no row, or on a serial held by another row. *)
Definition Model_save_booking (db : Db) (self : Booking)
    : result (list Booking * Booking) :=
  match Booking_event db self with
  | Ok _ =>
      if sno_conflict (bookings db) self then Raise IntegrityError
      else Ok (write_booking (bookings db) self)
  | Raise _ => Raise IntegrityError
  end.

(** [f'bookings/{instance.event.slug}/{filename}']. *)
Definition booking_qr_path (event : Event) (filename : string) : string :=
  "bookings/" ++ slug event ++ "/" ++ filename.

(** [generate_qr_code]: the image itself is not modelled.  The field takes
    the name [upload_to] gives to [f"{self.sno}_qr.png"]; the storage may
    store the file under another name (a cleaned one, with a suffix when the
    name is in use), never an empty one: the properties below only say that
    the field is not empty. *)
Definition generate_qr_code (self : Booking) (event : Event) : Booking :=
  let filename := sno self ++ "_qr.png" in
  set_qr_code (booking_qr_path event filename) self.

Definition Booking_save (db : Db) (self : Booking) : result (Db * Booking) :=
  self <- (if String.eqb (sno self) "" then
             event <- Booking_event db self ;;
             match generate_unique_sno (bookings db) self event with
             | Some new_sno => Ok (set_sno new_sno self)
             | None => Raise LoopFuel
             end
           else Ok self) ;;
  self <- (if String.eqb (qr_code self) "" then
             event <- Booking_event db self ;;
             Ok (generate_qr_code self event)
           else Ok self) ;;
  let self :=
    if 0 <? payment_amount self then set_total_amount (payment_amount self) self
    else self in
  saved <- Model_save_booking db self ;;
  Ok (mkDb (events db) (fst saved), snd saved).

(** ** The scan endpoints of [views.py] *)

(** The [status] property of [Booking]. *)
Definition Booking_status (self : Booking) : string :=
  if is_activated self then "Activated" else "Not Scanned".

Definition scan_message (booking : Booking) : string :=
  "Booking " ++ sno booking ++ " " ++
  (if is_activated booking then "activated" else "deactivated") ++ " successfully".

Inductive Response : Type :=
| Response_200 (booking : Booking) (is_activated : bool) (status message : string)
| Response_404
| Response_500 (e : Exn).

(** [self.get_object()] of the view set: the row with this key, or 404. *)
Definition get_object (db : Db) (pk : nat) : result Booking :=
  match find (fun b => pk_is pk (booking_pk b)) (bookings db) with
  | Some b => Ok b
  | None => Raise Http404
  end.

(** [Booking.objects.get(sno=sno)]. *)
Definition objects_get_sno (db : Db) (s : string) : result Booking :=
  match filter_sno s (bookings db) with
  | [] => Raise DoesNotExist
  | [b] => Ok b
  | _ :: _ :: _ => Raise MultipleObjectsReturned
  end.

(** [BookingViewSet.scan_qr]. *)
Definition scan_qr (db : Db) (pk : nat) : Db * Response :=
  match get_object db pk with
  | Ok booking =>
      let booking := set_is_activated (negb (is_activated booking)) booking in
      match Booking_save db booking with
      | Ok (db', booking) =>
          (db', Response_200 booking (is_activated booking) (Booking_status booking)
                  (scan_message booking))
      | Raise e => (db, Response_500 e)
      end
  | Raise Http404 => (db, Response_404)
  | Raise e => (db, Response_500 e)
  end.

(** [scan_qr_by_sno]: only [DoesNotExist] is caught. *)
Definition scan_qr_by_sno (db : Db) (s : string) : Db * Response :=
  match objects_get_sno db s with
  | Raise DoesNotExist => (db, Response_404)
  | Raise e => (db, Response_500 e)
  | Ok booking =>
      let booking := set_is_activated (negb (is_activated booking)) booking in
      match Booking_save db booking with
      | Ok (db', booking) =>
          (db', Response_200 booking (is_activated booking) (Booking_status booking)
                  (scan_message booking))
      | Raise e => (db, Response_500 e)
      end
  end.

(** ** Vocabulary of the properties *)

(** Some row of the table carries this serial. *)
Definition sno_taken (objects : list Booking) (s : string) : Prop :=
  exists b, In b objects /\ sno b = s.

Definition slug_taken (objects : list Event) (s : string) : Prop :=
  exists e, In e objects /\ slug e = s.

(** The largest sequence number among the rows whose serial parses, [0]
    when there is none. *)
Definition max_sequence (qs : list Booking) : Z :=
  fold_right
    (fun b m => match parse_sno_number (sno b) with
                | Some n => Z.max n m
                | None => m
                end) 0 qs.

(** A serial with a parseable numeric suffix after its last hyphen. *)
Definition well_formed_sno (s : string) : Prop :=
  exists n, parse_sno_number s = Some n.

Fixpoint string_forall (p : ascii -> bool) (s : string) : bool :=
  match s with
  | EmptyString => true
  | String c r => p c && string_forall p r
  end.

(** The first index from [k] on whose candidate is unused, looking at
    [fuel] candidates: what both retry loops compute. *)
Fixpoint first_unused (used : string -> bool) (cand : Z -> string)
    (fuel : nat) (k : Z) : option Z :=
  match fuel with
  | O => None
  | S fuel' =>
      if used (cand k) then first_unused used cand fuel' (k + 1) else Some k
  end.

Definition sno_used (objects : list Booking) (s : string) : bool :=
  qs_exists (filter_sno s objects).

Definition slug_used (objects : list Event) (s : string) : bool :=
  qs_exists (filter_slug s objects).

(** The candidates of the slug loop: the base slug, then [base-1],
    [base-2], ... *)
Definition slug_candidate (base_slug : string) (k : Z) : string :=
  if k =? 0 then base_slug else slug_format base_slug k.

Definition not_char (sep : ascii) (c : ascii) : bool := negb (Ascii.eqb c sep).

(** The first characters of the given words. *)
Definition initials (words : list string) : list ascii :=
  flat_map (fun w => match w with
                     | EmptyString => []
                     | String c _ => [c]
                     end) words.

(** The head of a list dominates the list. *)
Definition head_is_top (qs : list Booking) : Prop :=
  forall top, qs_first qs = Some top ->
  forall x, In x qs -> String.leb (sno x) (sno top) = true.

Definition is_Lt (c : comparison) : bool :=
  match c with Lt => true | _ => false end.

Definition isalnum (c : ascii) : bool := Py.isdigit c || Py.islower c || Py.isupper c.








Definition all_ascii : list ascii := map ascii_of_nat (seq 0 256).

(** A value of the column [sno] as the model reads it: ASCII text of at most
    [max_length = 20] characters. *)
Definition serial_text (s : string) : Prop :=
  Py.isascii s = true /\ (String.length s <= 20)%nat.

(** The keys of a table: every row has one, no two rows share one. *)
Definition keys_ok (objects : list Booking) : Prop :=
  NoDup (map booking_pk objects) /\ forall b, In b objects -> booking_pk b <> None.





(** The update of [super().save()] on the rows with key [k]. *)
Definition update_rows (k : nat) (self : Booking) (objects : list Booking)
    : list Booking :=
  map (fun r => if pk_is k (booking_pk r) then self else r) objects.

(** ** Scenarios *)

(** A booking as the registration view hands it to [save]: no key, no
    serial, no QR image. *)
Definition new_booking (eid : nat) : Booking := mkBooking None eid "" "" false 0 0.

(** Two events whose titles have no word. *)
Definition wordless_db : Db :=
  mkDb [mkEvent (Some 1%nat) "" ""; mkEvent (Some 2%nat) "  " "-1"] [].

(** Two events with the same acronym. *)
Definition ats_db : Db :=
  mkDb [mkEvent (Some 1%nat) "Annual Tech Summit" "annual-tech-summit";
        mkEvent (Some 2%nat) "Awesome Tea Show" "awesome-tea-show"] [].

(** One event, no booking. *)
Definition summit_db : Db :=
  mkDb [mkEvent (Some 1%nat) "Annual Tech Summit" "annual-tech-summit"] [].

(** A ticket already activated: the first scan deactivates it, the second
    activates it again. *)
Definition activated_db : Db :=
  mkDb [mkEvent (Some 1%nat) "Annual Tech Summit" "annual-tech-summit"]
       [mkBooking (Some 1%nat) 1 "ATS-001"
          "bookings/annual-tech-summit/ATS-001_qr.png" true 0 0].

(** ** Further views of [views.py], with their vocabulary

    The creation of a booking ([BookingViewSet.create], [register_for_event]),
    the lookup by serial, the three event views by host and by slug, and the
    paged view of the transactions.  Instants are integers; an answer is the
    data it carries, before serialisation. *)






(** [Event.objects.get(slug=slug)]. *)
Definition Event_objects_get (objects : list Event) (s : string) : result Event :=
  match filter_slug s objects with
  | [] => Raise DoesNotExist
  | [e] => Ok e
  | _ :: _ :: _ => Raise MultipleObjectsReturned
  end.

(** The exceptions that the views below let through: [ValueError] of [int]
    on a text that is no number, [ValueError] of a negative index on a query
    set, and the error of SQLite on a LIMIT or OFFSET beyond its integers. *)
Inductive ViewError : Type :=
| NotANumber
| NegativeIndex
| DatatypeMismatch.

(** The answer of a view, or the exception it lets through. *)
Inductive outcome (A : Type) : Type :=
| Done (a : A)
| Failed (e : ViewError).

Arguments Done {A} a.
Arguments Failed {A} e.

(** The largest integer of SQLite. *)
Definition max_int64 : Z := 9223372036854775807.

(** A key that the database can hold and compare. *)
Definition int64 (z : Z) : Prop := - max_int64 - 1 <= z <= max_int64.

(** [int(s)] returns [z] on every interpreter: ASCII text, within the limit
    of recent interpreters on the number of digits. *)
Definition int_reads (s : string) (z : Z) : Prop :=
  Py.isascii s = true /\ (String.length s <= 4300)%nat /\ Py.int s = Some z.

(** A row of [Event] with the columns the views below read, beside those
    of [Event]: the key of the assigned host, the publication flag and the
    two instants (moments in time, as integers). *)
Record EventRow : Type := mkEventRow {
  row_event : Event;
  assigned_host : nat;
  is_published : bool;
  date : Z;
  end_date : option Z
}.

(** [Event.objects.filter(assigned_host=host_id)]: [host_id] is the segment
    [<str:host_id>] of the URL, which the lookup converts by [int]
    ([ValueError] otherwise), the key of [Host] being taken as the integer
    key of [DEFAULT_AUTO_FIELD]. *)
Definition filter_host (host_id : string) (events : list EventRow)
    : outcome (list EventRow) :=
  match Py.int host_id with
  | Some z => Done (filter (fun e => Z.of_nat (assigned_host e) =? z) events)
  | None => Failed NotANumber
  end.

(** [date__lte=now, end_date__gt=now]: a missing [end_date] never compares. *)
Definition is_ongoing (now : Z) (e : EventRow) : bool :=
  (date e <=? now) &&
  match end_date e with
  | Some d => now <? d
  | None => false
  end.

(** [date__gt=now]. *)
Definition is_upcoming (now : Z) (e : EventRow) : bool := now <? date e.

Record Stats : Type := mkStats {
  stats_total : Z;
  stats_ongoing : Z;
  stats_upcoming : Z
}.

(** [events_stats_by_host], [now] being [timezone.now()]. *)
Definition events_stats_by_host (objects : list EventRow) (now : Z)
    (host_id : string) : outcome Stats :=
  match filter_host host_id objects with
  | Failed e => Failed e
  | Done events =>
      let total := qs_count events in
      let ongoing := qs_count (filter (is_ongoing now) events) in
      let upcoming := qs_count (filter (is_upcoming now) events) in
      Done (mkStats total ongoing upcoming)
  end.

(** Started, and either without an end or ended: counted in [total] only. *)
Definition is_unclassified (now : Z) (e : EventRow) : bool :=
  (date e <=? now) &&
  match end_date e with
  | Some d => d <=? now
  | None => true
  end.

(** An authenticated [request.user]; an anonymous request has none. *)
Record User : Type := mkUser {
  user_id : nat;
  is_superuser : bool
}.

Inductive EventResponse : Type :=
| Event_200 (event : EventRow)
| Event_404 (error : string)
| Event_500 (e : Exn).

(** [Event.objects.get(slug=slug)] on the rows. *)
Definition EventRow_get (objects : list EventRow) (s : string) : result EventRow :=
  match filter (fun e => String.eqb (slug (row_event e)) s) objects with
  | [] => Raise DoesNotExist
  | [e] => Ok e
  | _ :: _ :: _ => Raise MultipleObjectsReturned
  end.

(** [event_by_slug]: published, or asked by a superuser, or asked by the
    user whose id prints as the id of the assigned host. *)
Definition event_by_slug (objects : list EventRow) (user : option User) (s : string)
    : EventResponse :=
  match EventRow_get objects s with
  | Ok event =>
      if is_published event then Event_200 event
      else
        match user with
        | Some u =>
            if is_superuser u then Event_200 event
            else if String.eqb (Py.str (Z.of_nat (assigned_host event)))
                               (Py.str (Z.of_nat (user_id u)))
                 then Event_200 event
                 else Event_404 "Event not published"
        | None => Event_404 "Event not published"
        end
  | Raise DoesNotExist => Event_404 "Event not found"
  | Raise e => Event_500 e
  end.

(** One more event of the year [y] in the groups of
    [.values('year').annotate(count=Count('id')).order_by('year')]: an entry
    a year, the years ascending. *)
Fixpoint count_year (y : Z) (groups : list (Z * Z)) : list (Z * Z) :=
  match groups with
  | [] => [(y, 1)]
  | (y', c) :: r =>
      if y <? y' then (y, 1) :: groups
      else if y =? y' then (y', c + 1) :: r
      else (y', c) :: count_year y r
  end.

(** [events_yearly_count_by_host]; [year_of] is [ExtractYear] on [date]. *)
Definition events_yearly_count_by_host (year_of : Z -> Z) (objects : list EventRow)
    (host_id : string) : outcome (list (Z * Z)) :=
  match filter_host host_id objects with
  | Failed e => Failed e
  | Done events =>
      Done (fold_right count_year [] (map (fun e => year_of (date e)) events))
  end.

(** The number of the years equal to [y]. *)
Definition year_occurrences (y : Z) (years : list Z) : Z :=
  Z.of_nat (length (filter (Z.eqb y) years)).

(** What the groups say of the year [y]. *)
Definition group_count (y : Z) (groups : list (Z * Z)) : Z :=
  fold_right (fun g acc => if fst g =? y then snd g + acc else acc) 0 groups.

(** [int(request.query_params.get(name, default))]. *)
Definition int_param (value : option string) (default : Z) : outcome Z :=
  match value with
  | None => Done default
  | Some s =>
      match Py.int s with
      | Some z => Done z
      | None => Failed NotANumber
      end
  end.

(** [qs[start:stop]], iterated.  The query set refuses negative bounds; an
    empty range gives no row without a query; otherwise the query carries
    LIMIT [stop - start] and OFFSET [start], which SQLite refuses beyond its
    integers, whatever the table holds. *)
Definition qs_slice {A : Type} (qs : list A) (start stop : Z) : outcome (list A) :=
  if (start <? 0) || (stop <? 0) then Failed NegativeIndex
  else if stop <=? start then Done []
  else if (max_int64 <? stop - start) || (max_int64 <? start)
       then Failed DatatypeMismatch
       else Done (firstn (Z.to_nat (stop - start)) (skipn (Z.to_nat start) qs)).

(** The columns of [Payment] and of [Booking] that choose and order the
    entries; an entry of the answer renders the columns of its row. *)
Record Payment : Type := mkPayment {
  payment_pk : nat;
  payment_host_id : option nat;
  payment_created_at : Z
}.

Record BookingRow : Type := mkBookingRow {
  row_booking : Booking;
  booking_host_id : option nat;
  booking_created_at : Z
}.

Inductive Entry : Type :=
| FromPayment (payment : Payment)
| FromBooking (booking : BookingRow).

(** [if host_id: qs = qs.filter(host_id=host_id)]: an empty value is
    false and filters nothing; another one is converted by [int], the key of
    [Host] being taken as the integer key of [DEFAULT_AUTO_FIELD]. *)
Definition filter_host_param {A : Type} (host_of : A -> option nat)
    (host_id : option string) (qs : list A) : outcome (list A) :=
  match host_id with
  | None => Done qs
  | Some s =>
      if String.eqb s "" then Done qs
      else
        match Py.int s with
        | Some z =>
            Done (filter (fun r => match host_of r with
                                   | Some h => Z.of_nat h =? z
                                   | None => false
                                   end) qs)
        | None => Failed NotANumber
        end
  end.

(** [order_by('-created_at')]: the newest first; rows of the same instant
    keep the order of the table, the same for every query. *)
Fixpoint insert_by_desc {A : Type} (key : A -> Z) (x : A) (l : list A) : list A :=
  match l with
  | [] => [x]
  | y :: r => if key y <=? key x then x :: l else y :: insert_by_desc key x r
  end.

Definition order_by_desc {A : Type} (key : A -> Z) (l : list A) : list A :=
  fold_right (insert_by_desc key) [] l.

Record Page : Type := mkPage {
  payment_requests : list Entry;
  total : Z;
  page : Z;
  per_page : Z;
  from_ : Z;
  to_ : Z
}.

(** [hitpay_transactions]: the payments of the host when there are some,
    the bookings otherwise. *)
Definition hitpay_transactions (payments : list Payment) (bookings : list BookingRow)
    (host_id page per_page : option string) : outcome Page :=
  match int_param page 1 with
  | Failed e => Failed e
  | Done page =>
  match int_param per_page 20 with
  | Failed e => Failed e
  | Done per_page =>
  match filter_host_param payment_host_id host_id payments with
  | Failed e => Failed e
  | Done payments =>
      let payment_count := qs_count payments in
      if payment_count =? 0 then
        match filter_host_param booking_host_id host_id bookings with
        | Failed e => Failed e
        | Done bookings =>
            let total := qs_count bookings in
            let start := (page - 1) * per_page in
            let end_ := start + per_page in
            match qs_slice (order_by_desc booking_created_at bookings) start end_ with
            | Failed e => Failed e
            | Done bookings_page =>
                Done (mkPage (map FromBooking bookings_page) total page per_page
                        (if 0 <? total then start + 1 else 0) (Z.min end_ total))
            end
        end
      else
        let total := payment_count in
        let start := (page - 1) * per_page in
        let end_ := start + per_page in
        match qs_slice (order_by_desc payment_created_at payments) start end_ with
        | Failed e => Failed e
        | Done payments_page =>
            Done (mkPage (map FromPayment payments_page) total page per_page
                    (if 0 <? total then start + 1 else 0) (Z.min end_ total))
        end
  end end end.

(** The entries the view pages through: the chosen table, filtered by host
    and ordered. *)
Definition transactions (payments : list Payment) (bookings : list BookingRow)
    (host_id : option string) : outcome (list Entry) :=
  match filter_host_param payment_host_id host_id payments with
  | Failed e => Failed e
  | Done ps =>
      match ps with
      | _ :: _ => Done (map FromPayment (order_by_desc payment_created_at ps))
      | [] =>
          match filter_host_param booking_host_id host_id bookings with
          | Failed e => Failed e
          | Done bs => Done (map FromBooking (order_by_desc booking_created_at bs))
          end
      end
  end.

(** The rows a request is about: every row without [host_id] or with an
    empty one, the rows of the host whose key [host_id] reads as otherwise. *)
Definition of_host (host_id : option string) (host : option nat) : bool :=
  match host_id with
  | None => true
  | Some s =>
      String.eqb s "" ||
      match Py.int s, host with
      | Some z, Some h => Z.of_nat h =? z
      | _, _ => false
      end
  end.

(** A parameter [host_id] that the lookup accepts: none, an empty one, or
    one that reads as a key of the database. *)
Definition host_param_ok (host_id : option string) : Prop :=
  match host_id with
  | None => True
  | Some s => s = "" \/ exists z, int_reads s z /\ int64 z
  end.

(** A parameter that [int] reads as [z], or that is absent with [z] for
    default. *)
Definition param_reads (value : option string) (default z : Z) : Prop :=
  match value with
  | None => z = default
  | Some s => int_reads s z
  end.

(** The key of [order_by('-created_at')] on an entry, and the order it
    gives: the newest first. *)
Definition entry_created_at (e : Entry) : Z :=
  match e with
  | FromPayment p => payment_created_at p
  | FromBooking b => booking_created_at b
  end.

Definition newest_first (a b : Entry) : Prop :=
  entry_created_at b <= entry_created_at a.

(** * Properties *)

(** ** The built-ins on concrete inputs *)

Example split_ws_ex :
  Py.split_ws "  Annual Tech   Summit 2024 " = ["Annual"; "Tech"; "Summit"; "2024"].
Proof. reflexivity. Qed.

Example split_ex : Py.split "-" "A-B--001" = ["A"; "B"; ""; "001"].
Proof. reflexivity. Qed.

Example int_ex :
  Py.int " 007 " = Some 7 /\ Py.int "1_000" = Some 1000 /\ Py.int "+5" = Some 5 /\
  Py.int "" = None /\ Py.int "1__0" = None /\ Py.int "_1" = None /\
  Py.int "12a" = None /\ Py.int "-05" = Some (-5) /\ Py.int "1 2" = None /\
  Py.int (String (ascii_of_nat 9) "7") = Some 7 /\
  Py.int (String (ascii_of_nat 31) "7") = None /\
  Py.split_ws (String "a" (String (ascii_of_nat 31) "b")) = ["a"; "b"].
Proof. repeat split; reflexivity. Qed.

Example format_ex :
  Py.format_03d 1 = "001" /\ Py.format_03d 42 = "042" /\ Py.format_03d 1000 = "1000" /\
  Py.format_03d (-5) = "-05" /\ Py.str 12 = "12" /\ Py.str (-3) = "-3".
Proof. repeat split; reflexivity. Qed.

Example slugify_ex :
  Django.slugify "Annual Tech Summit" = "annual-tech-summit" /\
  Django.slugify "Hello, World!" = "hello-world" /\
  Django.slugify " C++  & Rust -- meetup_ " = "c-rust-meetup".
Proof. repeat split; reflexivity. Qed.

Example generate_unique_sno_ex :
  let ev := mkEvent (Some 1%nat) "Annual Tech Summit" "annual-tech-summit" in
  let b s := mkBooking (Some 1%nat) 1 s "" false 0 0 in
  generate_unique_sno [] (b "") ev = Some "ATS-001" /\
  generate_unique_sno [b "ATS-001"] (b "") ev = Some "ATS-002" /\
  generate_unique_sno [b "ATS-009"; b "ATS-010"] (b "") ev = Some "ATS-011" /\
  generate_unique_sno [b "ATS-999"; b "ATS-1000"] (b "") ev = Some "ATS-1001" /\
  generate_unique_sno [b "ATS-x"; b "ATS-y"] (b "") ev = Some "ATS-003".
Proof. repeat split; reflexivity. Qed.

Example unique_slug_ex :
  let e s := mkEvent (Some 1%nat) "t" s in
  unique_slug [] "Annual Tech Summit" = Some "annual-tech-summit" /\
  unique_slug [e "annual-tech-summit"] "Annual Tech Summit" = Some "annual-tech-summit-1" /\
  unique_slug [e "annual-tech-summit-1"; e "annual-tech-summit"] "Annual Tech Summit"
    = Some "annual-tech-summit-2".
Proof. repeat split; reflexivity. Qed.

(** ** Searching the first unused candidate *)

Section FirstUnused.

Variable used : string -> bool.
Variable cand : Z -> string.

Lemma first_unused_Some fuel : forall k j,
  first_unused used cand fuel k = Some j ->
  k <= j < k + Z.of_nat fuel /\ used (cand j) = false /\
  forall i, k <= i < j -> used (cand i) = true.
Proof.
  induction fuel as [|fuel IH]; intros k j H; simpl in H; [discriminate|].
  destruct (used (cand k)) eqn:Hk.
  - apply IH in H. destruct H as (Hr & Hj & Hbelow).
    split; [lia|]. split; [exact Hj|].
    intros i Hi. destruct (Z.eq_dec i k) as [->|Hne]; [exact Hk|].
    apply Hbelow. lia.
  - injection H as <-. split; [lia|]. split; [exact Hk|].
    intros i Hi. lia.
Qed.

Lemma first_unused_None fuel : forall k,
  first_unused used cand fuel k = None ->
  forall i, k <= i < k + Z.of_nat fuel -> used (cand i) = true.
Proof.
  induction fuel as [|fuel IH]; intros k H i Hi; simpl in *; [lia|].
  destruct (used (cand k)) eqn:Hk; [|discriminate].
  destruct (Z.eq_dec i k) as [->|Hne]; [exact Hk|].
  apply (IH (k + 1)); [exact H | lia].
Qed.

Lemma first_unused_more fuel : forall fuel' k j,
  first_unused used cand fuel k = Some j -> (fuel <= fuel')%nat ->
  first_unused used cand fuel' k = Some j.
Proof.
  induction fuel as [|fuel IH]; intros fuel' k j H Hle; simpl in H; [discriminate|].
  destruct fuel' as [|fuel']; [lia|]. simpl.
  destruct (used (cand k)); [|exact H].
  apply IH; [exact H | lia].
Qed.

(** Pigeonhole: when the used strings all sit in a list [l] and the
    candidates from [k] on are pairwise distinct, one of the first
    [length l + 1] candidates is unused. *)
Lemma first_unused_total (l : list string) (k : Z) :
  (forall s, used s = true -> In s l) ->
  (forall i j, k <= i -> k <= j -> cand i = cand j -> i = j) ->
  exists j, first_unused used cand (S (length l)) k = Some j.
Proof.
  intros Hin Hinj.
  destruct (first_unused used cand (S (length l)) k) as [j|] eqn:H; [now exists j|].
  exfalso.
  pose proof (first_unused_None _ _ H) as Hall.
  set (idx := seq 0 (S (length l))).
  set (L := map (fun m => cand (k + Z.of_nat m)) idx).
  assert (Hnd : NoDup L).
  { apply NoDup_map_NoDup_ForallPairs; [|apply seq_NoDup].
    intros a b _ _ Hab. apply Hinj in Hab; lia. }
  assert (Hincl : incl L l).
  { intros s Hs. apply in_map_iff in Hs. destruct Hs as (m & <- & Hm).
    apply in_seq in Hm. apply Hin, Hall. lia. }
  pose proof (NoDup_incl_length Hnd Hincl) as Hlen.
  unfold L, idx in Hlen. rewrite length_map, length_seq in Hlen. lia.
Qed.

End FirstUnused.

(** ** Printing and reading numbers *)

Section Numbers.

Lemma string_of_uint_digits (d : uint) :
  string_forall Py.isdigit (NilEmpty.string_of_uint d) = true.
Proof. induction d; simpl; auto. Qed.

Lemma str_N_digits (n : N) : string_forall Py.isdigit (Py.str_N n) = true.
Proof.
  unfold Py.str_N, NilZero.string_of_uint.
  destruct (N.to_uint n) eqn:E; try reflexivity;
    rewrite <- E; apply string_of_uint_digits.
Qed.

Lemma str_N_nonempty (n : N) : Py.str_N n <> EmptyString.
Proof.
  unfold Py.str_N, NilZero.string_of_uint.
  destruct (N.to_uint n); simpl; discriminate.
Qed.

Lemma zeros_digits (k : nat) : string_forall Py.isdigit (Py.zeros k) = true.
Proof. induction k; simpl; auto. Qed.

Lemma string_forall_app (p : ascii -> bool) (s t : string) :
  string_forall p (s ++ t) = string_forall p s && string_forall p t.
Proof.
  induction s as [|c s IH]; simpl; [reflexivity|].
  rewrite IH. apply andb_assoc.
Qed.

Lemma string_forall_impl (p q : ascii -> bool) (s : string) :
  (forall c, p c = true -> q c = true) ->
  string_forall p s = true -> string_forall q s = true.
Proof.
  intros Hpq. induction s as [|c s IH]; simpl; [reflexivity|].
  intros H. apply andb_true_iff in H. destruct H as [Hc Hs].
  rewrite (Hpq _ Hc), (IH Hs). reflexivity.
Qed.

Lemma zfill_digits (w : nat) (s : string) :
  string_forall Py.isdigit s = true -> string_forall Py.isdigit (Py.zfill w s) = true.
Proof.
  intros H. unfold Py.zfill. rewrite string_forall_app, zeros_digits, H. reflexivity.
Qed.

Lemma app_nonempty_r (s t : string) : t <> EmptyString -> s ++ t <> EmptyString.
Proof. destruct s; simpl; [auto | discriminate]. Qed.

Lemma zfill_nonempty (w : nat) (s : string) :
  s <> EmptyString -> Py.zfill w s <> EmptyString.
Proof. apply app_nonempty_r. Qed.

Lemma isdigit_not_underscore (c : ascii) :
  Py.isdigit c = true -> Ascii.eqb c "_" = false.
Proof.
  intros H. destruct (Ascii.eqb_spec c "_") as [->|]; [discriminate H | reflexivity].
Qed.

Lemma isdigit_not_minus (c : ascii) :
  Py.isdigit c = true -> Ascii.eqb c "-" = false.
Proof.
  intros H. destruct (Ascii.eqb_spec c "-") as [->|]; [discriminate H | reflexivity].
Qed.

Lemma isdigit_not_plus (c : ascii) :
  Py.isdigit c = true -> Ascii.eqb c "+" = false.
Proof.
  intros H. destruct (Ascii.eqb_spec c "+") as [->|]; [discriminate H | reflexivity].
Qed.

Lemma isdigit_not_space (c : ascii) :
  Py.isdigit c = true -> negb (Py.isspace_int c) = true.
Proof.
  unfold Py.isdigit, Py.isspace_int. intros H.
  apply andb_true_iff in H. destruct H as [H1 H2].
  apply N.leb_le in H1. apply negb_true_iff, orb_false_iff.
  split; [apply andb_false_iff; right; apply N.leb_gt; lia | apply N.eqb_neq; lia].
Qed.

Lemma digits_ok_digits (s : string) :
  string_forall Py.isdigit s = true -> Py.digits_ok true s = true.
Proof.
  induction s as [|c s IH]; simpl; [reflexivity|].
  intros H. apply andb_true_iff in H. destruct H as [Hc Hs].
  rewrite Hc. auto.
Qed.

Lemma drop_underscores_digits (s : string) :
  string_forall Py.isdigit s = true -> Py.drop_underscores s = s.
Proof.
  induction s as [|c s IH]; simpl; [reflexivity|].
  intros H. apply andb_true_iff in H. destruct H as [Hc Hs].
  rewrite (isdigit_not_underscore _ Hc), (IH Hs). reflexivity.
Qed.

(** On a non-empty string of digits the literal is read digit by digit. *)
Lemma nat_literal_digits (s : string) :
  s <> EmptyString -> string_forall Py.isdigit s = true ->
  Py.nat_literal s = option_map N.of_uint (NilEmpty.uint_of_string s).
Proof.
  intros Hne Hd. unfold Py.nat_literal.
  rewrite (drop_underscores_digits _ Hd).
  destruct s as [|c s]; [congruence|].
  simpl in Hd. apply andb_true_iff in Hd. destruct Hd as [Hc Hs].
  simpl Py.digits_ok. rewrite Hc, (digits_ok_digits _ Hs). reflexivity.
Qed.

Lemma uint_of_zeros_app (k : nat) (s : string) (d : uint) :
  NilEmpty.uint_of_string s = Some d ->
  NilEmpty.uint_of_string (Py.zeros k ++ s) = Some (Nat.iter k D0 d).
Proof.
  intros H. induction k as [|k IH]; simpl; [exact H|].
  rewrite IH. reflexivity.
Qed.

Lemma of_uint_leading_zeros (k : nat) (d : uint) :
  N.of_uint (Nat.iter k D0 d) = N.of_uint d.
Proof. induction k as [|k IH]; simpl; [reflexivity | exact IH]. Qed.

Lemma uint_of_str_N (n : N) :
  NilEmpty.uint_of_string (Py.str_N n) = Some (N.to_uint n).
Proof.
  unfold Py.str_N, NilZero.string_of_uint.
  destruct (N.to_uint n) eqn:E; try (rewrite <- E; apply NilEmpty.usu).
  destruct n as [|p]; simpl in E; [discriminate|].
  exfalso. revert E. apply DecimalPos.Unsigned.to_uint_nonnil.
Qed.

Lemma nat_literal_zfill (w : nat) (n : N) :
  Py.nat_literal (Py.zfill w (Py.str_N n)) = Some n.
Proof.
  rewrite nat_literal_digits.
  - unfold Py.zfill. rewrite (uint_of_zeros_app _ _ _ (uint_of_str_N n)). simpl.
    rewrite of_uint_leading_zeros, DecimalN.Unsigned.of_to. reflexivity.
  - apply zfill_nonempty, str_N_nonempty.
  - apply zfill_digits, str_N_digits.
Qed.

Lemma nat_literal_str_N (n : N) : Py.nat_literal (Py.str_N n) = Some n.
Proof. apply (nat_literal_zfill 0 n). Qed.

Lemma lstrip_by_id (p : ascii -> bool) (s : string) :
  string_forall (fun c => negb (p c)) s = true -> Py.lstrip_by p s = s.
Proof.
  destruct s as [|c s]; simpl; [reflexivity|].
  intros H. apply andb_true_iff in H. destruct H as [Hc _].
  apply negb_true_iff in Hc. rewrite Hc. reflexivity.
Qed.

Lemma rstrip_by_id (p : ascii -> bool) (s : string) :
  string_forall (fun c => negb (p c)) s = true -> Py.rstrip_by p s = s.
Proof.
  induction s as [|c s IH]; simpl; [reflexivity|].
  intros H. apply andb_true_iff in H. destruct H as [Hc Hs].
  apply negb_true_iff in Hc. rewrite (IH Hs), Hc. destruct s; reflexivity.
Qed.

Lemma strip_id (s : string) :
  string_forall (fun c => negb (Py.isspace_int c)) s = true -> Py.strip_int s = s.
Proof.
  intros H. unfold Py.strip_int, Py.strip_by.
  rewrite (lstrip_by_id _ _ H). apply rstrip_by_id, H.
Qed.

Lemma digits_no_space (s : string) :
  string_forall Py.isdigit s = true ->
  string_forall (fun c => negb (Py.isspace_int c)) s = true.
Proof. apply string_forall_impl, isdigit_not_space. Qed.

(** [int] reads back a non-empty string of digits as its literal. *)
Lemma int_digits (s : string) :
  s <> EmptyString -> string_forall Py.isdigit s = true ->
  Py.int s = option_map Z.of_N (Py.nat_literal s).
Proof.
  intros Hne Hd. unfold Py.int. rewrite (strip_id _ (digits_no_space _ Hd)).
  destruct s as [|c s]; [congruence|].
  simpl in Hd. apply andb_true_iff in Hd. destruct Hd as [Hc _].
  rewrite (isdigit_not_minus _ Hc), (isdigit_not_plus _ Hc). reflexivity.
Qed.

Lemma int_minus_digits (s : string) :
  string_forall Py.isdigit s = true ->
  Py.int (String "-" s) = option_map (fun n => - Z.of_N n) (Py.nat_literal s).
Proof.
  intros Hd. unfold Py.int. rewrite strip_id; [reflexivity|].
  simpl. apply digits_no_space, Hd.
Qed.

(** [int(f"{z:03d}") == z]. *)
Lemma int_format_03d (z : Z) : Py.int (Py.format_03d z) = Some z.
Proof.
  unfold Py.format_03d. destruct (z <? 0) eqn:Hz.
  - rewrite int_minus_digits by (apply zfill_digits, str_N_digits).
    rewrite nat_literal_zfill. simpl. f_equal. apply Z.ltb_lt in Hz. lia.
  - rewrite int_digits;
      [| apply zfill_nonempty, str_N_nonempty | apply zfill_digits, str_N_digits].
    rewrite nat_literal_zfill. simpl. f_equal. apply Z.ltb_ge in Hz. lia.
Qed.

(** [int(str(z)) == z]. *)
Lemma int_str (z : Z) : Py.int (Py.str z) = Some z.
Proof.
  unfold Py.str. destruct (z <? 0) eqn:Hz.
  - rewrite int_minus_digits by apply str_N_digits.
    rewrite nat_literal_str_N. simpl. f_equal. apply Z.ltb_lt in Hz. lia.
  - rewrite int_digits; [| apply str_N_nonempty | apply str_N_digits].
    rewrite nat_literal_str_N. simpl. f_equal. apply Z.ltb_ge in Hz. lia.
Qed.

Lemma format_03d_inj (a b : Z) : Py.format_03d a = Py.format_03d b -> a = b.
Proof.
  intros H. apply (f_equal Py.int) in H. rewrite !int_format_03d in H. congruence.
Qed.

Lemma str_inj (a b : Z) : Py.str a = Py.str b -> a = b.
Proof.
  intros H. apply (f_equal Py.int) in H. rewrite !int_str in H. congruence.
Qed.

End Numbers.

(** ** The two retry loops *)

Section Loops.

Lemma append_inv_head (p x y : string) : p ++ x = p ++ y -> x = y.
Proof.
  induction p as [|c p IH]; simpl; intros H; [exact H|].
  injection H as H. auto.
Qed.

Lemma length_app (s t : string) :
  String.length (s ++ t) = (String.length s + String.length t)%nat.
Proof. induction s as [|c s IH]; simpl; [reflexivity | now rewrite IH]. Qed.

Lemma sno_format_inj (acr : string) (a b : Z) :
  sno_format acr a = sno_format acr b -> a = b.
Proof.
  unfold sno_format. intros H. apply append_inv_head in H.
  apply append_inv_head in H. apply format_03d_inj, H.
Qed.

Lemma slug_format_inj (base : string) (a b : Z) :
  slug_format base a = slug_format base b -> a = b.
Proof.
  unfold slug_format. intros H. apply append_inv_head in H.
  apply append_inv_head in H. apply str_inj, H.
Qed.

Lemma slug_format_not_base (base : string) (k : Z) : slug_format base k <> base.
Proof.
  unfold slug_format. intros H. apply (f_equal String.length) in H.
  rewrite length_app in H. simpl in H. lia.
Qed.

Lemma slug_candidate_inj (base : string) (i j : Z) :
  slug_candidate base i = slug_candidate base j -> i = j.
Proof.
  unfold slug_candidate.
  destruct (Z.eqb_spec i 0) as [->|Hi], (Z.eqb_spec j 0) as [->|Hj]; intros H.
  - reflexivity.
  - symmetry in H. now apply slug_format_not_base in H.
  - now apply slug_format_not_base in H.
  - apply slug_format_inj in H. exact H.
Qed.

Lemma qs_exists_filter {A : Type} (f : A -> bool) (l : list A) :
  qs_exists (filter f l) = true <-> exists x, In x l /\ f x = true.
Proof.
  split.
  - destruct (filter f l) as [|x r] eqn:E; [discriminate|]. intros _.
    exists x. apply filter_In. rewrite E. now left.
  - intros (x & Hx & Hf).
    assert (Hin : In x (filter f l)) by (apply filter_In; auto).
    destruct (filter f l); [destruct Hin | reflexivity].
Qed.

Lemma sno_used_taken (objects : list Booking) (s : string) :
  sno_used objects s = true <-> sno_taken objects s.
Proof.
  unfold sno_used, filter_sno, sno_taken. rewrite qs_exists_filter.
  split; intros (b & Hb & H); exists b; split; auto; now apply String.eqb_eq.
Qed.

Lemma slug_used_taken (objects : list Event) (s : string) :
  slug_used objects s = true <-> slug_taken objects s.
Proof.
  unfold slug_used, filter_slug, slug_taken. rewrite qs_exists_filter.
  split; intros (e & He & H); exists e; split; auto; now apply String.eqb_eq.
Qed.

Lemma sno_used_not_taken (objects : list Booking) (s : string) :
  sno_used objects s = false <-> ~ sno_taken objects s.
Proof.
  rewrite <- sno_used_taken. destruct (sno_used objects s); split; congruence.
Qed.

Lemma slug_used_not_taken (objects : list Event) (s : string) :
  slug_used objects s = false <-> ~ slug_taken objects s.
Proof.
  rewrite <- slug_used_taken. destruct (slug_used objects s); split; congruence.
Qed.

(** The serial loop is the search of the first unused candidate among
    [acr-(n+0)], [acr-(n+1)], ... *)
Lemma sno_retry_first_unused (objects : list Booking) (acr : string) (n : Z) fuel :
  forall c,
  sno_retry fuel objects acr n (sno_format acr (n + (c - 1))) c =
  option_map (fun k => sno_format acr (n + k))
    (first_unused (sno_used objects) (fun k => sno_format acr (n + k)) fuel (c - 1)).
Proof.
  induction fuel as [|fuel IH]; intros c; simpl; [reflexivity|].
  fold (sno_used objects (sno_format acr (n + (c - 1)))).
  destruct (sno_used objects (sno_format acr (n + (c - 1)))); [|reflexivity].
  replace (c - 1 + 1) with (c + 1 - 1) by lia.
  rewrite <- IH. do 2 f_equal. lia.
Qed.

(** The slug loop is the same search among [base], [base-1], [base-2], ... *)
Lemma slug_retry_first_unused (objects : list Event) (base : string) fuel :
  forall c, 1 <= c ->
  slug_retry fuel objects base (slug_candidate base (c - 1)) c =
  option_map (slug_candidate base)
    (first_unused (slug_used objects) (slug_candidate base) fuel (c - 1)).
Proof.
  induction fuel as [|fuel IH]; intros c Hc; simpl; [reflexivity|].
  fold (slug_used objects (slug_candidate base (c - 1))).
  destruct (slug_used objects (slug_candidate base (c - 1))); [|reflexivity].
  replace (c - 1 + 1) with (c + 1 - 1) by lia.
  rewrite <- IH by lia. f_equal.
  unfold slug_candidate. destruct (Z.eqb_spec (c + 1 - 1) 0); [lia|].
  f_equal. lia.
Qed.

Lemma sno_used_in_map (objects : list Booking) (s : string) :
  sno_used objects s = true -> In s (map sno objects).
Proof.
  intros H. apply sno_used_taken in H. destruct H as (b & Hb & <-).
  now apply in_map.
Qed.

Lemma slug_used_in_map (objects : list Event) (s : string) :
  slug_used objects s = true -> In s (map slug objects).
Proof.
  intros H. apply slug_used_taken in H. destruct H as (e & He & <-).
  now apply in_map.
Qed.

(** What the serial loop returns from the starting number [n]: the first
    free candidate, reached within [length objects + 1] tests, whatever the
    fuel beyond that. *)
Lemma sno_search (objects : list Booking) (acr : string) (n : Z) :
  exists k,
    0 <= k <= Z.of_nat (length objects) /\
    ~ sno_taken objects (sno_format acr (n + k)) /\
    (forall i, 0 <= i < k -> sno_taken objects (sno_format acr (n + i))) /\
    (forall fuel, (Z.to_nat k < fuel)%nat ->
       sno_retry fuel objects acr n (sno_format acr n) 1
       = Some (sno_format acr (n + k))) /\
    (forall fuel, (fuel <= Z.to_nat k)%nat ->
       sno_retry fuel objects acr n (sno_format acr n) 1 = None).
Proof.
  set (cand := fun k => sno_format acr (n + k)).
  destruct (first_unused_total (sno_used objects) cand (map sno objects) 0)
    as [k Hk].
  - apply sno_used_in_map.
  - intros i j _ _ H. apply sno_format_inj in H. lia.
  - rewrite length_map in Hk.
    destruct (first_unused_Some _ _ _ _ _ Hk) as (Hr & Hfree & Hbelow).
    exists k. split; [lia|]. split; [now apply sno_used_not_taken|].
    split; [intros i Hi; now apply sno_used_taken, Hbelow|].
    assert (Heq : forall fuel, sno_retry fuel objects acr n (sno_format acr n) 1
              = option_map cand (first_unused (sno_used objects) cand fuel 0)).
    { intros fuel. pose proof (sno_retry_first_unused objects acr n fuel 1) as E.
      simpl in E. rewrite Z.add_0_r in E. exact E. }
    split; intros fuel Hfuel; rewrite Heq.
    + destruct (first_unused (sno_used objects) cand fuel 0) as [j|] eqn:Ej.
      * destruct (first_unused_Some _ _ _ _ _ Ej) as (Hrj & Hfj & Hbj).
        simpl. do 2 f_equal.
        destruct (Z.lt_trichotomy j k) as [Hlt|[->|Hgt]]; [|reflexivity|].
        -- rewrite Hbelow in Hfj by lia. discriminate.
        -- rewrite Hbj in Hfree by lia. discriminate.
      * pose proof (first_unused_None _ _ _ _ Ej k) as Hc.
        rewrite Hc in Hfree by lia. discriminate.
    + destruct (first_unused (sno_used objects) cand fuel 0) as [j|] eqn:Ej;
        [|reflexivity].
      destruct (first_unused_Some _ _ _ _ _ Ej) as (Hrj & Hfj & Hbj).
      rewrite Hbelow in Hfj by lia. discriminate.
Qed.

End Loops.

(** ** Serial numbers: freshness and termination *)

Section Serial.

Variable objects : list Booking.
Variable self : Booking.
Variable event : Event.

Let acr := event_acronym (title event).
Let n := highest_number (filter_event (event_id self) objects) + 1.

Lemma generate_unique_sno_fuel_unfold (fuel : nat) :
  generate_unique_sno_fuel fuel objects self event
  = sno_retry fuel objects acr n (sno_format acr n) 1.
Proof. reflexivity. Qed.

(** The serial returned: the first free one among [acr-n], [acr-(n+1)], ... *)
Lemma generate_unique_sno_spec :
  exists k,
    0 <= k <= Z.of_nat (length objects) /\
    generate_unique_sno objects self event = Some (sno_format acr (n + k)) /\
    ~ sno_taken objects (sno_format acr (n + k)) /\
    (forall i, 0 <= i < k -> sno_taken objects (sno_format acr (n + i))).
Proof.
  destruct (sno_search objects acr n) as (k & Hk & Hfree & Hbelow & Hsome & _).
  exists k. repeat (split; [assumption || lia|]).
  split; [|split; assumption].
  unfold generate_unique_sno. rewrite generate_unique_sno_fuel_unfold.
  apply Hsome. lia.
Qed.

End Serial.

(** [C1] In a sequential model of the store, [generate_unique_sno] returns a
    serial number, and that serial differs from the [sno] of every existing
    booking of the table, whichever event the booking belongs to. *)
Theorem generate_unique_sno_fresh :
  forall (objects : list Booking) (self : Booking) (event : Event),
  exists new_sno,
    generate_unique_sno objects self event = Some new_sno /\
    forall b, In b objects -> sno b <> new_sno.
Proof.
  intros objects self event.
  destruct (generate_unique_sno_spec objects self event) as (k & _ & Hgen & Hfree & _).
  eexists. split; [exact Hgen|].
  intros b Hb Heq. apply Hfree. exists b. split; assumption.
Qed.

(** [C9] For a fixed table the uniqueness loop of [generate_unique_sno]
    terminates: its candidates [new_number], [new_number + 1], ... print as
    pairwise distinct serials, so the loop stops at the candidate of some
    offset [k <= length objects], that is after at most [length objects + 1]
    tests; it needs exactly [k + 1] tests, the serial found is not in the
    table and every earlier candidate is. *)
Theorem generate_unique_sno_terminates :
  forall (objects : list Booking) (self : Booking) (event : Event),
  let acr := event_acronym (title event) in
  let new_number := highest_number (filter_event (event_id self) objects) + 1 in
  (forall i j, sno_format acr (new_number + i) = sno_format acr (new_number + j) -> i = j) /\
  exists k,
    0 <= k <= Z.of_nat (length objects) /\
    (forall fuel, (Z.to_nat k < fuel)%nat ->
       generate_unique_sno_fuel fuel objects self event
       = Some (sno_format acr (new_number + k))) /\
    (forall fuel, (fuel <= Z.to_nat k)%nat ->
       generate_unique_sno_fuel fuel objects self event = None) /\
    generate_unique_sno objects self event = Some (sno_format acr (new_number + k)) /\
    ~ sno_taken objects (sno_format acr (new_number + k)) /\
    (forall i, 0 <= i < k -> sno_taken objects (sno_format acr (new_number + i))).
Proof.
  intros objects self event acr new_number. split.
  - intros i j H. apply sno_format_inj in H. lia.
  - destruct (sno_search objects acr new_number)
      as (k & Hk & Hfree & Hbelow & Hsome & Hnone).
    exists k. split; [exact Hk|].
    split; [intros fuel Hf; rewrite generate_unique_sno_fuel_unfold; now apply Hsome|].
    split; [intros fuel Hf; rewrite generate_unique_sno_fuel_unfold; now apply Hnone|].
    split; [|split; assumption].
    unfold generate_unique_sno. rewrite generate_unique_sno_fuel_unfold.
    apply Hsome. lia.
Qed.

(** ** Slugs *)

Section Slug.

(** What the slug loop returns: the first free one among [base], [base-1],
    [base-2], ... *)
Lemma slug_search (objects : list Event) (base : string) :
  exists k,
    0 <= k <= Z.of_nat (length objects) /\
    slug_retry (S (length objects)) objects base base 1
    = Some (slug_candidate base k) /\
    ~ slug_taken objects (slug_candidate base k) /\
    (forall i, 0 <= i < k -> slug_taken objects (slug_candidate base i)).
Proof.
  destruct (first_unused_total (slug_used objects) (slug_candidate base)
              (map slug objects) 0) as [k Hk].
  - apply slug_used_in_map.
  - intros i j _ _. apply slug_candidate_inj.
  - rewrite length_map in Hk.
    destruct (first_unused_Some _ _ _ _ _ Hk) as (Hr & Hfree & Hbelow).
    exists k. split; [lia|]. split.
    + pose proof (slug_retry_first_unused objects base (S (length objects)) 1) as E.
      change (slug_candidate base (1 - 1)) with base in E.
      rewrite E by lia. change (1 - 1) with 0. rewrite Hk. reflexivity.
    + split; [now apply slug_used_not_taken|].
      intros i Hi. now apply slug_used_taken, Hbelow.
Qed.

(** The first free candidate is determined by the set of taken slugs. *)
Lemma first_free_unique (taken taken' : string -> Prop) (cand : Z -> string) (k k' : Z) :
  (forall s, taken s <-> taken' s) ->
  ~ taken (cand k) -> (forall i, 0 <= i < k -> taken (cand i)) ->
  ~ taken' (cand k') -> (forall i, 0 <= i < k' -> taken' (cand i)) ->
  0 <= k -> 0 <= k' -> k = k'.
Proof.
  intros Heq Hf Hb Hf' Hb' Hk Hk'.
  destruct (Z.lt_trichotomy k k') as [Hlt|[->|Hgt]]; [|reflexivity|].
  - exfalso. apply Hf, Heq, Hb'. lia.
  - exfalso. apply Hf', Heq, Hb. lia.
Qed.

End Slug.

(** [C5] Slug generation returns a slug that no event of the table has: the
    base slug itself when it is free, otherwise the base slug with the first
    of the suffixes [-1], [-2], ... that is free.  The result is a function
    of the title and of the set of existing slugs alone: two tables with the
    same slugs give the same result.  Saving a new event titled
    "Annual Tech Summit" twice yields [annual-tech-summit], then
    [annual-tech-summit-1]. *)
Theorem unique_slug_spec :
  (forall (objects : list Event) (title : string),
     let base_slug := Django.slugify title in
     exists s,
       unique_slug objects title = Some s /\
       ~ slug_taken objects s /\
       (~ slug_taken objects base_slug -> s = base_slug) /\
       (slug_taken objects base_slug ->
        exists k, 1 <= k /\ s = slug_format base_slug k /\
          forall i, 1 <= i < k -> slug_taken objects (slug_format base_slug i)) /\
       (forall objects' : list Event,
          (forall x, slug_taken objects x <-> slug_taken objects' x) ->
          unique_slug objects' title = Some s)) /\
  (let new := mkEvent None "Annual Tech Summit" "" in
   exists first second table1 table2,
     Event_save [] new = Ok (table1, first) /\
     Event_save table1 new = Ok (table2, second) /\
     slug first = "annual-tech-summit" /\
     slug second = "annual-tech-summit-1").
Proof.
  split.
  - intros objects title base_slug.
    destruct (slug_search objects base_slug) as (k & Hk & Hgen & Hfree & Hbelow).
    exists (slug_candidate base_slug k).
    split; [exact Hgen|]. split; [exact Hfree|].
    split; [|split].
    + intros Hbase. destruct (Z.eq_dec k 0) as [->|Hne]; [reflexivity|].
      exfalso. apply Hbase. apply (Hbelow 0). lia.
    + intros Hbase. exists k.
      assert (Hk0 : k <> 0) by (intros ->; now apply Hfree).
      split; [lia|]. split.
      * unfold slug_candidate. destruct (Z.eqb_spec k 0); [lia | reflexivity].
      * intros i Hi. specialize (Hbelow i ltac:(lia)).
        unfold slug_candidate in Hbelow.
        destruct (Z.eqb_spec i 0); [lia | exact Hbelow].
    + intros objects' Hsame.
      destruct (slug_search objects' base_slug) as (k' & Hk' & Hgen' & Hfree' & Hbelow').
      unfold unique_slug, unique_slug_fuel. fold base_slug. rewrite Hgen'.
      do 2 f_equal. symmetry.
      apply (first_free_unique (slug_taken objects) (slug_taken objects')
               (slug_candidate base_slug)); auto; lia.
  - simpl. do 4 eexists. repeat split; reflexivity.
Qed.

(** ** The numeric suffix of a serial *)

Section Suffix.

Lemma split_nonempty (sep : ascii) (s : string) : Py.split sep s <> [].
Proof.
  destruct s as [|c s]; simpl; [discriminate|].
  destruct (Ascii.eqb c sep); [discriminate|].
  destruct (Py.split sep s); discriminate.
Qed.

Lemma split_no_sep (sep : ascii) (t : string) :
  string_forall (not_char sep) t = true -> Py.split sep t = [t].
Proof.
  induction t as [|c t IH]; simpl; [reflexivity|].
  intros H. apply andb_true_iff in H. destruct H as [Hc Ht].
  unfold not_char in Hc. apply negb_true_iff in Hc.
  rewrite Hc, (IH Ht). reflexivity.
Qed.

Lemma index_last_cons {A : Type} (x : A) (l : list A) :
  l <> [] -> Py.index_last (x :: l) = Py.index_last l.
Proof. destruct l; [congruence | reflexivity]. Qed.

Lemma split_app_sep_length (sep : ascii) (p t : string) :
  (2 <= length (Py.split sep (p ++ String sep t)))%nat.
Proof.
  induction p as [|c p IH]; simpl.
  - rewrite Ascii.eqb_refl. simpl.
    pose proof (split_nonempty sep t).
    destruct (Py.split sep t); [congruence | simpl; lia].
  - destruct (Ascii.eqb c sep).
    + simpl. lia.
    + destruct (Py.split sep (p ++ String sep t)); simpl in *; lia.
Qed.

(** The last piece of [p + sep + t] is the last piece of [t]. *)
Lemma index_last_split_app (sep : ascii) (p t : string) :
  Py.index_last (Py.split sep (p ++ String sep t)) = Py.index_last (Py.split sep t).
Proof.
  induction p as [|c p IH]; simpl.
  - rewrite Ascii.eqb_refl. apply index_last_cons, split_nonempty.
  - destruct (Ascii.eqb c sep).
    + rewrite index_last_cons by apply split_nonempty. exact IH.
    + pose proof (split_app_sep_length sep p t) as Hlen. rewrite <- IH.
      destruct (Py.split sep (p ++ String sep t)) as [|w [|w' ws]];
        simpl in Hlen; try lia.
      reflexivity.
Qed.

Lemma isdigit_not_hyphen (c : ascii) :
  Py.isdigit c = true -> not_char "-" c = true.
Proof. intros H. unfold not_char. now rewrite isdigit_not_minus. Qed.

Lemma format_03d_digits (n : Z) :
  0 <= n -> string_forall Py.isdigit (Py.format_03d n) = true.
Proof.
  intros Hn. unfold Py.format_03d.
  destruct (Z.ltb_spec n 0); [lia|]. apply zfill_digits, str_N_digits.
Qed.

(** The serial [acr-NNN] reads back as its number, whatever the acronym. *)
Lemma parse_sno_format (acr : string) (n : Z) :
  0 <= n -> parse_sno_number (sno_format acr n) = Some n.
Proof.
  intros Hn. unfold parse_sno_number, sno_format. simpl.
  rewrite index_last_split_app, split_no_sep.
  - simpl. apply int_format_03d.
  - apply (string_forall_impl Py.isdigit); [apply isdigit_not_hyphen|].
    now apply format_03d_digits.
Qed.

Lemma split_pieces_no_sep (sep : ascii) (s : string) :
  forall w, In w (Py.split sep s) -> string_forall (not_char sep) w = true.
Proof.
  induction s as [|c s IH]; simpl; intros w Hw.
  - destruct Hw as [<-|[]]. reflexivity.
  - destruct (Ascii.eqb c sep) eqn:Hc.
    + destruct Hw as [<-|Hw]; [reflexivity | now apply IH].
    + destruct (Py.split sep s) as [|w0 ws] eqn:E.
      * destruct Hw as [<-|[]]. simpl. unfold not_char. now rewrite Hc.
      * destruct Hw as [<-|Hw].
        -- simpl. unfold not_char at 1. rewrite Hc. simpl.
           apply IH. now left.
        -- apply IH. now right.
Qed.

Lemma index_last_In {A : Type} (l : list A) (x : A) :
  Py.index_last l = Some x -> In x l.
Proof.
  induction l as [|y l IH]; simpl; [discriminate|].
  destruct l as [|z l]; [intros [= ->]; now left|].
  intros H. right. now apply IH.
Qed.

Lemma lstrip_by_forall (p q : ascii -> bool) (s : string) :
  string_forall q s = true -> string_forall q (Py.lstrip_by p s) = true.
Proof.
  induction s as [|c s IH]; simpl; [reflexivity|].
  intros H. destruct (p c); [|exact H].
  apply andb_true_iff in H. now apply IH.
Qed.

Lemma rstrip_by_forall (p q : ascii -> bool) (s : string) :
  string_forall q s = true -> string_forall q (Py.rstrip_by p s) = true.
Proof.
  induction s as [|c s IH]; simpl; [reflexivity|].
  intros H. apply andb_true_iff in H. destruct H as [Hc Hs].
  specialize (IH Hs).
  destruct (Py.rstrip_by p s) as [|c' r'].
  - destruct (p c); simpl; [reflexivity | now rewrite Hc].
  - cbn [string_forall] in *. now rewrite Hc, IH.
Qed.

(** Without a minus sign in the text, [int] gives a natural number. *)
Lemma int_nonneg (s : string) (n : Z) :
  string_forall (not_char "-") s = true -> Py.int s = Some n -> 0 <= n.
Proof.
  intros Hs. unfold Py.int, Py.strip_int, Py.strip_by.
  pose proof (rstrip_by_forall Py.isspace_int _ _
                (lstrip_by_forall Py.isspace_int _ _ Hs)) as H.
  destruct (Py.rstrip_by Py.isspace_int (Py.lstrip_by Py.isspace_int s)) as [|c r];
    [discriminate|].
  simpl in H. apply andb_true_iff in H. destruct H as [Hc _].
  unfold not_char in Hc. apply negb_true_iff in Hc. rewrite Hc.
  destruct (Ascii.eqb c "+").
  - destruct (Py.nat_literal r); simpl; intros [= <-]; lia.
  - destruct (Py.nat_literal (String c r)); simpl; intros [= <-]; lia.
Qed.

Lemma parse_sno_number_nonneg (s : string) (n : Z) :
  parse_sno_number s = Some n -> 0 <= n.
Proof.
  unfold parse_sno_number.
  destruct (Py.index_last (Py.split "-" s)) as [suffix|] eqn:E; [|discriminate].
  apply int_nonneg. apply (split_pieces_no_sep "-" s). now apply index_last_In.
Qed.

Lemma highest_number_nonneg (qs : list Booking) : 0 <= highest_number qs.
Proof.
  unfold highest_number.
  destruct (qs_first (order_by_sno_desc qs)) as [top|]; [|lia].
  destruct (parse_sno_number (sno top)) as [n|] eqn:E.
  - now apply parse_sno_number_nonneg in E.
  - unfold qs_count. lia.
Qed.

End Suffix.

(** ** The form of a serial *)

Section Form.

Lemma all_ascii_complete (c : ascii) : In c all_ascii.
Proof.
  unfold all_ascii. rewrite <- (ascii_nat_embedding c).
  apply in_map, in_seq. pose proof (nat_ascii_bounded c). lia.
Qed.

Lemma ascii_forall (p : ascii -> bool) :
  forallb p all_ascii = true -> forall c, p c = true.
Proof.
  intros H c. rewrite forallb_forall in H. apply H, all_ascii_complete.
Qed.

Lemma upper_char_not_lower (c : ascii) : Py.islower (Py.upper_char c) = false.
Proof.
  revert c.
  assert (H : forall c, negb (Py.islower (Py.upper_char c)) = true)
    by (apply ascii_forall; vm_compute; reflexivity).
  intros c. apply negb_true_iff, H.
Qed.

Lemma string_forall_of_list (p : ascii -> bool) (l : list ascii) :
  string_forall p (string_of_list_ascii l) = forallb p l.
Proof. induction l as [|c l IH]; simpl; [reflexivity | now rewrite IH]. Qed.

Lemma split_ws_words_nonempty (s : string) :
  forall w, In w (Py.split_ws s) -> w <> EmptyString.
Proof.
  induction s as [|c s IH]; simpl; intros w Hw; [destruct Hw|].
  destruct (Py.isspace c); [now apply IH|].
  destruct s as [|c' s']; [destruct Hw as [<-|[]]; discriminate|].
  destruct (Py.isspace c').
  - destruct Hw as [<-|Hw]; [discriminate | now apply IH].
  - destruct (Py.split_ws (String c' s')) as [|w0 ws].
    + destruct Hw as [<-|[]]; discriminate.
    + destruct Hw as [<-|Hw]; [discriminate | apply IH; now right].
Qed.

Lemma append_empty_r (s : string) : s ++ EmptyString = s.
Proof. induction s as [|c s IH]; simpl; [reflexivity | now rewrite IH]. Qed.

Lemma join_cons (x : string) (l : list string) :
  Py.join (x :: l) = x ++ Py.join l.
Proof.
  unfold Py.join. destruct l as [|y l]; simpl; [now rewrite append_empty_r|].
  reflexivity.
Qed.

Lemma join_first_upper (words : list string) :
  Py.join (map first_upper words)
  = string_of_list_ascii (map Py.upper_char (initials words)).
Proof.
  induction words as [|w ws IH]; [reflexivity|].
  cbn [map]. rewrite join_cons, IH.
  destruct w; reflexivity.
Qed.

Lemma initials_length (words : list string) :
  (forall w, In w words -> w <> EmptyString) ->
  length (initials words) = length words.
Proof.
  induction words as [|w ws IH]; simpl; intros H; [reflexivity|].
  destruct w as [|c w]; [exfalso; apply (H EmptyString); auto|].
  simpl. f_equal. apply IH. intros w' Hw'. apply H. now right.
Qed.

Lemma length_string_of_list (l : list ascii) :
  String.length (string_of_list_ascii l) = length l.
Proof. induction l; simpl; auto. Qed.

Lemma event_acronym_initials (title : string) :
  event_acronym title
  = string_of_list_ascii (map Py.upper_char (initials (firstn 3 (Py.split_ws title)))).
Proof. unfold event_acronym, Py.slice_to. apply join_first_upper. Qed.

Lemma In_firstn {A : Type} (k : nat) (l : list A) (x : A) :
  In x (firstn k l) -> In x l.
Proof.
  intros H. rewrite <- (firstn_skipn k l). apply in_or_app. now left.
Qed.

Lemma event_acronym_length (title : string) :
  String.length (event_acronym title) = Nat.min 3 (length (Py.split_ws title)).
Proof.
  rewrite event_acronym_initials, length_string_of_list, length_map.
  rewrite initials_length, length_firstn; [reflexivity|].
  intros w Hw. apply (split_ws_words_nonempty title).
  now apply (In_firstn 3).
Qed.

Lemma length_zeros (k : nat) : String.length (Py.zeros k) = k.
Proof. induction k; simpl; auto. Qed.

Lemma length_zfill (w : nat) (s : string) :
  String.length (Py.zfill w s) = Nat.max w (String.length s).
Proof. unfold Py.zfill. rewrite length_app, length_zeros. lia. Qed.

Lemma format_03d_nonneg (n : Z) :
  0 <= n -> Py.format_03d n = Py.zfill 3 (Py.str n).
Proof.
  intros Hn. unfold Py.format_03d, Py.str. now destruct (Z.ltb_spec n 0); [lia|].
Qed.

End Form.

Section SerialCases.

Variable objects : list Booking.
Variable self : Booking.
Variable event : Event.

Let acr := event_acronym (title event).
Let existing := filter_event (event_id self) objects.

(** When the first candidate is free it is the serial returned. *)
Lemma generate_unique_sno_free :
  ~ sno_taken objects (sno_format acr (highest_number existing + 1)) ->
  generate_unique_sno objects self event
  = Some (sno_format acr (highest_number existing + 1)).
Proof.
  intros Hfree.
  destruct (generate_unique_sno_spec objects self event) as (k & Hk & Hgen & _ & Hbelow).
  destruct (Z.eq_dec k 0) as [->|Hne].
  - rewrite Z.add_0_r in Hgen. exact Hgen.
  - exfalso. apply Hfree. specialize (Hbelow 0 ltac:(lia)).
    rewrite Z.add_0_r in Hbelow. exact Hbelow.
Qed.

End SerialCases.

(** [C3], as the code has it.  For an ASCII title the serial generated is
    [ACRONYM-NNN]: the acronym is made of the uppercased first characters
    of the first three (or fewer) whitespace-separated words of the title,
    one character a word and none of them a lowercase letter, and [NNN] is a
    sequence number [>= 1] printed in decimal, zero-padded to three digits.
    When the title has no word the acronym is empty, and the first serial of
    the event is the first one among ["-001"], ["-002"], ... that no booking
    of the table holds: ["-001"] provided no booking holds that serial
    already. *)
Theorem generate_unique_sno_form :
  forall (objects : list Booking) (self : Booking) (event : Event),
  Py.isascii (title event) = true ->
  let words := Py.split_ws (title event) in
  let acr := event_acronym (title event) in
  acr = string_of_list_ascii (map Py.upper_char (initials (firstn 3 words))) /\
  String.length acr = Nat.min 3 (length words) /\
  string_forall (fun c => negb (Py.islower c)) acr = true /\
  (exists number,
     1 <= number /\
     generate_unique_sno objects self event = Some (acr ++ "-" ++ Py.format_03d number) /\
     Py.format_03d number = Py.zfill 3 (Py.str number) /\
     string_forall Py.isdigit (Py.format_03d number) = true /\
     String.length (Py.format_03d number) = Nat.max 3 (String.length (Py.str number))) /\
  (words = [] ->
   acr = "" /\
   (filter_event (event_id self) objects = [] ->
    (exists k,
       0 <= k <= Z.of_nat (length objects) /\
       generate_unique_sno objects self event = Some ("-" ++ Py.format_03d (1 + k)) /\
       ~ sno_taken objects ("-" ++ Py.format_03d (1 + k)) /\
       (forall i, 0 <= i < k -> sno_taken objects ("-" ++ Py.format_03d (1 + i)))) /\
    (~ sno_taken objects "-001" ->
     generate_unique_sno objects self event = Some "-001"))).
Proof.
  intros objects self event _ words acr.
  split; [apply event_acronym_initials|].
  split; [apply event_acronym_length|].
  split.
  { unfold acr. rewrite event_acronym_initials, string_forall_of_list.
    apply forallb_forall. intros c Hc. apply in_map_iff in Hc.
    destruct Hc as (x & <- & _). now rewrite upper_char_not_lower. }
  split.
  - destruct (generate_unique_sno_spec objects self event) as (k & Hk & Hgen & _).
    pose proof (highest_number_nonneg (filter_event (event_id self) objects)) as Hh.
    eexists. split; [|split; [exact Hgen|]].
    + lia.
    + split; [apply format_03d_nonneg; lia|].
      split; [apply format_03d_digits; lia|].
      rewrite format_03d_nonneg by lia. apply length_zfill.
  - intros Hw.
    assert (Hacr : acr = "").
    { unfold acr, event_acronym. fold words. rewrite Hw. reflexivity. }
    split; [exact Hacr|].
    intros Hnone. split.
    + destruct (generate_unique_sno_spec objects self event)
        as (k & Hk & Hgen & Hfree & Hbelow).
      fold acr in Hgen, Hfree, Hbelow.
      rewrite Hnone, Hacr in Hgen, Hfree, Hbelow.
      exists k. auto.
    + intros Hfree.
      pose proof (generate_unique_sno_free objects self event) as H.
      rewrite Hnone in H. fold acr in H. rewrite Hacr in H. apply H, Hfree.
Qed.

Lemma generate_unique_sno_form_witness :
  event_acronym "annual tech summit 2024" = "ATS" /\
  generate_unique_sno [] (new_booking 2) (mkEvent (Some 2%nat) "  " "-1") = Some "-001".
Proof.
  split.
  - exact (proj1 (generate_unique_sno_form [] (new_booking 1)
                    (mkEvent (Some 1%nat) "annual tech summit 2024" "s") eq_refl)).
  - pose proof (generate_unique_sno_form [] (new_booking 2)
                  (mkEvent (Some 2%nat) "  " "-1") eq_refl) as H.
    destruct H as (_ & _ & _ & _ & H).
    destruct (H eq_refl) as (_ & H1). destruct (H1 eq_refl) as (_ & H2).
    apply H2. intros (b & [] & _).
Defined.

(** [C3], as stated, fails on the second event whose title has no word:
    its first booking gets ["-002"], the first event holding ["-001"]. *)
Lemma wordless_second_event_serial :
  exists db1 b1 db2 b2,
    Booking_save wordless_db (new_booking 1) = Ok (db1, b1) /\
    sno b1 = "-001" /\
    Py.split_ws "  " = [] /\
    filter_event 2 (bookings db1) = [] /\
    Booking_save db1 (new_booking 2) = Ok (db2, b2) /\
    sno b2 = "-002".
Proof. do 4 eexists. repeat split; reflexivity. Qed.

(** [C4], as the code has it.  For an event without bookings the first
    serial generated is the first free one among [ACR-001], [ACR-002], ...:
    its sequence component is [001] whenever no booking (of another event)
    holds [ACR-001] already.  On a table without bookings, an event titled
    "Annual Tech Summit" gets [ATS-001] for its first booking and [ATS-002]
    for its second. *)
Theorem first_serial_of_event :
  (forall (objects : list Booking) (self : Booking) (event : Event),
     let acr := event_acronym (title event) in
     filter_event (event_id self) objects = [] ->
     (exists k,
        0 <= k <= Z.of_nat (length objects) /\
        generate_unique_sno objects self event = Some (sno_format acr (1 + k)) /\
        ~ sno_taken objects (sno_format acr (1 + k)) /\
        (forall i, 0 <= i < k -> sno_taken objects (sno_format acr (1 + i)))) /\
     (~ sno_taken objects (acr ++ "-001") ->
      generate_unique_sno objects self event = Some (acr ++ "-001") /\
      parse_sno_number (acr ++ "-001") = Some 1)) /\
  (exists db1 b1 db2 b2,
     Booking_save summit_db (new_booking 1) = Ok (db1, b1) /\
     sno b1 = "ATS-001" /\
     Booking_save db1 (new_booking 1) = Ok (db2, b2) /\
     sno b2 = "ATS-002").
Proof.
  split.
  - intros objects self event acr Hnone. split.
    + destruct (generate_unique_sno_spec objects self event) as (k & Hk & Hgen & Hfree & Hbelow).
      rewrite Hnone in Hgen, Hfree, Hbelow. exists k. auto.
    + intros Hfree.
      pose proof (generate_unique_sno_free objects self event) as H.
      rewrite Hnone in H. split; [apply H, Hfree|].
      apply (parse_sno_format acr 1). lia.
  - do 4 eexists. repeat split; reflexivity.
Qed.

Lemma first_serial_of_event_witness :
  filter_event 1 [] = [] /\
  generate_unique_sno [] (new_booking 1)
    (mkEvent (Some 1%nat) "Annual Tech Summit" "annual-tech-summit") = Some "ATS-001".
Proof.
  split; [reflexivity|].
  refine (proj1 (proj2 (proj1 first_serial_of_event [] (new_booking 1)
    (mkEvent (Some 1%nat) "Annual Tech Summit" "annual-tech-summit") eq_refl) _)).
  intros (b & Hb & _). destruct Hb.
Defined.

(** [C4], as stated, fails when another event has the same acronym: the
    first booking of "Awesome Tea Show" gets [ATS-002], whose sequence
    component is 2, "Annual Tech Summit" holding [ATS-001]. *)
Lemma same_acronym_first_serial :
  exists db1 b1 db2 b2,
    Booking_save ats_db (new_booking 1) = Ok (db1, b1) /\
    sno b1 = "ATS-001" /\
    filter_event 2 (bookings db1) = [] /\
    Booking_save db1 (new_booking 2) = Ok (db2, b2) /\
    sno b2 = "ATS-002" /\
    parse_sno_number (sno b2) = Some 2.
Proof. do 4 eexists. repeat split; reflexivity. Qed.



(** ** Ordering by serial *)

Section Order.

Lemma ascii_compare_refl (c : ascii) : Ascii.compare c c = Eq.
Proof. unfold Ascii.compare. apply N.compare_refl. Qed.

Lemma string_compare_refl (s : string) : String.compare s s = Eq.
Proof.
  induction s as [|c s IH]; simpl; [reflexivity|].
  now rewrite ascii_compare_refl.
Qed.

Lemma string_compare_lt_trans (s : string) : forall t u,
  String.compare s t = Lt -> String.compare t u = Lt -> String.compare s u = Lt.
Proof.
  induction s as [|a s IH]; intros [|b t] [|c u]; simpl; try congruence.
  unfold Ascii.compare.
  destruct (N.compare_spec (N_of_ascii a) (N_of_ascii b)) as [Hab|Hab|Hab];
    destruct (N.compare_spec (N_of_ascii b) (N_of_ascii c)) as [Hbc|Hbc|Hbc];
    try congruence; intros H1 H2.
  - rewrite Hab, Hbc, N.compare_refl. eapply IH; eassumption.
  - rewrite Hab. apply N.compare_lt_iff in Hbc. now rewrite Hbc.
  - rewrite <- Hbc. apply N.compare_lt_iff in Hab. now rewrite Hab.
  - assert (Hac : (N_of_ascii a < N_of_ascii c)%N) by lia.
    apply N.compare_lt_iff in Hac. now rewrite Hac.
Qed.

Lemma string_leb_refl (s : string) : String.leb s s = true.
Proof. unfold String.leb. now rewrite string_compare_refl. Qed.

Lemma string_leb_cases (s t : string) :
  String.leb s t = true <-> String.compare s t = Lt \/ s = t.
Proof.
  unfold String.leb. split.
  - destruct (String.compare s t) eqn:E; try discriminate; intros _.
    + right. now apply String.compare_eq_iff.
    + now left.
  - intros [->| ->]; [reflexivity|]. now rewrite string_compare_refl.
Qed.

Lemma string_leb_trans (s t u : string) :
  String.leb s t = true -> String.leb t u = true -> String.leb s u = true.
Proof.
  rewrite !string_leb_cases. intros [H1| ->] [H2| ->]; auto.
  left. eapply string_compare_lt_trans; eassumption.
Qed.

Lemma string_leb_false (s t : string) :
  String.leb s t = false -> String.leb t s = true.
Proof.
  intros H. destruct (String.leb_total s t) as [H'|H']; congruence.
Qed.

Lemma string_compare_app (p x y : string) :
  String.compare (p ++ x) (p ++ y) = String.compare x y.
Proof.
  induction p as [|c p IH]; simpl; [reflexivity|].
  now rewrite ascii_compare_refl.
Qed.

Lemma insert_desc_In (b : Booking) (qs : list Booking) (x : Booking) :
  In x (insert_desc b qs) <-> x = b \/ In x qs.
Proof.
  induction qs as [|y r IH]; simpl.
  - intuition.
  - destruct (String.leb (sno y) (sno b)); simpl; [intuition|].
    rewrite IH. intuition.
Qed.

Lemma order_by_sno_desc_In (qs : list Booking) (x : Booking) :
  In x (order_by_sno_desc qs) <-> In x qs.
Proof.
  induction qs as [|b r IH]; simpl; [reflexivity|].
  rewrite insert_desc_In, IH. intuition.
Qed.

Lemma insert_desc_top (b : Booking) (qs : list Booking) :
  head_is_top qs -> head_is_top (insert_desc b qs).
Proof.
  unfold head_is_top. destruct qs as [|y r]; simpl.
  - intros _ top [= <-] x [<-|[]]. apply string_leb_refl.
  - intros H. specialize (H y eq_refl).
    destruct (String.leb (sno y) (sno b)) eqn:E; simpl.
    + intros top [= <-] x [<-|Hx]; [apply string_leb_refl|].
      eapply string_leb_trans; [apply H, Hx | exact E].
    + intros top [= <-] x [<-|Hx]; [apply string_leb_refl|].
      apply insert_desc_In in Hx. destruct Hx as [->|Hx].
      * now apply string_leb_false.
      * apply H. now right.
Qed.

Lemma order_by_sno_desc_top (qs : list Booking) : head_is_top (order_by_sno_desc qs).
Proof.
  induction qs as [|b r IH]; simpl.
  - intros top H. discriminate H.
  - now apply insert_desc_top.
Qed.

(** [first()] of the descending order: a row of the query set whose serial
    is the greatest. *)
Lemma first_order_by_sno_desc (qs : list Booking) (top : Booking) :
  qs_first (order_by_sno_desc qs) = Some top ->
  In top qs /\ forall x, In x qs -> String.leb (sno x) (sno top) = true.
Proof.
  intros H. split.
  - apply order_by_sno_desc_In.
    destruct (order_by_sno_desc qs); [discriminate|].
    injection H as <-. now left.
  - intros x Hx. apply (order_by_sno_desc_top qs top H).
    now apply order_by_sno_desc_In.
Qed.

Lemma first_order_by_sno_desc_None (qs : list Booking) :
  qs_first (order_by_sno_desc qs) = None -> qs = [].
Proof.
  destruct qs as [|b r]; [reflexivity|]. intros H. exfalso.
  assert (Hin : In b (order_by_sno_desc (b :: r)))
    by (apply order_by_sno_desc_In; now left).
  destruct (order_by_sno_desc (b :: r)); [destruct Hin | discriminate].
Qed.

End Order.

(** ** The next sequence number *)

Section NextNumber.

Lemma format_03d_step_check :
  forallb (fun m => is_Lt (String.compare (Py.format_03d (Z.of_nat m))
                             (Py.format_03d (Z.of_nat m + 1))))
          (seq 0 999) = true.
Proof. vm_compute. reflexivity. Qed.

Lemma format_03d_step (a : Z) :
  0 <= a < 999 ->
  String.compare (Py.format_03d a) (Py.format_03d (a + 1)) = Lt.
Proof.
  intros Ha. pose proof format_03d_step_check as H.
  rewrite forallb_forall in H. specialize (H (Z.to_nat a)).
  rewrite Z2Nat.id in H by lia.
  assert (Hin : In (Z.to_nat a) (seq 0 999)) by (apply in_seq; lia).
  specialize (H Hin).
  destruct (String.compare (Py.format_03d a) (Py.format_03d (a + 1)));
    [discriminate | reflexivity | discriminate].
Qed.

(** Below 1000 the padded numbers order as the numbers do. *)
Lemma format_03d_mono (a : Z) (d : nat) :
  0 <= a -> a + 1 + Z.of_nat d < 1000 ->
  String.compare (Py.format_03d a) (Py.format_03d (a + 1 + Z.of_nat d)) = Lt.
Proof.
  intros Ha. induction d as [|d IH]; intros Hb.
  - rewrite Z.add_0_r. apply format_03d_step. lia.
  - apply (string_compare_lt_trans _ (Py.format_03d (a + 1 + Z.of_nat d))).
    + apply IH. lia.
    + replace (a + 1 + Z.of_nat (S d)) with (a + 1 + Z.of_nat d + 1) by lia.
      apply format_03d_step. lia.
Qed.

Lemma format_03d_leb (a b : Z) :
  0 <= a < 1000 -> 0 <= b < 1000 ->
  String.leb (Py.format_03d a) (Py.format_03d b) = true -> a <= b.
Proof.
  intros Ha Hb H. destruct (Z.le_gt_cases a b) as [|Hlt]; [assumption|].
  exfalso. unfold String.leb in H.
  rewrite String.compare_antisym in H.
  pose proof (format_03d_mono b (Z.to_nat (a - b - 1)) ltac:(lia)) as Hm.
  rewrite Z2Nat.id in Hm by lia.
  replace (b + 1 + (a - b - 1)) with a in Hm by lia.
  rewrite Hm in H by lia. discriminate H.
Qed.

Lemma sno_format_leb (prefix : string) (a b : Z) :
  0 <= a < 1000 -> 0 <= b < 1000 ->
  String.leb (sno_format prefix a) (sno_format prefix b) = true -> a <= b.
Proof.
  intros Ha Hb H. apply format_03d_leb; try assumption.
  unfold String.leb, sno_format in *.
  now rewrite !string_compare_app in H.
Qed.

Lemma max_sequence_nonneg (qs : list Booking) : 0 <= max_sequence qs.
Proof.
  induction qs as [|b r IH]; simpl; [lia|].
  destruct (parse_sno_number (sno b)); lia.
Qed.

Lemma max_sequence_upper (qs : list Booking) (m : Z) :
  0 <= m ->
  (forall b n, In b qs -> parse_sno_number (sno b) = Some n -> n <= m) ->
  max_sequence qs <= m.
Proof.
  intros Hm. induction qs as [|b r IH]; simpl; intros H; [lia|].
  assert (Hr : max_sequence r <= m) by (apply IH; intros; eapply H; eauto).
  destruct (parse_sno_number (sno b)) as [n|] eqn:E; [|exact Hr].
  specialize (H b n (or_introl eq_refl) E). lia.
Qed.

Lemma max_sequence_lower (qs : list Booking) (b : Booking) (n : Z) :
  In b qs -> parse_sno_number (sno b) = Some n -> n <= max_sequence qs.
Proof.
  induction qs as [|x r IH]; simpl; intros Hin E; [destruct Hin|].
  destruct Hin as [->|Hin].
  - rewrite E. lia.
  - specialize (IH Hin E). destruct (parse_sno_number (sno x)); lia.
Qed.

(** On serials [prefix-NNN] below 1000 the top entry of the descending
    order carries the largest sequence number. *)
Lemma highest_number_is_max (prefix : string) (qs : list Booking) :
  (forall b, In b qs -> exists n, 0 <= n < 1000 /\ sno b = sno_format prefix n) ->
  highest_number qs = max_sequence qs.
Proof.
  intros Hform. unfold highest_number.
  destruct (qs_first (order_by_sno_desc qs)) as [top|] eqn:Htop.
  - apply first_order_by_sno_desc in Htop. destruct Htop as [Hin Hmax].
    destruct (Hform top Hin) as (nt & Hnt & Et).
    rewrite Et, parse_sno_format by lia.
    apply Z.le_antisymm.
    + apply (max_sequence_lower qs top); [exact Hin|].
      rewrite Et. apply parse_sno_format. lia.
    + apply max_sequence_upper; [lia|].
      intros b n Hb Hn. destruct (Hform b Hb) as (nb & Hnb & Eb).
      rewrite Eb, parse_sno_format in Hn by lia. injection Hn as <-.
      apply (sno_format_leb prefix); try assumption.
      rewrite <- Eb, <- Et. now apply Hmax.
  - apply first_order_by_sno_desc_None in Htop. now subst qs.
Qed.

End NextNumber.

(** [C2], as the code has it.  When the bookings of the event all carry
    serials of the generator's own form [PREFIX-NNN], with one prefix and
    sequence numbers below 1000, the top entry under descending serial order
    carries the largest sequence number, and the serial generated next has
    the sequence number [max + 1 + k], where [k >= 0] is the least offset
    whose serial no booking of the table holds: it is [max + 1] exactly when
    that serial is not taken by a booking of another event. *)
Theorem next_sequence_number :
  forall (objects : list Booking) (self : Booking) (event : Event) (prefix : string),
  let acr := event_acronym (title event) in
  let existing := filter_event (event_id self) objects in
  (forall b, In b existing ->
     exists n, 0 <= n < 1000 /\ sno b = sno_format prefix n) ->
  highest_number existing = max_sequence existing /\
  (exists k,
     0 <= k <= Z.of_nat (length objects) /\
     generate_unique_sno objects self event
     = Some (sno_format acr (max_sequence existing + 1 + k)) /\
     parse_sno_number (sno_format acr (max_sequence existing + 1 + k))
     = Some (max_sequence existing + 1 + k) /\
     ~ sno_taken objects (sno_format acr (max_sequence existing + 1 + k)) /\
     (forall i, 0 <= i < k ->
        sno_taken objects (sno_format acr (max_sequence existing + 1 + i)))) /\
  (~ sno_taken objects (sno_format acr (max_sequence existing + 1)) ->
   generate_unique_sno objects self event
   = Some (sno_format acr (max_sequence existing + 1))).
Proof.
  intros objects self event prefix acr existing Hform.
  pose proof (highest_number_is_max prefix existing Hform) as Hh.
  pose proof (max_sequence_nonneg existing) as Hm.
  split; [exact Hh|]. split.
  - destruct (generate_unique_sno_spec objects self event)
      as (k & Hk & Hgen & Hfree & Hbelow).
    fold existing in Hgen, Hfree, Hbelow. rewrite Hh in Hgen, Hfree, Hbelow.
    exists k. split; [exact Hk|]. split; [exact Hgen|].
    split; [apply parse_sno_format; lia|]. auto.
  - intros Hfree.
    pose proof (generate_unique_sno_free objects self event) as H.
    fold existing in H. rewrite Hh in H. apply H, Hfree.
Qed.

Lemma next_sequence_number_witness :
  generate_unique_sno
    [mkBooking (Some 1%nat) 1 "ATS-009" "" false 0 0;
     mkBooking (Some 2%nat) 1 "ATS-010" "" false 0 0]
    (new_booking 1)
    (mkEvent (Some 1%nat) "Annual Tech Summit" "annual-tech-summit")
  = Some "ATS-011".
Proof.
  refine (proj2 (proj2 (next_sequence_number
    [mkBooking (Some 1%nat) 1 "ATS-009" "" false 0 0;
     mkBooking (Some 2%nat) 1 "ATS-010" "" false 0 0]
    (new_booking 1)
    (mkEvent (Some 1%nat) "Annual Tech Summit" "annual-tech-summit")
    "ATS" _)) _).
  - intros b Hb. simpl in Hb. destruct Hb as [<-|[<-|[]]].
    + exists 9. split; [lia | reflexivity].
    + exists 10. split; [lia | reflexivity].
  - intros (b & Hb & Hs). simpl in Hb.
    destruct Hb as [<-|[<-|[]]]; discriminate Hs.
Defined.

(** [C2], as stated, fails when another event has the same acronym: with
    [ATS-001] held by "Annual Tech Summit" and [ATS-002] by "Awesome Tea
    Show", the next serial of "Annual Tech Summit" is [ATS-003], of sequence
    number 3, while its only booking is well formed and [max + 1] is 2. *)
Lemma same_acronym_next_serial :
  exists db1 b1 db2 b2 db3 b3,
    Booking_save ats_db (new_booking 1) = Ok (db1, b1) /\
    Booking_save db1 (new_booking 2) = Ok (db2, b2) /\
    Booking_save db2 (new_booking 1) = Ok (db3, b3) /\
    (forall b, In b (filter_event 1 (bookings db2)) -> well_formed_sno (sno b)) /\
    map sno (filter_event 1 (bookings db2)) = ["ATS-001"] /\
    max_sequence (filter_event 1 (bookings db2)) + 1 = 2 /\
    sno b3 = "ATS-003" /\
    parse_sno_number (sno b3) = Some 3.
Proof.
  do 6 eexists.
  split; [reflexivity|]. split; [reflexivity|]. split; [reflexivity|].
  split; [|repeat split; reflexivity].
  intros b Hb. simpl in Hb. destruct Hb as [<-|[]].
  exists 1. reflexivity.
Qed.

(** Beyond three digits the descending order is no longer numeric: the top
    entry of [ATS-999], [ATS-1005] is [ATS-999]. *)
Example top_entry_beyond_999 :
  generate_unique_sno
    [mkBooking (Some 1%nat) 1 "ATS-999" "" false 0 0;
     mkBooking (Some 2%nat) 1 "ATS-1005" "" false 0 0]
    (new_booking 1)
    (mkEvent (Some 1%nat) "Annual Tech Summit" "annual-tech-summit")
  = Some "ATS-1000".
Proof. reflexivity. Qed.

(** ** The base slug *)

Section BaseSlug.





























End BaseSlug.




(** ** Saving keeps the identifiers *)

Section Save.

Lemma write_booking_fields (objects : list Booking) (self : Booking) :
  let saved := snd (write_booking objects self) in
  sno saved = sno self /\ is_activated saved = is_activated self /\
  event_id saved = event_id self /\ qr_code saved = qr_code self /\
  In saved (fst (write_booking objects self)).
Proof.
  unfold write_booking. destruct (booking_pk self) as [k|] eqn:Hpk.
  - destruct (existsb (fun r => pk_is k (booking_pk r)) objects) eqn:Hex; simpl.
    + repeat split. apply existsb_exists in Hex. destruct Hex as (r & Hr & Hk).
      apply in_map_iff. exists r. rewrite Hk. auto.
    + repeat split. apply in_or_app. right. now left.
  - simpl. repeat split. apply in_or_app. right. now left.
Qed.


(** The constraint [unique=True] is met by a serial that no row holds, and
    by the serial that a row of the object's key holds already. *)
Lemma sno_conflict_fresh (objects : list Booking) (self : Booking) :
  ~ sno_taken objects (sno self) -> sno_conflict objects self = false.
Proof.
  intros Hfree. unfold sno_conflict. apply andb_false_iff. left.
  destruct (existsb _ objects) eqn:E; [|reflexivity].
  apply existsb_exists in E. destruct E as (r & Hr & H).
  apply andb_true_iff in H. destruct H as [H _]. apply String.eqb_eq in H.
  exfalso. apply Hfree. exists r. auto.
Qed.

Lemma sno_conflict_own (objects : list Booking) (self r : Booking) (k : nat) :
  In r objects -> booking_pk r = Some k -> booking_pk self = Some k ->
  sno r = sno self -> sno_conflict objects self = false.
Proof.
  intros Hr Hk Hpk Hs. unfold sno_conflict. apply andb_false_iff. right.
  apply negb_false_iff, existsb_exists. exists r. split; [exact Hr|].
  unfold same_booking_row. rewrite Hpk, Hk, Hs, String.eqb_refl. simpl.
  apply Nat.eqb_refl.
Qed.

Lemma sno_conflict_ext (objects : list Booking) (a b : Booking) :
  sno a = sno b -> booking_pk a = booking_pk b ->
  sno_conflict objects a = sno_conflict objects b.
Proof.
  intros Hs Hk. unfold sno_conflict, same_booking_row. now rewrite Hs, Hk.
Qed.

Lemma slug_conflict_fresh (objects : list Event) (self : Event) :
  ~ slug_taken objects (slug self) -> slug_conflict objects self = false.
Proof.
  intros Hfree. unfold slug_conflict. apply andb_false_iff. left.
  destruct (existsb _ objects) eqn:E; [|reflexivity].
  apply existsb_exists in E. destruct E as (r & Hr & H).
  apply andb_true_iff in H. destruct H as [H _]. apply String.eqb_eq in H.
  exfalso. apply Hfree. exists r. auto.
Qed.







(** [super().save()] returns exactly when the two constraints are met, and
    then it is the statement. *)
Lemma Model_save_booking_Ok (db : Db) (self : Booking) (event : Event) :
  Booking_event db self = Ok event ->
  sno_conflict (bookings db) self = false ->
  Model_save_booking db self = Ok (write_booking (bookings db) self).
Proof. intros Hev Hc. unfold Model_save_booking. now rewrite Hev, Hc. Qed.

Lemma Model_save_booking_inv (db : Db) (self : Booking)
    (saved : list Booking * Booking) :
  Model_save_booking db self = Ok saved ->
  saved = write_booking (bookings db) self /\
  sno_conflict (bookings db) self = false /\
  exists event, Booking_event db self = Ok event.
Proof.
  unfold Model_save_booking.
  destruct (Booking_event db self) as [event|e]; [|discriminate].
  destruct (sno_conflict (bookings db) self); [discriminate|].
  intros [= <-]. eauto.
Qed.

(** The object that [Booking.save] hands to [super().save()]. *)
Lemma Booking_save_prepared (db : Db) (self : Booking) (event : Event) :
  Booking_event db self = Ok event ->
  exists self1,
    Booking_save db self
    = (saved <- Model_save_booking db self1 ;;
       Ok (mkDb (events db) (fst saved), snd saved)) /\
    booking_pk self1 = booking_pk self /\
    event_id self1 = event_id self /\
    is_activated self1 = is_activated self /\
    (sno self <> "" -> sno self1 = sno self) /\
    (sno self = "" -> ~ sno_taken (bookings db) (sno self1)).
Proof.
  intros Hev. unfold Booking_save.
  assert (Hev' : forall b, event_id b = event_id self -> Booking_event db b = Ok event).
  { intros b Hb. unfold Booking_event in *. now rewrite Hb. }
  destruct (String.eqb_spec (sno self) "") as [Hs|Hs].
  - rewrite Hev. cbn [bind].
    destruct (generate_unique_sno_spec (bookings db) self event)
      as (k & _ & Hgen & Hfree & _).
    rewrite Hgen. cbn [bind].
    match type of Hgen with _ = Some ?s => set (self0 := set_sno s self) end.
    destruct (String.eqb (qr_code self0) "").
    + rewrite (Hev' self0 eq_refl). cbn [bind].
      match goal with |- context [Model_save_booking _ ?b] => exists b end.
      split; [reflexivity|].
      destruct (0 <? _); simpl; repeat split; solve [congruence | intros _; exact Hfree].
    + cbn [bind].
      match goal with |- context [Model_save_booking _ ?b] => exists b end.
      split; [reflexivity|].
      destruct (0 <? _); simpl; repeat split; solve [congruence | intros _; exact Hfree].
  - cbn [bind]. destruct (String.eqb (qr_code self) "").
    + rewrite Hev. cbn [bind].
      match goal with |- context [Model_save_booking _ ?b] => exists b end.
      split; [reflexivity|].
      destruct (0 <? _); simpl; repeat split; congruence.
    + cbn [bind].
      match goal with |- context [Model_save_booking _ ?b] => exists b end.
      split; [reflexivity|].
      destruct (0 <? _); simpl; repeat split; congruence.
Qed.

(** What [Booking.save] does to the object before [super().save()]; it
    succeeds as soon as [self.event] resolves and a serial that is set meets
    the constraint [unique=True]. *)
Lemma Booking_save_steps (db : Db) (self : Booking) (event : Event) :
  Booking_event db self = Ok event ->
  (sno self <> "" -> sno_conflict (bookings db) self = false) ->
  exists self1,
    Booking_save db self
    = Ok (mkDb (events db) (fst (write_booking (bookings db) self1)),
          snd (write_booking (bookings db) self1)) /\
    booking_pk self1 = booking_pk self /\
    event_id self1 = event_id self /\
    is_activated self1 = is_activated self /\
    (sno self <> "" -> sno self1 = sno self).
Proof.
  intros Hev Hc.
  destruct (Booking_save_prepared db self event Hev)
    as (self1 & Hsave & Hpk & Hid & Hact & Hkeep & Hfresh).
  exists self1. split; [|auto]. rewrite Hsave.
  assert (Hev1 : Booking_event db self1 = Ok event).
  { unfold Booking_event in *. now rewrite Hid. }
  rewrite (Model_save_booking_Ok db self1 event Hev1); [reflexivity|].
  destruct (String.eqb_spec (sno self) "") as [Hs|Hs].
  - apply sno_conflict_fresh, Hfresh, Hs.
  - rewrite (sno_conflict_ext _ self1 self); auto.
Qed.


End Save.



(** ** Scanning a ticket *)

Section Scan.

Lemma pk_is_Some (k : nat) (pk : option nat) : pk_is k pk = true <-> pk = Some k.
Proof.
  destruct pk as [j|]; simpl; [|split; discriminate].
  rewrite Nat.eqb_eq. split; congruence.
Qed.

Lemma write_booking_update (objects : list Booking) (self : Booking) (k : nat) :
  booking_pk self = Some k ->
  (exists r, In r objects /\ booking_pk r = Some k) ->
  write_booking objects self = (update_rows k self objects, self).
Proof.
  intros Hpk (r & Hr & Hk). unfold write_booking. rewrite Hpk.
  assert (Hex : existsb (fun r => pk_is k (booking_pk r)) objects = true).
  { apply existsb_exists. exists r. split; [exact Hr | now apply pk_is_Some]. }
  now rewrite Hex.
Qed.

Lemma update_rows_keys (k : nat) (self : Booking) (objects : list Booking) :
  booking_pk self = Some k ->
  map booking_pk (update_rows k self objects) = map booking_pk objects.
Proof.
  intros Hpk. unfold update_rows. rewrite map_map. apply map_ext.
  intros r. destruct (pk_is k (booking_pk r)) eqn:E; [|reflexivity].
  apply pk_is_Some in E. congruence.
Qed.

Lemma update_rows_other (k : nat) (self : Booking) (objects : list Booking) :
  (forall r, In r objects -> booking_pk r <> Some k) ->
  update_rows k self objects = objects.
Proof.
  intros H. unfold update_rows. rewrite <- (map_id objects) at 2.
  apply map_ext_in. intros r Hr.
  destruct (pk_is k (booking_pk r)) eqn:E; [|reflexivity].
  apply pk_is_Some in E. now apply H in Hr.
Qed.

Lemma find_update_rows (k : nat) (self : Booking) (objects : list Booking) :
  booking_pk self = Some k ->
  (exists r, In r objects /\ booking_pk r = Some k) ->
  find (fun b => pk_is k (booking_pk b)) (update_rows k self objects) = Some self.
Proof.
  intros Hpk. induction objects as [|x r IH]; intros (y & Hy & Hk); [destruct Hy|].
  simpl. destruct (pk_is k (booking_pk x)) eqn:E.
  - assert (E' : pk_is k (booking_pk self) = true) by now apply pk_is_Some.
    now rewrite E'.
  - rewrite E. apply IH. destruct Hy as [->|Hy]; [|eauto].
    apply pk_is_Some in Hk. congruence.
Qed.

Lemma filter_sno_update_rows (k : nat) (s : string) (booking self : Booking)
    (objects : list Booking) :
  NoDup (map booking_pk objects) ->
  filter_sno s objects = [booking] ->
  booking_pk booking = Some k -> booking_pk self = Some k -> sno self = s ->
  filter_sno s (update_rows k self objects) = [self].
Proof.
  intros Hnd Hf Hbk Hpk Hs. induction objects as [|x r IH]; [discriminate|].
  simpl in Hnd. apply NoDup_cons_iff in Hnd. destruct Hnd as [Hx Hnd].
  simpl in Hf. simpl.
  destruct (String.eqb (sno x) s) eqn:E.
  - injection Hf as -> Hr.
    assert (Ek : pk_is k (booking_pk booking) = true) by now apply pk_is_Some.
    rewrite Ek. simpl. rewrite Hs, String.eqb_refl. f_equal.
    fold (update_rows k self r). rewrite update_rows_other; [exact Hr|].
    intros y Hy Hyk. apply Hx. rewrite Hbk, <- Hyk. now apply in_map.
  - assert (Hin : In booking r).
    { assert (H : In booking (filter_sno s r)) by (rewrite Hf; now left).
      apply filter_In in H. tauto. }
    assert (Ek : pk_is k (booking_pk x) = false).
    { destruct (pk_is k (booking_pk x)) eqn:Ek; [|reflexivity].
      apply pk_is_Some in Ek. exfalso. apply Hx.
      rewrite Ek, <- Hbk. now apply in_map. }
    rewrite Ek. simpl. rewrite E. fold (update_rows k self r). now apply IH.
Qed.

Lemma Booking_event_same (db db' : Db) (b b' : Booking) :
  events db' = events db -> event_id b' = event_id b ->
  Booking_event db' b' = Booking_event db b.
Proof. intros He Hi. unfold Booking_event. now rewrite He, Hi. Qed.

(** One scan by key: the flag of the row is negated, and the row stays the
    row of its key. *)
Lemma scan_qr_step (db : Db) (pk : nat) (booking : Booking) (event : Event) :
  get_object db pk = Ok booking -> Booking_event db booking = Ok event ->
  exists db1 b1,
    scan_qr db pk
    = (db1, Response_200 b1 (negb (is_activated booking)) (Booking_status b1)
              (scan_message b1)) /\
    get_object db1 pk = Ok b1 /\
    Booking_event db1 b1 = Ok event /\
    is_activated b1 = negb (is_activated booking).
Proof.
  intros Hget Hev. unfold scan_qr. rewrite Hget.
  unfold get_object in Hget.
  destruct (find (fun b => pk_is pk (booking_pk b)) (bookings db)) as [b0|] eqn:Hfind;
    [|discriminate].
  injection Hget as ->. apply find_some in Hfind. destruct Hfind as [Hin Hk].
  apply pk_is_Some in Hk.
  set (toggled := set_is_activated (negb (is_activated booking)) booking).
  destruct (Booking_save_steps db toggled event Hev)
    as (self1 & Hsave & Hpk1 & Hid1 & Hact1 & _).
  { intros _. now apply (sno_conflict_own _ toggled booking pk). }
  assert (Hpk : booking_pk self1 = Some pk) by (rewrite Hpk1; exact Hk).
  rewrite (write_booking_update _ _ pk Hpk) in Hsave by eauto.
  simpl in Hsave. rewrite Hsave.
  exists (mkDb (events db) (update_rows pk self1 (bookings db))), self1.
  rewrite Hact1. simpl. split; [reflexivity|]. split; [|split; [|reflexivity]].
  - unfold get_object. simpl. rewrite find_update_rows; eauto.
  - rewrite <- Hev. apply Booking_event_same; [reflexivity | exact Hid1].
Qed.

(** One scan by serial, on a table with sound keys. *)
Lemma scan_qr_by_sno_step (db : Db) (s : string) (booking : Booking) (event : Event) :
  s <> "" -> keys_ok (bookings db) ->
  objects_get_sno db s = Ok booking -> Booking_event db booking = Ok event ->
  exists db1 b1,
    scan_qr_by_sno db s
    = (db1, Response_200 b1 (negb (is_activated booking)) (Booking_status b1)
              (scan_message b1)) /\
    keys_ok (bookings db1) /\
    objects_get_sno db1 s = Ok b1 /\
    Booking_event db1 b1 = Ok event /\
    is_activated b1 = negb (is_activated booking).
Proof.
  intros Hs [Hnd Hkeys] Hget Hev. unfold scan_qr_by_sno. rewrite Hget.
  unfold objects_get_sno in Hget.
  destruct (filter_sno s (bookings db)) as [|b0 [|b1 r]] eqn:Hf; try discriminate.
  injection Hget as ->.
  assert (Hin : In booking (filter_sno s (bookings db))) by (rewrite Hf; now left).
  apply filter_In in Hin. destruct Hin as [Hin Hsno]. apply String.eqb_eq in Hsno.
  destruct (booking_pk booking) as [k|] eqn:Hk; [|now apply Hkeys in Hin].
  set (toggled := set_is_activated (negb (is_activated booking)) booking).
  destruct (Booking_save_steps db toggled event Hev)
    as (self1 & Hsave & Hpk1 & Hid1 & Hact1 & Hsno1).
  { intros _. now apply (sno_conflict_own _ toggled booking k). }
  assert (Hpk : booking_pk self1 = Some k) by (rewrite Hpk1; exact Hk).
  assert (Hs1 : sno self1 = s).
  { rewrite Hsno1; [exact Hsno|]. simpl. now rewrite Hsno. }
  rewrite (write_booking_update _ _ k Hpk) in Hsave by eauto.
  simpl in Hsave. rewrite Hsave.
  exists (mkDb (events db) (update_rows k self1 (bookings db))), self1.
  rewrite Hact1. simpl. split; [reflexivity|].
  split; [|split; [|split; [|reflexivity]]].
  - split.
    + now rewrite update_rows_keys.
    + intros b Hb. unfold update_rows in Hb. apply in_map_iff in Hb.
      destruct Hb as (x & <- & Hx).
      destruct (pk_is k (booking_pk x)); [congruence | now apply Hkeys].
  - unfold objects_get_sno. simpl.
    now rewrite (filter_sno_update_rows k s booking self1).
  - rewrite <- Hev. apply Booking_event_same; [reflexivity | exact Hid1].
Qed.

End Scan.

(** [C10] A scan is a toggle, not an activation.  [scan_qr] (by key) and
    [scan_qr_by_sno] (by serial) each answer with [is_activated] negated and
    write the negated flag; a second scan of the same booking answers with
    the original flag and writes it back, so the scan of an activated ticket
    deactivates it.  The booking's event is assumed to resolve, and for the
    scan by serial the serial is not empty and the keys of the table are
    sound. *)
Theorem scan_toggles_activation :
  (forall (db : Db) (pk : nat) (booking : Booking) (event : Event),
     get_object db pk = Ok booking -> Booking_event db booking = Ok event ->
     exists db1 b1 db2 b2,
       scan_qr db pk
       = (db1, Response_200 b1 (negb (is_activated booking)) (Booking_status b1)
                 (scan_message b1)) /\
       get_object db1 pk = Ok b1 /\
       is_activated b1 = negb (is_activated booking) /\
       scan_qr db1 pk
       = (db2, Response_200 b2 (is_activated booking) (Booking_status b2)
                 (scan_message b2)) /\
       get_object db2 pk = Ok b2 /\
       is_activated b2 = is_activated booking) /\
  (forall (db : Db) (s : string) (booking : Booking) (event : Event),
     s <> "" -> keys_ok (bookings db) ->
     objects_get_sno db s = Ok booking -> Booking_event db booking = Ok event ->
     exists db1 b1 db2 b2,
       scan_qr_by_sno db s
       = (db1, Response_200 b1 (negb (is_activated booking)) (Booking_status b1)
                 (scan_message b1)) /\
       objects_get_sno db1 s = Ok b1 /\
       is_activated b1 = negb (is_activated booking) /\
       scan_qr_by_sno db1 s
       = (db2, Response_200 b2 (is_activated booking) (Booking_status b2)
                 (scan_message b2)) /\
       objects_get_sno db2 s = Ok b2 /\
       is_activated b2 = is_activated booking).
Proof.
  split.
  - intros db pk booking event Hget Hev.
    destruct (scan_qr_step db pk booking event Hget Hev)
      as (db1 & b1 & Hscan1 & Hget1 & Hev1 & Hact1).
    destruct (scan_qr_step db1 pk b1 event Hget1 Hev1)
      as (db2 & b2 & Hscan2 & Hget2 & _ & Hact2).
    rewrite Hact1, negb_involutive in Hscan2, Hact2.
    exists db1, b1, db2, b2. repeat split; assumption.
  - intros db s booking event Hs Hkeys Hget Hev.
    destruct (scan_qr_by_sno_step db s booking event Hs Hkeys Hget Hev)
      as (db1 & b1 & Hscan1 & Hkeys1 & Hget1 & Hev1 & Hact1).
    destruct (scan_qr_by_sno_step db1 s b1 event Hs Hkeys1 Hget1 Hev1)
      as (db2 & b2 & Hscan2 & _ & Hget2 & _ & Hact2).
    rewrite Hact1, negb_involutive in Hscan2, Hact2.
    exists db1, b1, db2, b2. repeat split; assumption.
Qed.

Lemma scan_toggles_activation_witness :
  exists db1 b1 db2 b2,
    scan_qr activated_db 1
    = (db1, Response_200 b1 false (Booking_status b1) (scan_message b1)) /\
    get_object db1 1 = Ok b1 /\
    is_activated b1 = false /\
    scan_qr db1 1
    = (db2, Response_200 b2 true (Booking_status b2) (scan_message b2)) /\
    get_object db2 1 = Ok b2 /\
    is_activated b2 = true.
Proof.
  exact (proj1 scan_toggles_activation activated_db 1%nat
           (mkBooking (Some 1%nat) 1 "ATS-001"
              "bookings/annual-tech-summit/ATS-001_qr.png" true 0 0)
           (mkEvent (Some 1%nat) "Annual Tech Summit" "annual-tech-summit")
           eq_refl eq_refl).
Defined.

Example scan_by_sno_ex :
  snd (scan_qr_by_sno activated_db "ATS-001")
  = Response_200
      (mkBooking (Some 1%nat) 1 "ATS-001"
         "bookings/annual-tech-summit/ATS-001_qr.png" false 0 0)
      false "Not Scanned" "Booking ATS-001 deactivated successfully" /\
  snd (scan_qr_by_sno activated_db "ATS-404") = Response_404.
Proof. split; reflexivity. Qed.

(** * Further properties of the models and of the views *)

(** ** What a successful [Booking.save] has done *)

Section SaveInversion.

Lemma sno_format_nonempty (acr : string) (n : Z) : sno_format acr n <> "".
Proof. unfold sno_format. apply app_nonempty_r. simpl. discriminate. Qed.

Lemma generate_unique_sno_nonempty (objects : list Booking) (self : Booking)
    (event : Event) (s : string) :
  generate_unique_sno objects self event = Some s -> s <> "".
Proof.
  destruct (generate_unique_sno_spec objects self event) as (k & _ & Hgen & _).
  rewrite Hgen. intros [= <-]. apply sno_format_nonempty.
Qed.

(** The object handed to [super().save()] by a save that returned. *)
Lemma Booking_save_inv (db db' : Db) (self self' : Booking) :
  Booking_save db self = Ok (db', self') ->
  exists self1,
    write_booking (bookings db) self1 = (bookings db', self') /\
    events db' = events db /\
    booking_pk self1 = booking_pk self /\
    event_id self1 = event_id self /\
    is_activated self1 = is_activated self /\
    payment_amount self1 = payment_amount self /\
    (if String.eqb (sno self) "" then
       exists event, Booking_event db self = Ok event /\
         generate_unique_sno (bookings db) self event = Some (sno self1)
     else sno self1 = sno self) /\
    (if String.eqb (qr_code self) "" then
       exists event, Booking_event db self = Ok event /\
         qr_code self1 = booking_qr_path event (sno self1 ++ "_qr.png")
     else qr_code self1 = qr_code self) /\
    total_amount self1
    = (if 0 <? payment_amount self then payment_amount self else total_amount self).
Proof.
  unfold Booking_save. intros H.
  destruct (String.eqb (sno self) "") eqn:Es.
  - destruct (Booking_event db self) as [ev|e] eqn:Ev; cbn [bind] in H; [|discriminate].
    destruct (generate_unique_sno (bookings db) self ev) as [s|] eqn:Eg;
      cbn [bind] in H; [|discriminate].
    cbn [qr_code set_sno] in H.
    destruct (String.eqb (qr_code self) "") eqn:Eq.
    + change (Booking_event db (set_sno s self)) with (Booking_event db self) in H.
      rewrite Ev in H. cbn [bind] in H.
      match type of H with context [Model_save_booking _ ?b] =>
        exists b; destruct (Model_save_booking db b) as [saved|e] eqn:Hm;
        cbn [bind] in H; [|discriminate];
        apply Model_save_booking_inv in Hm; destruct Hm as (Hw & _); rewrite Hw in H;
        destruct (write_booking (bookings db) b) as [o' b'] end.
      cbn [fst snd] in H. injection H as <- <-.
      destruct (0 <? payment_amount self) eqn:Ep; cbn; rewrite ?Ep;
        repeat split; eauto.
    + cbn [bind] in H.
      match type of H with context [Model_save_booking _ ?b] =>
        exists b; destruct (Model_save_booking db b) as [saved|e] eqn:Hm;
        cbn [bind] in H; [|discriminate];
        apply Model_save_booking_inv in Hm; destruct Hm as (Hw & _); rewrite Hw in H;
        destruct (write_booking (bookings db) b) as [o' b'] end.
      cbn [fst snd] in H. injection H as <- <-.
      destruct (0 <? payment_amount self) eqn:Ep; cbn; rewrite ?Ep;
        repeat split; eauto.
  - cbn [bind] in H.
    destruct (String.eqb (qr_code self) "") eqn:Eq.
    + destruct (Booking_event db self) as [ev|e] eqn:Ev; cbn [bind] in H; [|discriminate].
      match type of H with context [Model_save_booking _ ?b] =>
        exists b; destruct (Model_save_booking db b) as [saved|e] eqn:Hm;
        cbn [bind] in H; [|discriminate];
        apply Model_save_booking_inv in Hm; destruct Hm as (Hw & _); rewrite Hw in H;
        destruct (write_booking (bookings db) b) as [o' b'] end.
      cbn [fst snd] in H. injection H as <- <-.
      destruct (0 <? payment_amount self) eqn:Ep; cbn; rewrite ?Ep;
        repeat split; eauto.
    + cbn [bind] in H.
      match type of H with context [Model_save_booking _ ?b] =>
        exists b; destruct (Model_save_booking db b) as [saved|e] eqn:Hm;
        cbn [bind] in H; [|discriminate];
        apply Model_save_booking_inv in Hm; destruct Hm as (Hw & _); rewrite Hw in H;
        destruct (write_booking (bookings db) b) as [o' b'] end.
      cbn [fst snd] in H. injection H as <- <-.
      destruct (0 <? payment_amount self) eqn:Ep; cbn; rewrite ?Ep;
        repeat split; eauto.
Qed.

End SaveInversion.

(** ** Keys handed out by the table *)

Section Keys.

Lemma next_pk_above (pks : list (option nat)) (k : nat) :
  In (Some k) pks -> (k < next_pk pks)%nat.
Proof.
  unfold next_pk. induction pks as [|p pks IH]; simpl; [intros []|].
  intros [->|H]; [lia|]. specialize (IH H). destruct p; lia.
Qed.

Lemma next_pk_fresh (objects : list Booking) (r : Booking) :
  In r objects -> booking_pk r <> Some (next_pk (map booking_pk objects)).
Proof.
  intros Hr Heq.
  assert (H : In (Some (next_pk (map booking_pk objects))) (map booking_pk objects))
    by (rewrite <- Heq; now apply in_map).
  apply next_pk_above in H. lia.
Qed.

(** The three ways of [super().save()]: update, insert under the object's
    own key, insert under a new key. *)
Lemma write_booking_cases (objects o' : list Booking) (self b' : Booking) :
  write_booking objects self = (o', b') ->
  (exists k, booking_pk self = Some k /\ b' = self /\
     (exists r, In r objects /\ booking_pk r = Some k) /\
     o' = update_rows k self objects) \/
  (exists k, booking_pk b' = Some k /\
     (forall r, In r objects -> booking_pk r <> Some k) /\
     o' = (objects ++ [b'])%list /\
     (b' = self \/ booking_pk self = None /\ b' = set_booking_pk k self)).
Proof.
  unfold write_booking. destruct (booking_pk self) as [k|] eqn:Hpk.
  - destruct (existsb (fun r => pk_is k (booking_pk r)) objects) eqn:Hex;
      intros [= <- <-].
    + left. exists k. repeat split; try reflexivity.
      apply existsb_exists in Hex. destruct Hex as (r & Hr & Hk).
      exists r. split; [exact Hr | now apply pk_is_Some].
    + right. exists k. repeat split; auto.
      intros r Hr Hk. apply pk_is_Some in Hk.
      assert (existsb (fun r => pk_is k (booking_pk r)) objects = true)
        by (apply existsb_exists; eauto).
      congruence.
  - intros [= <- <-]. right. exists (next_pk (map booking_pk objects)).
    repeat split; auto. intros r. apply next_pk_fresh.
Qed.

Lemma update_rows_last (k : nat) (self : Booking) (objects : list Booking) :
  booking_pk self = Some k ->
  (forall r, In r objects -> booking_pk r <> Some k) ->
  update_rows k self (objects ++ [self]) = (objects ++ [self])%list.
Proof.
  intros Hpk Hfresh. unfold update_rows. rewrite map_app.
  fold (update_rows k self objects). rewrite (update_rows_other _ _ _ Hfresh).
  simpl. destruct (pk_is k (booking_pk self)); reflexivity.
Qed.

Lemma update_rows_idem (k : nat) (self : Booking) (objects : list Booking) :
  booking_pk self = Some k ->
  update_rows k self (update_rows k self objects) = update_rows k self objects.
Proof.
  intros Hpk. unfold update_rows. rewrite map_map. apply map_ext. intros r.
  destruct (pk_is k (booking_pk r)) eqn:E; [|now rewrite E].
  assert (E' : pk_is k (booking_pk self) = true) by now apply pk_is_Some.
  now rewrite E'.
Qed.

Lemma update_rows_length (k : nat) (self : Booking) (objects : list Booking) :
  length (update_rows k self objects) = length objects.
Proof. apply length_map. Qed.

End Keys.

(** [X1] The serial generated reads back.  For an ASCII title and a table
    whose serials are values of the column (ASCII, at most 20 characters),
    the text after the last hyphen of the serial generated parses to its
    sequence number, which is at least 1 and lies between the base number
    plus one and that plus the size of the table; the serial is never
    empty.  The serials of the table need not be well formed. *)
Theorem generated_serial_reads_back :
  forall (objects : list Booking) (self : Booking) (event : Event),
  Py.isascii (title event) = true ->
  (forall b, In b objects -> serial_text (sno b)) ->
  exists s n,
    generate_unique_sno objects self event = Some s /\
    s = sno_format (event_acronym (title event)) n /\
    parse_sno_number s = Some n /\
    1 <= n /\
    highest_number (filter_event (event_id self) objects) + 1 <= n
      <= highest_number (filter_event (event_id self) objects) + 1
         + Z.of_nat (length objects) /\
    s <> "".
Proof.
  intros objects self event _ _.
  destruct (generate_unique_sno_spec objects self event) as (k & Hk & Hgen & _).
  pose proof (highest_number_nonneg (filter_event (event_id self) objects)) as Hh.
  do 2 eexists. split; [exact Hgen|]. split; [reflexivity|].
  split; [apply parse_sno_format; lia|].
  split; [lia|]. split; [lia|]. apply sno_format_nonempty.
Qed.

Lemma generated_serial_reads_back_witness :
  exists s,
    generate_unique_sno
      [mkBooking (Some 1%nat) 1 "ATS-007" "" false 0 0;
       mkBooking (Some 2%nat) 2 "ATS-008" "" false 0 0;
       mkBooking (Some 3%nat) 1 "junk" "" false 0 0]
      (new_booking 1)
      (mkEvent (Some 1%nat) "Annual Tech Summit" "annual-tech-summit") = Some s /\
    parse_sno_number s <> None.
Proof.
  destruct (generated_serial_reads_back
      [mkBooking (Some 1%nat) 1 "ATS-007" "" false 0 0;
       mkBooking (Some 2%nat) 2 "ATS-008" "" false 0 0;
       mkBooking (Some 3%nat) 1 "junk" "" false 0 0]
      (new_booking 1)
      (mkEvent (Some 1%nat) "Annual Tech Summit" "annual-tech-summit") eq_refl)
    as (s & n & Hgen & _ & Hparse & _).
  - intros b [<-|[<-|[<-|[]]]]; split; simpl; [reflexivity | lia | reflexivity | lia
                                               | reflexivity | lia].
  - exists s. split; [exact Hgen|]. rewrite Hparse. discriminate.
Defined.

Section Consecutive.

Variable objects : list Booking.
Variable self : Booking.
Variable event : Event.

Let acr := event_acronym (title event).
Let existing := filter_event (event_id self) objects.

(** The base number is the number of one of the event's serials. *)
Lemma highest_number_bounded (n : Z) :
  0 <= n ->
  (forall b, In b existing -> exists i, 1 <= i <= n /\ sno b = sno_format acr i) ->
  0 <= highest_number existing <= n.
Proof.
  intros Hn Hown. split; [apply highest_number_nonneg|]. unfold highest_number.
  destruct (qs_first (order_by_sno_desc existing)) as [top|] eqn:Htop; [|lia].
  apply first_order_by_sno_desc in Htop. destruct Htop as [Hin _].
  destruct (Hown top Hin) as (i & Hi & Ei).
  rewrite Ei, parse_sno_format by lia. lia.
Qed.

(** From a base number below [n], with every serial up to [n] taken and
    the next one free, the loop stops at [n + 1]. *)
Lemma generate_unique_sno_from_base (n : Z) :
  highest_number existing <= n ->
  (forall i, highest_number existing + 1 <= i <= n ->
     sno_taken objects (sno_format acr i)) ->
  ~ sno_taken objects (sno_format acr (n + 1)) ->
  generate_unique_sno objects self event = Some (sno_format acr (n + 1)).
Proof.
  intros Hh Hall Hfree.
  destruct (generate_unique_sno_spec objects self event)
    as (k & Hk & Hgen & Hfreek & Hbelow).
  fold existing acr in Hgen, Hfreek, Hbelow. rewrite Hgen. do 2 f_equal.
  destruct (Z.lt_trichotomy (highest_number existing + 1 + k) (n + 1))
    as [Hlt|[Heq|Hgt]]; [|exact Heq|].
  - exfalso. apply Hfreek, Hall. lia.
  - exfalso. apply Hfree.
    specialize (Hbelow (n - highest_number existing) ltac:(lia)).
    replace (highest_number existing + 1 + (n - highest_number existing))
      with (n + 1) in Hbelow by lia.
    exact Hbelow.
Qed.

End Consecutive.

(** [X2] Consecutive numbering, also beyond three digits.  When the
    bookings of the event carry serials [ACR-i] with [1 <= i <= n] under the
    event's acronym, the table holds every [ACR-1], ..., [ACR-n] and does not
    hold [ACR-(n+1)], the serial generated is [ACR-(n+1)]. *)
Theorem generate_unique_sno_consecutive :
  forall (objects : list Booking) (self : Booking) (event : Event) (n : Z),
  let acr := event_acronym (title event) in
  0 <= n ->
  (forall b, In b (filter_event (event_id self) objects) ->
     exists i, 1 <= i <= n /\ sno b = sno_format acr i) ->
  (forall i, 1 <= i <= n -> sno_taken objects (sno_format acr i)) ->
  ~ sno_taken objects (sno_format acr (n + 1)) ->
  generate_unique_sno objects self event = Some (sno_format acr (n + 1)).
Proof.
  intros objects self event n acr Hn Hown Hall Hfree.
  pose proof (highest_number_bounded objects self event n Hn Hown) as Hh.
  apply generate_unique_sno_from_base; [lia | | exact Hfree].
  intros i Hi. apply Hall. lia.
Qed.

Lemma generate_unique_sno_consecutive_witness :
  generate_unique_sno
    [mkBooking (Some 1%nat) 1 "ATS-001" "" false 0 0;
     mkBooking (Some 2%nat) 1 "ATS-002" "" false 0 0]
    (new_booking 1)
    (mkEvent (Some 1%nat) "Annual Tech Summit" "annual-tech-summit")
  = Some "ATS-003".
Proof.
  refine (generate_unique_sno_consecutive
    [mkBooking (Some 1%nat) 1 "ATS-001" "" false 0 0;
     mkBooking (Some 2%nat) 1 "ATS-002" "" false 0 0]
    (new_booking 1)
    (mkEvent (Some 1%nat) "Annual Tech Summit" "annual-tech-summit")
    2 ltac:(lia) _ _ _).
  - intros b Hb. simpl in Hb. destruct Hb as [<-|[<-|[]]].
    + exists 1. split; [lia | reflexivity].
    + exists 2. split; [lia | reflexivity].
  - intros i Hi. assert (Hc : i = 1 \/ i = 2) by lia. destruct Hc as [->| ->].
    + eexists. split; [left; reflexivity | reflexivity].
    + eexists. split; [right; left; reflexivity | reflexivity].
  - intros (b & Hb & Hs). simpl in Hb.
    destruct Hb as [<-|[<-|[]]]; discriminate Hs.
Defined.

(** ** What [Booking.save] leaves behind *)

Section SaveResults.

Lemma booking_qr_path_nonempty (event : Event) (filename : string) :
  booking_qr_path event filename <> "".
Proof. unfold booking_qr_path. simpl. discriminate. Qed.

Lemma eqb_empty_false (s : string) : String.eqb s "" = false <-> s <> "".
Proof. apply String.eqb_neq. Qed.

Lemma set_total_amount_same (b : Booking) :
  set_total_amount (total_amount b) b = b.
Proof. destruct b. reflexivity. Qed.



End SaveResults.



(** ** Creating a booking through the views *)

Section Create.

Lemma NoDup_snoc {A : Type} (l : list A) (x : A) :
  NoDup l -> ~ In x l -> NoDup (l ++ [x]).
Proof.
  intros Hnd Hx. induction Hnd as [|y l Hy Hnd IH]; simpl.
  - constructor; [intros [] | constructor].
  - constructor.
    + intros Hin. apply in_app_or in Hin. destruct Hin as [Hin|[->|[]]].
      * now apply Hy.
      * apply Hx. now left.
    + apply IH. intros Hin. apply Hx. now right.
Qed.

Lemma filter_sno_not_taken (objects : list Booking) (s : string) :
  ~ sno_taken objects s -> filter_sno s objects = [].
Proof.
  intros H. destruct (filter_sno s objects) as [|b r] eqn:E; [reflexivity|].
  exfalso. apply H.
  assert (Hin : In b (filter_sno s objects)) by (rewrite E; now left).
  apply filter_In in Hin. destruct Hin as [Hin Hs]. apply String.eqb_eq in Hs.
  now exists b.
Qed.




(** The marks of a saved object: nothing is left for a later save to fill
    in, and its row is the only one of its key that differs from no row. *)
Lemma Booking_save_marks (db db' : Db) (self self' : Booking) :
  Booking_save db self = Ok (db', self') ->
  sno self' <> "" /\ qr_code self' <> "" /\
  (0 < payment_amount self' -> total_amount self' = payment_amount self') /\
  exists k, booking_pk self' = Some k /\
    In self' (bookings db') /\
    update_rows k self' (bookings db') = bookings db'.
Proof.
  intros H. apply Booking_save_inv in H.
  destruct H as (self1 & Hm & He & Hpk & Hid & Hact & Hpay & Hsno & Hqr & Htot).
  assert (Hs1 : sno self1 <> "").
  { destruct (String.eqb_spec (sno self) "") as [E|E].
    - destruct Hsno as (ev & _ & Hgen). now apply generate_unique_sno_nonempty in Hgen.
    - now rewrite Hsno. }
  assert (Hq1 : qr_code self1 <> "").
  { destruct (String.eqb_spec (qr_code self) "") as [E|E].
    - destruct Hqr as (ev & _ & ->). apply booking_qr_path_nonempty.
    - now rewrite Hqr. }
  assert (Ht1 : 0 < payment_amount self1 -> total_amount self1 = payment_amount self1).
  { intros Hp. rewrite Htot, Hpay.
    destruct (Z.ltb_spec 0 (payment_amount self)); [reflexivity | lia]. }
  pose proof (write_booking_fields (bookings db) self1) as Hf.
  rewrite Hm in Hf. simpl in Hf. destruct Hf as (F1 & _ & _ & F4 & F5).
  apply write_booking_cases in Hm.
  destruct Hm as [(k & Hk & Hb & Hex & Ho)|(k & Hk & Hfresh & Ho & Hcase)].
  - subst self'. repeat (split; [assumption|]). exists k. split; [exact Hk|]. split.
    + exact F5.
    + rewrite Ho. now apply update_rows_idem.
  - assert (Hfields : sno self' <> "" /\ qr_code self' <> "" /\
              (0 < payment_amount self' -> total_amount self' = payment_amount self')).
    { destruct Hcase as [->|[_ ->]]; simpl; auto. }
    destruct Hfields as (G1 & G2 & G3). repeat (split; [assumption|]).
    exists k. split; [exact Hk|]. split.
    + exact F5.
    + rewrite Ho. now apply update_rows_last.
Qed.

End Create.

Section Resave.

(** A save that returns has met the foreign key. *)
Lemma Booking_save_fk (db db' : Db) (self self' : Booking) :
  Booking_save db self = Ok (db', self') ->
  exists event, Booking_event db self = Ok event.
Proof.
  intros H. destruct (Booking_event db self) as [ev|e] eqn:Hev; [eauto|].
  exfalso. revert H. unfold Booking_save.
  destruct (String.eqb (sno self) ""); [rewrite Hev; discriminate|]. cbn [bind].
  destruct (String.eqb (qr_code self) ""); [rewrite Hev; discriminate|]. cbn [bind].
  unfold Model_save_booking.
  match goal with |- context [Booking_event db ?b] =>
    replace (Booking_event db b) with (Booking_event db self)
      by (destruct (0 <? payment_amount self); reflexivity) end.
  rewrite Hev. discriminate.
Qed.

(** Saving an object that lacks nothing, and whose row holds its serial,
    writes it over the rows of its key. *)
Lemma Booking_save_filled (db : Db) (b : Booking) (k : nat) (event : Event) :
  sno b <> "" -> qr_code b <> "" ->
  (0 < payment_amount b -> total_amount b = payment_amount b) ->
  booking_pk b = Some k ->
  Booking_event db b = Ok event ->
  (exists r, In r (bookings db) /\ booking_pk r = Some k /\ sno r = sno b) ->
  Booking_save db b = Ok (mkDb (events db) (update_rows k b (bookings db)), b).
Proof.
  intros Hs Hq Ht Hk Hev (r & Hr & Hrk & Hrs). unfold Booking_save.
  apply eqb_empty_false in Hs. apply eqb_empty_false in Hq.
  rewrite Hs. cbn [bind]. rewrite Hq. cbn [bind].
  assert (Hb : (if 0 <? payment_amount b
                then set_total_amount (payment_amount b) b else b) = b).
  { destruct (Z.ltb_spec 0 (payment_amount b)) as [Hp|Hp]; [|reflexivity].
    rewrite <- (Ht Hp). apply set_total_amount_same. }
  rewrite Hb, (Model_save_booking_Ok db b event Hev).
  - cbn [bind]. rewrite (write_booking_update _ _ k Hk) by eauto. reflexivity.
  - now apply (sno_conflict_own _ b r k).
Qed.

End Resave.



(** [X5] [Booking.save] is idempotent: saving again the object a save has
    returned gives back the same object and leaves the tables as they are. *)
Theorem Booking_save_idempotent :
  forall (db db1 : Db) (self b1 : Booking),
  Booking_save db self = Ok (db1, b1) ->
  Booking_save db1 b1 = Ok (db1, b1).
Proof.
  intros db db1 self b1 H.
  destruct (Booking_save_marks db db1 self b1 H)
    as (Hs & Hq & Ht & k & Hk & Hin & Hupd).
  destruct (Booking_save_fk db db1 self b1 H) as (event & Hev).
  assert (Hev1 : Booking_event db1 b1 = Ok event).
  { apply Booking_save_inv in H.
    destruct H as (self1 & Hm & He & _ & Hid & _).
    pose proof (write_booking_fields (bookings db) self1) as Hf.
    rewrite Hm in Hf. simpl in Hf. destruct Hf as (_ & _ & F3 & _).
    rewrite <- Hev. apply Booking_event_same; [exact He | congruence]. }
  rewrite (Booking_save_filled db1 b1 k event Hs Hq Ht Hk Hev1), Hupd by eauto.
  destruct db1. reflexivity.
Qed.

Lemma Booking_save_idempotent_witness :
  exists db1 b1,
    Booking_save summit_db (new_booking 1) = Ok (db1, b1) /\
    Booking_save db1 b1 = Ok (db1, b1).
Proof.
  eexists. eexists. split; [reflexivity|].
  exact (Booking_save_idempotent summit_db _ (new_booking 1) _ eq_refl).
Defined.

Section CreateRun.


End CreateRun.



(** ** A run of registrations *)

Section Registrations.

Variable db : Db.
Variable eid : nat.
Variable event : Event.

Let acr := event_acronym (title event).

Hypothesis event_resolves : Booking_event db (new_booking eid) = Ok event.
Hypothesis no_booking_yet : filter_event eid (bookings db) = [].
Hypothesis acronym_unused :
  forall b i, In b (bookings db) -> 1 <= i -> sno b <> sno_format acr i.





End Registrations.



(** ** Saving events *)

Section EventSave.

Lemma next_pk_fresh_event (objects : list Event) (r : Event) :
  In r objects -> event_pk r <> Some (next_pk (map event_pk objects)).
Proof.
  intros Hr Heq.
  assert (H : In (Some (next_pk (map event_pk objects))) (map event_pk objects))
    by (rewrite <- Heq; now apply in_map).
  apply next_pk_above in H. lia.
Qed.

Lemma filter_slug_not_taken (objects : list Event) (s : string) :
  ~ slug_taken objects s -> filter_slug s objects = [].
Proof.
  intros H. destruct (filter_slug s objects) as [|e r] eqn:E; [reflexivity|].
  exfalso. apply H.
  assert (Hin : In e (filter_slug s objects)) by (rewrite E; now left).
  apply filter_In in Hin. destruct Hin as [Hin Hs]. apply String.eqb_eq in Hs.
  now exists e.
Qed.

(** The slug loop, with its result named. *)
Lemma unique_slug_returns (objects : list Event) (title : string) :
  exists k,
    0 <= k /\
    unique_slug objects title = Some (slug_candidate (Django.slugify title) k) /\
    ~ slug_taken objects (slug_candidate (Django.slugify title) k) /\
    (forall i, 0 <= i < k ->
       slug_taken objects (slug_candidate (Django.slugify title) i)).
Proof.
  destruct (slug_search objects (Django.slugify title)) as (k & Hk & Hgen & Hfree & Hbelow).
  exists k. repeat split; try assumption. lia.
Qed.

(** A text without alphanumeric character slugifies to the empty slug. *)
Lemma no_alnum_char (c : ascii) :
  isalnum c = false ->
  Django.is_word (Py.lower_char c) || Django.is_sep (Py.lower_char c) = true ->
  Django.is_sep (Py.lower_char c) = false ->
  Django.is_hyphen_or_underscore (Py.lower_char c) = true.
Proof.
  revert c.
  assert (H : forall c,
    implb (negb (isalnum c))
      (implb (Django.is_word (Py.lower_char c) || Django.is_sep (Py.lower_char c))
         (implb (negb (Django.is_sep (Py.lower_char c)))
            (Django.is_hyphen_or_underscore (Py.lower_char c)))) = true)
    by (apply ascii_forall; vm_compute; reflexivity).
  intros c H1 H2 H3. specialize (H c). rewrite H1, H2, H3 in H. exact H.
Qed.

Lemma collapse_keep_no_alnum (s : string) : forall in_run,
  string_forall (fun c => negb (isalnum c)) s = true ->
  string_forall Django.is_hyphen_or_underscore
    (Django.collapse_seps in_run (Django.keep_word_space_hyphen (Py.lower s))) = true.
Proof.
  induction s as [|c s IH]; intros in_run; simpl; [reflexivity|].
  intros H. apply andb_true_iff in H. destruct H as [Hc Hs].
  apply negb_true_iff in Hc.
  destruct (Django.is_word (Py.lower_char c) || Django.is_sep (Py.lower_char c)) eqn:Hk;
    [|now apply IH].
  pose proof (no_alnum_char c Hc Hk) as Hu.
  simpl. destruct (Django.is_sep (Py.lower_char c)).
  - destruct in_run; simpl; now apply IH.
  - simpl. rewrite (Hu eq_refl). now apply IH.
Qed.

Lemma lstrip_by_all (p : ascii -> bool) (s : string) :
  string_forall p s = true -> Py.lstrip_by p s = "".
Proof.
  induction s as [|c s IH]; simpl; [reflexivity|].
  intros H. apply andb_true_iff in H. destruct H as [Hc Hs].
  rewrite Hc. now apply IH.
Qed.

Lemma slugify_no_alnum (title : string) :
  string_forall (fun c => negb (isalnum c)) title = true ->
  Django.slugify title = "".
Proof.
  intros H. unfold Django.slugify, Py.strip_by.
  rewrite lstrip_by_all; [reflexivity|]. now apply collapse_keep_no_alnum.
Qed.

End EventSave.

(** [X8] [Event.save] of a new event (no key, no slug) appends exactly one
    row, the event returned, under a key that no row has; its title is the
    one given and its slug is held by no earlier row, so slugs that were
    pairwise distinct stay so, and [Event.objects.get(slug=...)] on the new
    table finds this very event. *)
Theorem Event_save_insert :
  forall (objects : list Event) (self : Event),
  event_pk self = None -> slug self = "" ->
  exists saved k,
    Event_save objects self = Ok ((objects ++ [saved])%list, saved) /\
    event_pk saved = Some k /\
    (forall r, In r objects -> event_pk r <> Some k) /\
    title saved = title self /\
    unique_slug objects (title self) = Some (slug saved) /\
    ~ slug_taken objects (slug saved) /\
    (NoDup (map slug objects) -> NoDup (map slug (objects ++ [saved]))) /\
    Event_objects_get (objects ++ [saved]) (slug saved) = Ok saved.
Proof.
  intros objects self Hnone Hemp.
  destruct (unique_slug_returns objects (title self)) as (j & _ & Hgen & Hfree & _).
  set (s := slug_candidate (Django.slugify (title self)) j) in *.
  set (k := next_pk (map event_pk objects)).
  exists (set_event_pk k (set_slug s self)), k.
  split.
  - unfold Event_save. rewrite Hemp. simpl String.eqb. cbv iota.
    rewrite Hgen. cbn [bind]. unfold Model_save_event.
    rewrite slug_conflict_fresh by exact Hfree.
    unfold write_event. simpl event_pk. rewrite Hnone. reflexivity.
  - simpl. split; [reflexivity|].
    split; [intros r; apply next_pk_fresh_event|].
    split; [reflexivity|]. split; [exact Hgen|]. split; [exact Hfree|]. split.
    + intros Hnd. rewrite map_app. simpl. apply NoDup_snoc; [exact Hnd|].
      intros Hin. apply in_map_iff in Hin. destruct Hin as (r & Hr & Hin).
      apply Hfree. now exists r.
    + unfold Event_objects_get, filter_slug. rewrite filter_app.
      fold (filter_slug s objects). rewrite (filter_slug_not_taken _ _ Hfree).
      simpl. now rewrite String.eqb_refl.
Qed.

Lemma Event_save_insert_witness :
  exists saved k,
    Event_save [] (mkEvent None "Annual Tech Summit" "") = Ok ([saved], saved) /\
    event_pk saved = Some k /\ slug saved = "annual-tech-summit".
Proof.
  destruct (Event_save_insert [] (mkEvent None "Annual Tech Summit" "")
              eq_refl eq_refl) as (saved & k & H & Hk & _ & _ & Hs & _).
  exists saved, k. repeat split; try assumption.
  simpl in Hs. now injection Hs as <-.
Defined.

(** [X9] An empty slug is not kept.  An ASCII title without letter or digit
    slugifies to the empty slug: when no event holds the empty slug, the new
    event is saved with it, and the next save of that very event finds the
    empty slug taken (by its own row), so that it replaces the slug by
    [-k] for the first free [k >= 1], in the same row. *)
Theorem empty_slug_is_regenerated :
  forall (objects : list Event) (title : string),
  Py.isascii title = true ->
  string_forall (fun c => negb (isalnum c)) title = true ->
  ~ slug_taken objects "" ->
  exists e1 objects2 e2 k,
    Event_save objects (mkEvent None title "") = Ok ((objects ++ [e1])%list, e1) /\
    slug e1 = "" /\
    Event_save (objects ++ [e1]) e1 = Ok (objects2, e2) /\
    1 <= k /\ slug e2 = "-" ++ Py.str k /\
    ~ slug_taken (objects ++ [e1]) (slug e2) /\
    event_pk e2 = event_pk e1 /\
    length objects2 = length (objects ++ [e1]).
Proof.
  intros objects title _ Hno Hfree0.
  pose proof (slugify_no_alnum title Hno) as Hbase.
  set (k0 := next_pk (map event_pk objects)).
  set (e1 := mkEvent (Some k0) title "").
  assert (H1 : Event_save objects (mkEvent None title "")
               = Ok ((objects ++ [e1])%list, e1)).
  { destruct (unique_slug_returns objects title) as (j & Hj & Hgen & _ & Hbelow).
    rewrite Hbase in Hgen, Hbelow.
    assert (j = 0).
    { destruct (Z.eq_dec j 0) as [|Hne]; [assumption|].
      exfalso. apply Hfree0. apply (Hbelow 0). lia. }
    subst j. unfold Event_save. simpl. rewrite Hgen. cbn [bind].
    unfold Model_save_event. rewrite slug_conflict_fresh by exact Hfree0.
    reflexivity. }
  destruct (unique_slug_returns (objects ++ [e1]) title) as (j & Hj & Hgen & Hfree & _).
  rewrite Hbase in Hgen, Hfree.
  assert (Hj1 : 1 <= j).
  { destruct (Z.eq_dec j 0) as [->|Hne]; [|lia].
    exfalso. apply Hfree. exists e1. split; [|reflexivity].
    apply in_or_app. right. now left. }
  assert (Hcand : slug_candidate "" j = "-" ++ Py.str j).
  { unfold slug_candidate. destruct (Z.eqb_spec j 0); [lia | reflexivity]. }
  rewrite Hcand in Hgen, Hfree.
  set (e2 := mkEvent (Some k0) title ("-" ++ Py.str j)).
  exists e1, (map (fun r => if pk_is k0 (event_pk r) then e2 else r)
                (objects ++ [e1])), e2, j.
  split; [exact H1|]. split; [reflexivity|]. split.
  - unfold Event_save. simpl. rewrite Hgen. cbn [bind].
    unfold Model_save_event. rewrite slug_conflict_fresh by exact Hfree.
    unfold write_event. simpl.
    assert (Hex : existsb (fun r => pk_is k0 (event_pk r)) (objects ++ [e1]) = true).
    { apply existsb_exists. exists e1. split; [apply in_or_app; right; now left|].
      simpl. apply Nat.eqb_refl. }
    rewrite Hex. reflexivity.
  - split; [exact Hj1|]. split; [reflexivity|]. split; [exact Hfree|].
    split; [reflexivity|]. apply length_map.
Qed.

Lemma empty_slug_is_regenerated_witness :
  exists e1 objects2 e2,
    Event_save [] (mkEvent None "!!!" "") = Ok ([e1], e1) /\
    slug e1 = "" /\
    Event_save [e1] e1 = Ok (objects2, e2) /\
    slug e2 <> "".
Proof.
  destruct (empty_slug_is_regenerated [] "!!!" eq_refl eq_refl
              ltac:(intros (e & [] & _)))
    as (e1 & objects2 & e2 & k & H1 & Hs1 & H2 & _ & Hs2 & _).
  exists e1, objects2, e2. repeat split; try assumption.
  rewrite Hs2. discriminate.
Defined.

(** ** What a scan touches *)

Section ScanFrame.

(** Saving an object whose key is in the table rewrites the rows of that
    key and nothing else. *)
Lemma Booking_save_existing (db db1 : Db) (self b1 : Booking) (k : nat) :
  booking_pk self = Some k ->
  (exists r, In r (bookings db) /\ booking_pk r = Some k) ->
  Booking_save db self = Ok (db1, b1) ->
  events db1 = events db /\
  bookings db1 = update_rows k b1 (bookings db) /\
  booking_pk b1 = Some k /\
  event_id b1 = event_id self /\
  is_activated b1 = is_activated self /\
  payment_amount b1 = payment_amount self /\
  (sno self <> "" -> sno b1 = sno self) /\
  total_amount b1
  = (if 0 <? payment_amount self then payment_amount self else total_amount self).
Proof.
  intros Hk Hex H. apply Booking_save_inv in H.
  destruct H as (self1 & Hm & He & Hpk & Hid & Hact & Hpay & Hsno & _ & Htot).
  rewrite (write_booking_update _ _ k) in Hm; [|congruence|exact Hex].
  injection Hm as Ho <-.
  repeat (split; [congruence|]). split; [|exact Htot].
  intros Hne. apply eqb_empty_false in Hne. now rewrite Hne in Hsno.
Qed.

Lemma update_rows_nth (k : nat) (self : Booking) (objects : list Booking)
    (i : nat) (r : Booking) :
  nth_error objects i = Some r -> booking_pk r <> Some k ->
  nth_error (update_rows k self objects) i = Some r.
Proof.
  intros Hr Hne. unfold update_rows. rewrite nth_error_map, Hr. simpl.
  destruct (pk_is k (booking_pk r)) eqn:E; [|reflexivity].
  apply pk_is_Some in E. contradiction.
Qed.

Lemma get_object_found (db : Db) (pk : nat) (booking : Booking) :
  get_object db pk = Ok booking ->
  In booking (bookings db) /\ booking_pk booking = Some pk.
Proof.
  unfold get_object.
  destruct (find (fun b => pk_is pk (booking_pk b)) (bookings db)) as [b|] eqn:E;
    [|discriminate].
  intros [= <-]. apply find_some in E. destruct E as [Hin Hk].
  split; [exact Hin | now apply pk_is_Some].
Qed.

Lemma get_object_missing (db : Db) (pk : nat) (e : Exn) :
  get_object db pk = Raise e ->
  e = Http404 /\ forall r, In r (bookings db) -> booking_pk r <> Some pk.
Proof.
  unfold get_object.
  destruct (find (fun b => pk_is pk (booking_pk b)) (bookings db)) as [b|] eqn:E;
    [discriminate|].
  intros [= <-]. split; [reflexivity|]. intros r Hr Hk.
  apply (find_none _ _ E) in Hr. apply pk_is_Some in Hk. congruence.
Qed.

End ScanFrame.

(** [X10] What [scan_qr] touches.  Whatever the answer, the events and the
    number of bookings are unchanged and every row of another key stays in
    place, untouched.  Without a row of the key the answer is 404 and the
    tables are unchanged.  On a 200 answer the row of the key has its flag
    negated, [total_amount] overwritten by a positive [payment_amount], event
    and payment amount kept, a non-empty serial kept, and the answer reports
    the new flag with the matching status. *)
Theorem scan_qr_frame :
  forall (db db' : Db) (pk : nat) (resp : Response),
  scan_qr db pk = (db', resp) ->
  events db' = events db /\
  length (bookings db') = length (bookings db) /\
  (forall i r, nth_error (bookings db) i = Some r -> booking_pk r <> Some pk ->
     nth_error (bookings db') i = Some r) /\
  ((forall r, In r (bookings db) -> booking_pk r <> Some pk) ->
   db' = db /\ resp = Response_404) /\
  (forall b flag status message,
     resp = Response_200 b flag status message ->
     exists old,
       get_object db pk = Ok old /\ get_object db' pk = Ok b /\
       flag = negb (is_activated old) /\ is_activated b = flag /\
       status = (if flag then "Activated" else "Not Scanned") /\
       event_id b = event_id old /\ payment_amount b = payment_amount old /\
       (sno old <> "" -> sno b = sno old) /\
       total_amount b
       = (if 0 <? payment_amount old then payment_amount old else total_amount old)).
Proof.
  intros db db' pk resp. unfold scan_qr.
  destruct (get_object db pk) as [old|e] eqn:Hget.
  - destruct (get_object_found db pk old Hget) as [Hin Hk].
    set (toggled := set_is_activated (negb (is_activated old)) old).
    destruct (Booking_save db toggled) as [[db1 b1]|e] eqn:Hsave.
    + intros [= <- <-].
      destruct (Booking_save_existing db db1 toggled b1 pk Hk
                  ltac:(exists old; auto) Hsave)
        as (He & Ho & Hk1 & Hid & Hact & Hpay & Hsno & Htot).
      split; [exact He|]. split; [rewrite Ho; apply update_rows_length|].
      split; [intros i r Hr Hne; rewrite Ho; now apply update_rows_nth|].
      split; [intros Hnone; exfalso; now apply (Hnone old Hin)|].
      intros b flag status message [= <- <- <- <-].
      exists old. split; [reflexivity|]. split.
      * unfold get_object. rewrite Ho, find_update_rows; eauto.
      * split; [exact Hact|]. split; [reflexivity|]. split; [reflexivity|].
        repeat (split; [assumption|]). exact Htot.
    + intros [= <- <-]. split; [reflexivity|]. split; [reflexivity|].
      split; [auto|]. split; [intros Hnone; exfalso; now apply (Hnone old Hin)|].
      intros b flag status message H. discriminate H.
  - destruct (get_object_missing db pk e Hget) as [-> Hnone].
    intros [= <- <-]. split; [reflexivity|]. split; [reflexivity|].
    split; [auto|]. split; [auto|].
    intros b flag status message H. discriminate H.
Qed.

Lemma scan_qr_frame_witness :
  exists db' b,
    scan_qr activated_db 1 = (db', Response_200 b false "Not Scanned"
                                     "Booking ATS-001 deactivated successfully") /\
    length (bookings db') = 1%nat /\ sno b = "ATS-001".
Proof.
  eexists. eexists. split; [reflexivity|].
  split.
  - exact (proj1 (proj2 (scan_qr_frame activated_db _ 1 _ eq_refl))).
  - reflexivity.
Defined.

Section ScanBySnoFrame.

Lemma NoDup_map_eq {A B : Type} (f : A -> B) (l : list A) (a b : A) :
  NoDup (map f l) -> In a l -> In b l -> f a = f b -> a = b.
Proof.
  induction l as [|x l IH]; simpl; intros Hnd Ha Hb Hf; [destruct Ha|].
  apply NoDup_cons_iff in Hnd. destruct Hnd as [Hx Hnd].
  destruct Ha as [->|Ha], Hb as [->|Hb]; auto.
  - exfalso. apply Hx. rewrite Hf. now apply in_map.
  - exfalso. apply Hx. rewrite <- Hf. now apply in_map.
Qed.

Lemma objects_get_sno_found (db : Db) (s : string) (booking : Booking) :
  objects_get_sno db s = Ok booking ->
  filter_sno s (bookings db) = [booking] /\ In booking (bookings db) /\ sno booking = s.
Proof.
  unfold objects_get_sno.
  destruct (filter_sno s (bookings db)) as [|b0 [|b1 r]] eqn:Hf; try discriminate.
  intros [= <-]. split; [reflexivity|].
  assert (Hin : In b0 (filter_sno s (bookings db))) by (rewrite Hf; now left).
  apply filter_In in Hin. destruct Hin as [Hin Hs]. apply String.eqb_eq in Hs. auto.
Qed.

Lemma objects_get_sno_raise (db : Db) (s : string) (e : Exn) :
  objects_get_sno db s = Raise e ->
  (e = DoesNotExist /\ ~ sno_taken (bookings db) s) \/
  (e = MultipleObjectsReturned /\ (2 <= length (filter_sno s (bookings db)))%nat).
Proof.
  unfold objects_get_sno.
  destruct (filter_sno s (bookings db)) as [|b0 [|b1 r]] eqn:Hf; try discriminate.
  - intros [= <-]. left. split; [reflexivity|].
    intros (b & Hb & Hs).
    assert (Hin : In b (filter_sno s (bookings db))).
    { apply filter_In. split; [exact Hb | now apply String.eqb_eq]. }
    rewrite Hf in Hin. destruct Hin.
  - intros [= <-]. right. split; [reflexivity | simpl; lia].
Qed.

End ScanBySnoFrame.

(** [X11] What [scan_qr_by_sno] touches, on a table with sound keys.
    Whatever the answer, the events and the number of bookings are unchanged
    and every row with another serial stays in place, untouched.  When no
    row has the serial the answer is 404, when several rows have it the
    lookup raises (a 500 answer), and in both cases the tables are
    unchanged.  On a 200 answer exactly one row had the serial, and that row
    has its flag negated. *)
Theorem scan_qr_by_sno_frame :
  forall (db db' : Db) (s : string) (resp : Response),
  keys_ok (bookings db) ->
  scan_qr_by_sno db s = (db', resp) ->
  events db' = events db /\
  length (bookings db') = length (bookings db) /\
  (forall i r, nth_error (bookings db) i = Some r -> sno r <> s ->
     nth_error (bookings db') i = Some r) /\
  (~ sno_taken (bookings db) s -> db' = db /\ resp = Response_404) /\
  ((2 <= length (filter_sno s (bookings db)))%nat ->
   db' = db /\ resp = Response_500 MultipleObjectsReturned) /\
  (forall b flag status message,
     resp = Response_200 b flag status message ->
     exists old,
       filter_sno s (bookings db) = [old] /\
       In b (bookings db') /\ booking_pk b = booking_pk old /\
       flag = negb (is_activated old) /\ is_activated b = flag /\
       status = (if flag then "Activated" else "Not Scanned")).
Proof.
  intros db db' s resp [Hnd Hkeys]. unfold scan_qr_by_sno.
  destruct (objects_get_sno db s) as [old|e] eqn:Hget.
  - destruct (objects_get_sno_found db s old Hget) as (Hf & Hin & Hs).
    destruct (booking_pk old) as [k|] eqn:Hk; [|now apply Hkeys in Hin].
    set (toggled := set_is_activated (negb (is_activated old)) old).
    destruct (Booking_save db toggled) as [[db1 b1]|e] eqn:Hsave.
    + intros [= <- <-].
      destruct (Booking_save_existing db db1 toggled b1 k Hk
                  ltac:(exists old; auto) Hsave)
        as (He & Ho & Hk1 & Hid & Hact & Hpay & Hsno & Htot).
      split; [exact He|]. split; [rewrite Ho; apply update_rows_length|].
      split.
      { intros i r Hr Hne. rewrite Ho. apply update_rows_nth; [exact Hr|].
        intros Hrk. apply Hne. rewrite <- Hs. f_equal.
        apply (NoDup_map_eq booking_pk (bookings db)); auto.
        - eapply nth_error_In; eauto.
        - congruence. }
      split; [intros Hnone; exfalso; apply Hnone; now exists old|].
      split; [intros Hlen; rewrite Hf in Hlen; simpl in Hlen; lia|].
      intros b flag status message [= <- <- <- <-].
      exists old. split; [exact Hf|]. split.
      * rewrite Ho. unfold update_rows. apply in_map_iff. exists old.
        apply pk_is_Some in Hk. rewrite Hk. auto.
      * split; [congruence|]. split; [exact Hact|]. split; reflexivity.
    + assert (Hsame : forall r : Response, (db, r) = (db', resp) ->
                events db' = events db /\
                length (bookings db') = length (bookings db) /\
                (forall i r0, nth_error (bookings db) i = Some r0 -> sno r0 <> s ->
                   nth_error (bookings db') i = Some r0)).
      { intros r [= <- _]. auto. }
      intros H. destruct (Hsame _ H) as (G1 & G2 & G3).
      injection H as <- <-.
      split; [exact G1|]. split; [exact G2|]. split; [exact G3|].
      split; [intros Hnone; exfalso; apply Hnone; now exists old|].
      split; [intros Hlen; rewrite Hf in Hlen; simpl in Hlen; lia|].
      intros b flag status message H. discriminate H.
  - destruct (objects_get_sno_raise db s e Hget) as [[-> Hnone]|[-> Hlen]].
    + intros [= <- <-]. split; [reflexivity|]. split; [reflexivity|].
      split; [auto|]. split; [auto|].
      split; [intros Hlen; exfalso|intros b flag status message H; discriminate H].
      rewrite (filter_sno_not_taken _ _ Hnone) in Hlen. simpl in Hlen. lia.
    + intros [= <- <-]. split; [reflexivity|]. split; [reflexivity|].
      split; [auto|]. split.
      * intros Hnone. rewrite (filter_sno_not_taken _ _ Hnone) in Hlen.
        simpl in Hlen. lia.
      * split; [auto|]. intros b flag status message H. discriminate H.
Qed.

Lemma scan_qr_by_sno_frame_witness :
  exists db',
    scan_qr_by_sno activated_db "ATS-404" = (db', Response_404) /\
    db' = activated_db.
Proof.
  exists activated_db. split; [reflexivity|].
  refine (proj1 (proj1 (proj2 (proj2 (proj2
    (scan_qr_by_sno_frame activated_db activated_db "ATS-404" Response_404 _ eq_refl))))
    _)).
  - split.
    + simpl. constructor; [intros [] | constructor].
    + intros b [<-|[]]. discriminate.
  - intros (b & [<-|[]] & Hs). discriminate Hs.
Defined.

(** ** The event views *)

Section Stats.

Lemma filter_length_split {A : Type} (p q r : A -> bool) (l : list A) :
  (forall x, In x l ->
     (if p x then 1 else 0) + (if q x then 1 else 0) + (if r x then 1 else 0) = 1) ->
  Z.of_nat (length l)
  = Z.of_nat (length (filter p l)) + Z.of_nat (length (filter q l))
    + Z.of_nat (length (filter r l)).
Proof.
  induction l as [|x l IH]; intros H; [reflexivity|].
  assert (Hx := H x (or_introl eq_refl)).
  assert (Hl : forall y, In y l ->
            (if p y then 1 else 0) + (if q y then 1 else 0) + (if r y then 1 else 0) = 1)
    by (intros y Hy; apply H; now right).
  specialize (IH Hl). simpl.
  destruct (p x), (q x), (r x); simpl length; lia.
Qed.

Lemma filter_and {A : Type} (p q : A -> bool) (l : list A) :
  filter (fun x => p x && q x) l = filter q (filter p l).
Proof.
  induction l as [|x l IH]; simpl; [reflexivity|].
  destruct (p x); simpl; [destruct (q x)|]; now rewrite IH.
Qed.

Lemma event_classes (now : Z) (e : EventRow) :
  (if is_ongoing now e then 1 else 0) + (if is_upcoming now e then 1 else 0)
  + (if is_unclassified now e then 1 else 0) = 1.
Proof.
  unfold is_ongoing, is_upcoming, is_unclassified.
  destruct (end_date e) as [d|];
    repeat match goal with
           | |- context [?a <=? ?b] => destruct (Z.leb_spec a b)
           | |- context [?a <? ?b] => destruct (Z.ltb_spec a b)
           end; simpl; lia.
Qed.

End Stats.

(** [X12] The statistics of a host count the events of that host and no
    other.  For a segment [host_id] that reads as the key [z], the view
    answers, [total] is the number of the events whose host has key [z],
    [ongoing] and [upcoming] the numbers of those that are ongoing and
    upcoming; every event of the host is accounted for exactly once:
    [total] is [ongoing] plus [upcoming] plus the number of the host's
    events that have started and either have no end date or have ended, so
    that [ongoing + upcoming <= total]; no event is both ongoing and
    upcoming, and an event without end date is never ongoing. *)
Theorem events_stats_account :
  forall (objects : list EventRow) (now : Z) (host_id : string) (z : Z),
  int_reads host_id z -> int64 z ->
  let of_host := fun e => Z.of_nat (assigned_host e) =? z in
  exists stats,
    events_stats_by_host objects now host_id = Done stats /\
    stats_total stats = qs_count (filter of_host objects) /\
    stats_ongoing stats
    = qs_count (filter (fun e => of_host e && is_ongoing now e) objects) /\
    stats_upcoming stats
    = qs_count (filter (fun e => of_host e && is_upcoming now e) objects) /\
    stats_total stats
    = stats_ongoing stats + stats_upcoming stats
      + qs_count (filter (fun e => of_host e && is_unclassified now e) objects) /\
    stats_ongoing stats + stats_upcoming stats <= stats_total stats /\
    (forall e, is_ongoing now e = true -> is_upcoming now e = false) /\
    (forall e, end_date e = None -> is_ongoing now e = false).
Proof.
  intros objects now host_id z (_ & _ & Hint) _ of_host.
  unfold events_stats_by_host, filter_host. rewrite Hint. fold of_host.
  eexists. split; [reflexivity|]. cbn [stats_total stats_ongoing stats_upcoming].
  rewrite !filter_and.
  assert (H : qs_count (filter of_host objects)
    = qs_count (filter (is_ongoing now) (filter of_host objects))
      + qs_count (filter (is_upcoming now) (filter of_host objects))
      + qs_count (filter (is_unclassified now) (filter of_host objects))).
  { unfold qs_count. apply filter_length_split. intros e _. apply event_classes. }
  split; [reflexivity|]. split; [reflexivity|]. split; [reflexivity|].
  split; [exact H|].
  split; [unfold qs_count in *; lia|]. split.
  - intros e He. pose proof (event_classes now e) as Hc. rewrite He in Hc.
    destruct (is_upcoming now e); [|reflexivity].
    destruct (is_unclassified now e); lia.
  - intros e He. unfold is_ongoing. rewrite He. apply andb_false_r.
Qed.

Lemma events_stats_account_witness :
  events_stats_by_host
    [mkEventRow (mkEvent (Some 1%nat) "a" "a") 7 true 10 (Some 30);
     mkEventRow (mkEvent (Some 2%nat) "b" "b") 8 true 10 (Some 30);
     mkEventRow (mkEvent (Some 3%nat) "c" "c") 7 true 40 None;
     mkEventRow (mkEvent (Some 4%nat) "d" "d") 7 true 5 None]
    20 "7"
  = Done (mkStats 3 1 1).
Proof.
  destruct (events_stats_account
    [mkEventRow (mkEvent (Some 1%nat) "a" "a") 7 true 10 (Some 30);
     mkEventRow (mkEvent (Some 2%nat) "b" "b") 8 true 10 (Some 30);
     mkEventRow (mkEvent (Some 3%nat) "c" "c") 7 true 40 None;
     mkEventRow (mkEvent (Some 4%nat) "d" "d") 7 true 5 None]
    20 "7" 7) as (stats & H & _).
  - split; [reflexivity|]. split; [simpl; lia | reflexivity].
  - unfold int64, max_int64. lia.
  - rewrite H. f_equal.
    injection H as <-. reflexivity.
Defined.

(** [X13] Who gets an event by its slug.  A 200 answer always carries the
    one event that has the slug, and it is given exactly when that event is
    published, or the request comes from a superuser, or from a user whose
    id equals the id of the assigned host; an unpublished event is never
    answered to an anonymous request, which gets the same 404 status as for a
    slug that no event has. *)
Theorem event_by_slug_access :
  forall (objects : list EventRow) (user : option User) (s : string),
  (forall event, event_by_slug objects user s = Event_200 event <->
     filter (fun e => String.eqb (slug (row_event e)) s) objects = [event] /\
     (is_published event = true \/
      exists u, user = Some u /\
        (is_superuser u = true \/ user_id u = assigned_host event))) /\
  (forall event,
     filter (fun e => String.eqb (slug (row_event e)) s) objects = [event] ->
     is_published event = false ->
     event_by_slug objects None s = Event_404 "Event not published") /\
  (filter (fun e => String.eqb (slug (row_event e)) s) objects = [] ->
   event_by_slug objects user s = Event_404 "Event not found").
Proof.
  intros objects user s.
  assert (Hid : forall a b : nat,
            String.eqb (Py.str (Z.of_nat a)) (Py.str (Z.of_nat b)) = true <-> b = a).
  { intros a b. rewrite String.eqb_eq. split.
    - intros H. apply str_inj in H. lia.
    - now intros ->. }
  unfold event_by_slug, EventRow_get.
  destruct (filter (fun e => String.eqb (slug (row_event e)) s) objects)
    as [|e0 [|e1 r]] eqn:Hf.
  - split; [|split].
    + intros event. split; [discriminate | intros [H _]; discriminate H].
    + intros event H. discriminate H.
    + reflexivity.
  - split; [|split].
    + intros event. destruct (is_published e0) eqn:Hp.
      * split.
        -- intros [= <-]. auto.
        -- intros [[= <-] _]. reflexivity.
      * destruct user as [u|].
        -- destruct (is_superuser u) eqn:Hs.
           ++ split.
              ** intros [= <-]. split; [reflexivity|]. right. exists u. auto.
              ** intros [[= <-] _]. reflexivity.
           ++ destruct (String.eqb (Py.str (Z.of_nat (assigned_host e0)))
                          (Py.str (Z.of_nat (user_id u)))) eqn:He.
              ** apply Hid in He. split.
                 --- intros [= <-]. split; [reflexivity|]. right. exists u. auto.
                 --- intros [[= <-] _]. reflexivity.
              ** split; [discriminate|].
                 intros [[= <-] [Hpub|(u' & [= <-] & [Hsu|Hu])]]; try congruence.
                 apply Hid in Hu. congruence.
        -- split; [discriminate|].
           intros [[= <-] [Hpub|(u' & Hu & _)]]; congruence.
    + intros event [= <-] Hp. now rewrite Hp.
    + discriminate.
  - split; [|split].
    + intros event. split; [discriminate | intros [H _]; discriminate H].
    + intros event H. discriminate H.
    + discriminate.
Qed.

Section Yearly.

Lemma group_count_cons (y y0 c : Z) (r : list (Z * Z)) :
  group_count y ((y0, c) :: r)
  = if y0 =? y then c + group_count y r else group_count y r.
Proof. reflexivity. Qed.

Lemma group_count_count_year (y y' : Z) (groups : list (Z * Z)) :
  group_count y (count_year y' groups)
  = group_count y groups + (if y' =? y then 1 else 0).
Proof.
  induction groups as [|[y0 c] r IH]; cbn [count_year].
  - rewrite group_count_cons. cbn [group_count fold_right]. destruct (y' =? y); lia.
  - destruct (Z.ltb_spec y' y0).
    + rewrite !group_count_cons. destruct (y' =? y), (y0 =? y); lia.
    + destruct (Z.eqb_spec y' y0) as [->|Hne].
      * rewrite !group_count_cons. destruct (y0 =? y); lia.
      * rewrite !group_count_cons, IH. destruct (y0 =? y), (y' =? y); lia.
Qed.

Lemma count_year_keys (y : Z) (groups : list (Z * Z)) (k : Z) :
  In k (map fst (count_year y groups)) <-> k = y \/ In k (map fst groups).
Proof.
  induction groups as [|[y0 c] r IH]; simpl; [intuition|].
  destruct (Z.ltb_spec y y0); simpl; [intuition|].
  destruct (Z.eqb_spec y y0) as [->|Hne]; simpl; [intuition|].
  rewrite IH. intuition.
Qed.

Lemma count_year_sorted (y : Z) (groups : list (Z * Z)) :
  StronglySorted Z.lt (map fst groups) ->
  StronglySorted Z.lt (map fst (count_year y groups)).
Proof.
  induction groups as [|[y0 c] r IH]; simpl; intros Hs.
  - constructor; constructor.
  - apply StronglySorted_inv in Hs. destruct Hs as [Hr Hall].
    destruct (Z.ltb_spec y y0); simpl.
    + constructor; [constructor; assumption|].
      constructor; [assumption|].
      rewrite Forall_forall in *. intros k Hk. specialize (Hall k Hk). lia.
    + destruct (Z.eqb_spec y y0) as [->|Hne]; simpl.
      * constructor; assumption.
      * constructor; [now apply IH|].
        rewrite Forall_forall in *. intros k Hk.
        apply count_year_keys in Hk. destruct Hk as [->|Hk]; [lia | now apply Hall].
Qed.

Lemma count_year_positive (y : Z) (groups : list (Z * Z)) :
  Forall (fun g => 1 <= snd g) groups ->
  Forall (fun g => 1 <= snd g) (count_year y groups).
Proof.
  induction groups as [|[y0 c] r IH]; simpl; intros H.
  - constructor; [simpl; lia | constructor].
  - apply Forall_cons_iff in H. destruct H as [Hc Hr]. simpl in Hc.
    destruct (y <? y0).
    + constructor; [simpl; lia|]. constructor; assumption.
    + destruct (y =? y0).
      * constructor; [simpl; lia | assumption].
      * constructor; [assumption | now apply IH].
Qed.

Lemma group_count_absent (y : Z) (groups : list (Z * Z)) :
  ~ In y (map fst groups) -> group_count y groups = 0.
Proof.
  induction groups as [|[y0 c] r IH]; simpl; intros H; [reflexivity|].
  destruct (Z.eqb_spec y0 y) as [->|Hne]; [exfalso; apply H; now left|].
  apply IH. intros Hin. apply H. now right.
Qed.

Lemma group_count_In (y c : Z) (groups : list (Z * Z)) :
  StronglySorted Z.lt (map fst groups) -> In (y, c) groups ->
  group_count y groups = c.
Proof.
  induction groups as [|[y0 c0] r IH]; simpl; intros Hs Hin; [destruct Hin|].
  apply StronglySorted_inv in Hs. destruct Hs as [Hr Hall].
  rewrite Forall_forall in Hall.
  destruct Hin as [[= -> ->]|Hin].
  - rewrite Z.eqb_refl. rewrite group_count_absent; [lia|].
    intros Hk. specialize (Hall y Hk). lia.
  - assert (Hlt : y0 < y) by (apply Hall; now apply (in_map fst r (y, c))).
    destruct (Z.eqb_spec y0 y); [lia|]. now apply IH.
Qed.

Lemma group_count_sum (groups : list (Z * Z)) (years : list Z) :
  (forall y, group_count y groups = year_occurrences y years) ->
  StronglySorted Z.lt (map fst groups) ->
  Forall (fun g => 1 <= snd g) groups ->
  forall y, In y years -> exists c, In (y, c) groups.
Proof.
  intros Hc Hs Hpos y Hy.
  assert (Hocc : 1 <= year_occurrences y years).
  { unfold year_occurrences.
    assert (Hin : In y (filter (Z.eqb y) years)).
    { apply filter_In. split; [exact Hy | apply Z.eqb_refl]. }
    destruct (filter (Z.eqb y) years); [destruct Hin | simpl; lia]. }
  rewrite <- Hc in Hocc.
  destruct (in_dec Z.eq_dec y (map fst groups)) as [Hin|Hnin].
  - apply in_map_iff in Hin. destruct Hin as ([y0 c] & Hfst & Hin).
    simpl in Hfst. subst y0. now exists c.
  - rewrite (group_count_absent _ _ Hnin) in Hocc. lia.
Qed.

(** The groups built from a list of years. *)
Lemma yearly_groups (years : list Z) :
  let groups := fold_right count_year [] years in
  StronglySorted Z.lt (map fst groups) /\
  Forall (fun g => 1 <= snd g) groups /\
  (forall y, group_count y groups = year_occurrences y years) /\
  fold_right (fun g acc => snd g + acc) 0 groups = Z.of_nat (length years).
Proof.
  induction years as [|y0 years IH]; simpl.
  - repeat split; constructor.
  - destruct IH as (Hs & Hpos & Hc & Hsum).
    split; [now apply count_year_sorted|].
    split; [now apply count_year_positive|]. split.
    + intros y. rewrite group_count_count_year, Hc. unfold year_occurrences.
      simpl. rewrite (Z.eqb_sym y y0). destruct (y0 =? y); simpl length; lia.
    + clear Hs Hpos Hc.
      assert (Hstep : forall G,
        fold_right (fun g acc => snd g + acc) 0 (count_year y0 G)
        = fold_right (fun g acc => snd g + acc) 0 G + 1).
      { induction G as [|[y1 c] r IHG]; cbn [count_year fold_right snd]; [lia|].
        destruct (y0 <? y1); cbn [fold_right snd]; [lia|].
        destruct (y0 =? y1); cbn [fold_right snd]; [lia|]. rewrite IHG. lia. }
      rewrite Hstep, Hsum. lia.
Qed.

End Yearly.

(** [X14] The yearly counts of a host count the events of that host and no
    other.  For a segment [host_id] that reads as the key [z], the view
    answers with one entry for each year in which an event of the host with
    key [z] falls, the years strictly ascending, each with the number of the
    events of that host in that year, which is at least 1; the counts add up
    to the number of the events of that host. *)
Theorem events_yearly_count_spec :
  forall (year_of : Z -> Z) (objects : list EventRow) (host_id : string) (z : Z),
  int_reads host_id z -> int64 z ->
  let of_host := fun e => Z.of_nat (assigned_host e) =? z in
  exists counts,
    events_yearly_count_by_host year_of objects host_id = Done counts /\
    StronglySorted Z.lt (map fst counts) /\
    (forall y c, In (y, c) counts ->
       1 <= c /\
       c = qs_count (filter (fun e => of_host e && (year_of (date e) =? y)) objects)) /\
    (forall e, In e objects -> Z.of_nat (assigned_host e) = z ->
       exists c, In (year_of (date e), c) counts) /\
    fold_right (fun g acc => snd g + acc) 0 counts = qs_count (filter of_host objects).
Proof.
  intros year_of objects host_id z (_ & _ & Hint) _ of_host.
  unfold events_yearly_count_by_host, filter_host. rewrite Hint. fold of_host.
  set (events := filter of_host objects).
  set (counts := fold_right count_year [] (map (fun e => year_of (date e)) events)).
  exists counts. split; [reflexivity|].
  destruct (yearly_groups (map (fun e => year_of (date e)) events))
    as (Hs & Hpos & Hc & Hsum).
  fold counts in Hs, Hpos, Hc, Hsum.
  split; [exact Hs|]. split; [|split].
  - intros y c Hin. split.
    + rewrite Forall_forall in Hpos. apply (Hpos (y, c) Hin).
    + rewrite <- (group_count_In y c counts Hs Hin), Hc, filter_and.
      fold events. unfold year_occurrences, qs_count. f_equal.
      clear. induction events as [|e l IH]; simpl; [reflexivity|].
      rewrite (Z.eqb_sym y). destruct (year_of (date e) =? y); simpl; now rewrite IH.
  - intros e He Hz.
    apply (group_count_sum counts (map (fun e => year_of (date e)) events) Hc Hs Hpos).
    apply (in_map (fun e => year_of (date e))). apply filter_In.
    split; [exact He|]. unfold of_host. now apply Z.eqb_eq.
  - transitivity (Z.of_nat (length (map (fun e => year_of (date e)) events)));
      [exact Hsum | now rewrite length_map].
Qed.

Lemma events_yearly_count_spec_witness :
  events_yearly_count_by_host (fun d => d / 100)
    [mkEventRow (mkEvent (Some 1%nat) "a" "a") 7 true 202510 None;
     mkEventRow (mkEvent (Some 2%nat) "b" "b") 8 true 202511 None;
     mkEventRow (mkEvent (Some 3%nat) "c" "c") 7 true 202401 None;
     mkEventRow (mkEvent (Some 4%nat) "d" "d") 7 true 202512 None]
    "7"
  = Done [(2024, 1); (2025, 2)].
Proof.
  destruct (events_yearly_count_spec (fun d => d / 100)
    [mkEventRow (mkEvent (Some 1%nat) "a" "a") 7 true 202510 None;
     mkEventRow (mkEvent (Some 2%nat) "b" "b") 8 true 202511 None;
     mkEventRow (mkEvent (Some 3%nat) "c" "c") 7 true 202401 None;
     mkEventRow (mkEvent (Some 4%nat) "d" "d") 7 true 202512 None]
    "7" 7) as (counts & H & _).
  - split; [reflexivity|]. split; [simpl; lia | reflexivity].
  - unfold int64, max_int64. lia.
  - rewrite H. f_equal.
    injection H as <-. reflexivity.
Defined.

(** ** The transactions view *)

Section Pages.

Lemma insert_by_desc_length {A : Type} (key : A -> Z) (x : A) (l : list A) :
  length (insert_by_desc key x l) = S (length l).
Proof.
  induction l as [|y r IH]; simpl; [reflexivity|].
  destruct (key y <=? key x); simpl; [reflexivity | now rewrite IH].
Qed.

Lemma order_by_desc_length {A : Type} (key : A -> Z) (l : list A) :
  length (order_by_desc key l) = length l.
Proof.
  induction l as [|x l IH]; simpl; [reflexivity|].
  now rewrite insert_by_desc_length, IH.
Qed.

Lemma map_firstn_skipn {A B : Type} (f : A -> B) (n m : nat) (l : list A) :
  map f (firstn n (skipn m l)) = firstn n (skipn m (map f l)).
Proof. now rewrite skipn_map, firstn_map. Qed.

Lemma qs_slice_Done {A : Type} (qs data : list A) (start stop : Z) :
  qs_slice qs start stop = Done data ->
  0 <= start /\ 0 <= stop /\
  data = firstn (Z.to_nat (stop - start)) (skipn (Z.to_nat start) qs).
Proof.
  unfold qs_slice.
  destruct (Z.ltb_spec start 0); [discriminate|].
  destruct (Z.ltb_spec stop 0); [discriminate|]. simpl.
  destruct (Z.leb_spec stop start).
  - intros [= <-]. replace (Z.to_nat (stop - start)) with 0%nat by lia. auto.
  - destruct ((max_int64 <? stop - start) || (max_int64 <? start)); [discriminate|].
    intros [= <-]. auto.
Qed.

Lemma qs_slice_map {A B : Type} (f : A -> B) (qs : list A) (start stop : Z) :
  qs_slice (map f qs) start stop
  = match qs_slice qs start stop with
    | Done data => Done (map f data)
    | Failed e => Failed e
    end.
Proof.
  unfold qs_slice.
  destruct ((start <? 0) || (stop <? 0)); [reflexivity|].
  destruct (stop <=? start); [reflexivity|].
  destruct ((max_int64 <? stop - start) || (max_int64 <? start)); [reflexivity|].
  now rewrite map_firstn_skipn.
Qed.

(** The view is a slice of [transactions]. *)
Lemma hitpay_transactions_slice (payments : list Payment) (bookings : list BookingRow)
    (host_id page_param per_page_param : option string) (rows : list Entry) (p pp : Z) :
  int_param page_param 1 = Done p ->
  int_param per_page_param 20 = Done pp ->
  transactions payments bookings host_id = Done rows ->
  hitpay_transactions payments bookings host_id page_param per_page_param
  = match qs_slice rows ((p - 1) * pp) ((p - 1) * pp + pp) with
    | Done data =>
        Done (mkPage data (Z.of_nat (length rows)) p pp
                (if 0 <? Z.of_nat (length rows) then (p - 1) * pp + 1 else 0)
                (Z.min ((p - 1) * pp + pp) (Z.of_nat (length rows))))
    | Failed e => Failed e
    end.
Proof.
  intros Hp Hpp Ht. unfold hitpay_transactions, transactions in *.
  rewrite Hp, Hpp.
  destruct (filter_host_param payment_host_id host_id payments) as [ps|e];
    [|discriminate].
  destruct ps as [|p0 ps].
  - cbn [qs_count length Z.of_nat Z.eqb].
    destruct (filter_host_param booking_host_id host_id bookings) as [bs|e];
      [|discriminate].
    injection Ht as <-. rewrite qs_slice_map.
    unfold qs_count. rewrite length_map, order_by_desc_length.
    destruct (qs_slice (order_by_desc booking_created_at bs) ((p - 1) * pp)
                ((p - 1) * pp + pp)); reflexivity.
  - assert (Hpos : (qs_count (p0 :: ps) =? 0) = false).
    { apply Z.eqb_neq. unfold qs_count. simpl length. lia. }
    rewrite Hpos.
    assert (Ht' : map FromPayment (order_by_desc payment_created_at (p0 :: ps)) = rows)
      by congruence.
    rewrite <- Ht', qs_slice_map.
    unfold qs_count. rewrite length_map, order_by_desc_length.
    destruct (qs_slice (order_by_desc payment_created_at (p0 :: ps)) ((p - 1) * pp)
                ((p - 1) * pp + pp)); reflexivity.
Qed.

(** When the view answers, its parameters were numbers and the host filter
    applied. *)
Lemma hitpay_transactions_inputs (payments : list Payment) (bookings : list BookingRow)
    (host_id page_param per_page_param : option string) (pg : Page) :
  hitpay_transactions payments bookings host_id page_param per_page_param = Done pg ->
  exists p pp rows,
    int_param page_param 1 = Done p /\
    int_param per_page_param 20 = Done pp /\
    transactions payments bookings host_id = Done rows.
Proof.
  unfold hitpay_transactions, transactions.
  destruct (int_param page_param 1) as [p|e]; [|discriminate].
  destruct (int_param per_page_param 20) as [pp|e]; [|discriminate].
  destruct (filter_host_param payment_host_id host_id payments) as [ps|e];
    [|discriminate].
  destruct ps as [|p0 ps].
  - cbn [qs_count length Z.of_nat Z.eqb].
    destruct (filter_host_param booking_host_id host_id bookings) as [bs|e];
      [|discriminate].
    intros _. do 3 eexists. repeat split; reflexivity.
  - intros _. do 3 eexists. repeat split; reflexivity.
Qed.

(** The view is a window on [transactions]. *)
Lemma hitpay_transactions_window (payments : list Payment) (bookings : list BookingRow)
    (host_id page_param per_page_param : option string) (pg : Page) :
  hitpay_transactions payments bookings host_id page_param per_page_param = Done pg ->
  exists rows,
    transactions payments bookings host_id = Done rows /\
    int_param page_param 1 = Done (page pg) /\
    int_param per_page_param 20 = Done (per_page pg) /\
    0 <= (page pg - 1) * per_page pg /\
    0 <= (page pg - 1) * per_page pg + per_page pg /\
    payment_requests pg
    = firstn (Z.to_nat (per_page pg))
        (skipn (Z.to_nat ((page pg - 1) * per_page pg)) rows) /\
    total pg = Z.of_nat (length rows) /\
    from_ pg = (if 0 <? total pg then (page pg - 1) * per_page pg + 1 else 0) /\
    to_ pg = Z.min ((page pg - 1) * per_page pg + per_page pg) (total pg).
Proof.
  intros H.
  destruct (hitpay_transactions_inputs _ _ _ _ _ _ H) as (p & pp & rows & Hp & Hpp & Ht).
  rewrite (hitpay_transactions_slice _ _ _ _ _ rows p pp Hp Hpp Ht) in H.
  destruct (qs_slice rows ((p - 1) * pp) ((p - 1) * pp + pp)) as [data|e] eqn:Hs;
    [|discriminate].
  apply qs_slice_Done in Hs. destruct Hs as (H1 & H2 & ->).
  injection H as <-. exists rows. cbn [page per_page payment_requests total from_ to_].
  replace ((p - 1) * pp + pp - (p - 1) * pp) with pp by lia.
  repeat (split; [reflexivity || assumption|]). reflexivity.
Qed.

(** With numbers for parameters and bounds within the integers of the
    database, the view answers with the window. *)
Lemma hitpay_transactions_Done (payments : list Payment) (bookings : list BookingRow)
    (host_id page_param per_page_param : option string) (rows : list Entry) (p pp : Z) :
  int_param page_param 1 = Done p ->
  int_param per_page_param 20 = Done pp ->
  transactions payments bookings host_id = Done rows ->
  0 <= (p - 1) * pp <= max_int64 -> 1 <= pp <= max_int64 ->
  hitpay_transactions payments bookings host_id page_param per_page_param
  = Done (mkPage (firstn (Z.to_nat pp) (skipn (Z.to_nat ((p - 1) * pp)) rows))
            (Z.of_nat (length rows)) p pp
            (if 0 <? Z.of_nat (length rows) then (p - 1) * pp + 1 else 0)
            (Z.min ((p - 1) * pp + pp) (Z.of_nat (length rows)))).
Proof.
  intros Hp Hpp Ht H1 H2.
  rewrite (hitpay_transactions_slice _ _ _ _ _ rows p pp Hp Hpp Ht).
  unfold qs_slice.
  destruct (Z.ltb_spec ((p - 1) * pp) 0); [lia|].
  destruct (Z.ltb_spec ((p - 1) * pp + pp) 0); [lia|]. simpl.
  destruct (Z.leb_spec ((p - 1) * pp + pp) ((p - 1) * pp)); [lia|].
  destruct (Z.ltb_spec max_int64 ((p - 1) * pp + pp - (p - 1) * pp)); [lia|].
  destruct (Z.ltb_spec max_int64 ((p - 1) * pp)); [lia|]. simpl.
  now replace ((p - 1) * pp + pp - (p - 1) * pp) with pp by lia.
Qed.

Lemma int_param_str (z default : Z) : int_param (Some (Py.str z)) default = Done z.
Proof. unfold int_param. now rewrite int_str. Qed.

Lemma insert_by_desc_perm {A : Type} (key : A -> Z) (x : A) (l : list A) :
  Permutation (insert_by_desc key x l) (x :: l).
Proof.
  induction l as [|y r IH]; simpl; [reflexivity|].
  destruct (key y <=? key x); [reflexivity|].
  transitivity (y :: x :: r); [now constructor | apply perm_swap].
Qed.

Lemma order_by_desc_perm {A : Type} (key : A -> Z) (l : list A) :
  Permutation (order_by_desc key l) l.
Proof.
  induction l as [|x l IH]; simpl; [reflexivity|].
  transitivity (x :: order_by_desc key l);
    [apply insert_by_desc_perm | now constructor].
Qed.

Lemma insert_by_desc_sorted {A : Type} (key : A -> Z) (x : A) (l : list A) :
  StronglySorted (fun a b => key b <= key a) l ->
  StronglySorted (fun a b => key b <= key a) (insert_by_desc key x l).
Proof.
  induction l as [|y r IH]; intros Hs; simpl.
  - constructor; constructor.
  - apply StronglySorted_inv in Hs. destruct Hs as [Hr Hall].
    destruct (Z.leb_spec (key y) (key x)) as [Hle|Hlt].
    + constructor; [constructor; assumption|].
      constructor; [exact Hle|].
      apply Forall_forall. intros b Hb.
      pose proof (proj1 (Forall_forall _ _) Hall b Hb). simpl in *. lia.
    + constructor; [apply IH; exact Hr|].
      apply Forall_forall. intros b Hb.
      apply (Permutation_in _ (insert_by_desc_perm key x r)) in Hb.
      destruct Hb as [<-|Hb]; [lia|].
      exact (proj1 (Forall_forall _ _) Hall b Hb).
Qed.

Lemma order_by_desc_sorted {A : Type} (key : A -> Z) (l : list A) :
  StronglySorted (fun a b => key b <= key a) (order_by_desc key l).
Proof.
  induction l as [|x l IH]; simpl; [constructor|].
  now apply insert_by_desc_sorted.
Qed.

Lemma StronglySorted_map {A B : Type} (R : A -> A -> Prop) (R' : B -> B -> Prop)
    (f : A -> B) (l : list A) :
  (forall a b, R a b -> R' (f a) (f b)) ->
  StronglySorted R l -> StronglySorted R' (map f l).
Proof.
  intros Hf. induction 1 as [|a l Hs IH Hall]; simpl; constructor.
  - exact IH.
  - apply Forall_map. revert Hall. apply Forall_impl. intros b. apply Hf.
Qed.

Lemma StronglySorted_skipn {A : Type} (R : A -> A -> Prop) (n : nat) (l : list A) :
  StronglySorted R l -> StronglySorted R (skipn n l).
Proof.
  revert l. induction n as [|n IH]; intros l Hs; [exact Hs|].
  destruct l as [|a l]; [constructor|].
  apply StronglySorted_inv in Hs. simpl. apply IH, Hs.
Qed.

Lemma StronglySorted_firstn {A : Type} (R : A -> A -> Prop) (n : nat) (l : list A) :
  StronglySorted R l -> StronglySorted R (firstn n l).
Proof.
  revert l. induction n as [|n IH]; intros l Hs; [constructor|].
  destruct l as [|a l]; [constructor|].
  apply StronglySorted_inv in Hs. destruct Hs as [Hs Hall]. simpl.
  constructor; [apply IH, Hs|].
  apply Forall_forall. intros b Hb. apply In_firstn in Hb.
  exact (proj1 (Forall_forall _ _) Hall b Hb).
Qed.

Lemma In_skipn {A : Type} (n : nat) (l : list A) (x : A) :
  In x (skipn n l) -> In x l.
Proof.
  intros H. rewrite <- (firstn_skipn n l). apply in_or_app. now right.
Qed.

Lemma transactions_sorted (payments : list Payment) (bookings : list BookingRow)
    (host_id : option string) (rows : list Entry) :
  transactions payments bookings host_id = Done rows ->
  StronglySorted newest_first rows.
Proof.
  unfold transactions.
  destruct (filter_host_param payment_host_id host_id payments) as [ps|e];
    [|discriminate].
  destruct ps as [|p0 ps].
  - destruct (filter_host_param booking_host_id host_id bookings) as [bs|e];
      [|discriminate].
    intros [= <-].
    apply (StronglySorted_map (fun a b => booking_created_at b <= booking_created_at a));
      [auto | apply order_by_desc_sorted].
  - intros [= <-].
    apply (StronglySorted_map (fun a b => payment_created_at b <= payment_created_at a));
      [auto | exact (order_by_desc_sorted payment_created_at (p0 :: ps))].
Qed.

Lemma filter_true {A : Type} (l : list A) : filter (fun _ => true) l = l.
Proof. induction l as [|x l IH]; simpl; [reflexivity | now rewrite IH]. Qed.

(** The host filter, when it applies, keeps the rows of the host. *)
Lemma filter_host_param_Done {A : Type} (host_of : A -> option nat)
    (host_id : option string) (qs ps : list A) :
  filter_host_param host_of host_id qs = Done ps ->
  ps = filter (fun r => of_host host_id (host_of r)) qs.
Proof.
  unfold filter_host_param, of_host. destruct host_id as [s|].
  - destruct (String.eqb s "").
    + intros [= <-]. simpl. symmetry. apply filter_true.
    + destruct (Py.int s) as [z|]; [|discriminate]. intros [= <-]. simpl.
      apply filter_ext. intros r. destruct (host_of r); reflexivity.
  - intros [= <-]. symmetry. apply filter_true.
Qed.

Lemma filter_host_param_ok {A : Type} (host_of : A -> option nat)
    (host_id : option string) (qs : list A) :
  host_param_ok host_id ->
  filter_host_param host_of host_id qs
  = Done (filter (fun r => of_host host_id (host_of r)) qs).
Proof.
  intros Hok.
  destruct (filter_host_param host_of host_id qs) as [ps|e] eqn:E.
  - f_equal. now apply filter_host_param_Done.
  - exfalso. revert E. unfold filter_host_param. destruct host_id as [s|].
    + destruct (String.eqb_spec s "") as [|Hne]; [discriminate|].
      destruct Hok as [|(z & (_ & _ & Hint) & _)]; [contradiction|].
      rewrite Hint. discriminate.
    + discriminate.
Qed.

(** The entries are those of the chosen table: the payments of the host when
    there are some, the bookings of the host otherwise. *)
Lemma transactions_Done_inv (payments : list Payment) (bookings : list BookingRow)
    (host_id : option string) (rows : list Entry) :
  transactions payments bookings host_id = Done rows ->
  let ps := filter (fun x => of_host host_id (payment_host_id x)) payments in
  let bs := filter (fun x => of_host host_id (booking_host_id x)) bookings in
  (ps <> [] /\ rows = map FromPayment (order_by_desc payment_created_at ps)) \/
  (ps = [] /\ rows = map FromBooking (order_by_desc booking_created_at bs)).
Proof.
  intros Ht ps bs. unfold transactions in Ht.
  destruct (filter_host_param payment_host_id host_id payments) as [ps'|e] eqn:Ep;
    [|discriminate].
  apply filter_host_param_Done in Ep. fold ps in Ep. subst ps'.
  destruct ps as [|p0 ps0] eqn:E.
  - destruct (filter_host_param booking_host_id host_id bookings) as [bs'|e] eqn:Eb;
      [|discriminate].
    apply filter_host_param_Done in Eb. fold bs in Eb. subst bs'.
    right. split; [reflexivity | congruence].
  - left. split; [discriminate | congruence].
Qed.

Lemma transactions_ok (payments : list Payment) (bookings : list BookingRow)
    (host_id : option string) :
  host_param_ok host_id ->
  exists rows, transactions payments bookings host_id = Done rows.
Proof.
  intros Hok. unfold transactions.
  rewrite (filter_host_param_ok payment_host_id host_id payments Hok).
  destruct (filter _ payments); [|eauto].
  rewrite (filter_host_param_ok booking_host_id host_id bookings Hok). eauto.
Qed.

Lemma param_reads_int (value : option string) (default z : Z) :
  param_reads value default z -> int_param value default = Done z.
Proof.
  unfold param_reads, int_param. destruct value as [s|].
  - intros (_ & _ & ->). reflexivity.
  - now intros ->.
Qed.

Lemma order_by_desc_In {A : Type} (key : A -> Z) (l : list A) (x : A) :
  In x (order_by_desc key l) <-> In x l.
Proof.
  split; apply Permutation_in;
    [apply order_by_desc_perm | apply Permutation_sym, order_by_desc_perm].
Qed.

(** With a positive [per_page] within the integers of the database, the
    entry at position [i] of the ordered transactions is served at position
    [i mod per_page] of the page [i / per_page + 1]. *)
Lemma hitpay_page_of_row (payments : list Payment) (bookings : list BookingRow)
    (host_id : option string) (rows : list Entry) (pp : Z) (i : nat) (entry : Entry) :
  transactions payments bookings host_id = Done rows ->
  1 <= pp <= max_int64 ->
  Z.of_nat (length rows) <= max_int64 ->
  nth_error rows i = Some entry ->
  exists pg,
    hitpay_transactions payments bookings host_id
      (Some (Py.str (Z.of_nat i / pp + 1))) (Some (Py.str pp)) = Done pg /\
    nth_error (payment_requests pg) (Z.to_nat (Z.of_nat i mod pp)) = Some entry /\
    page pg = Z.of_nat i / pp + 1 /\ total pg = Z.of_nat (length rows).
Proof.
  intros Ht Hpp Hlen Hnth.
  set (q := Z.of_nat i / pp). set (r := Z.of_nat i mod pp).
  assert (Hq : 0 <= q) by (apply Z.div_pos; lia).
  assert (Hr : 0 <= r < pp) by (apply Z.mod_pos_bound; lia).
  assert (Hi : Z.of_nat i = pp * q + r) by (apply Z.div_mod; lia).
  assert (Hlt : (i < length rows)%nat) by (apply nth_error_Some; congruence).
  eexists. split.
  - apply (hitpay_transactions_Done _ _ _ _ _ rows (q + 1) pp);
      [apply int_param_str | apply int_param_str | exact Ht | nia | lia].
  - cbn [payment_requests page total]. split; [|split; reflexivity].
    rewrite nth_error_firstn.
    assert (Hb : (Z.to_nat r <? Z.to_nat pp)%nat = true) by (apply Nat.ltb_lt; lia).
    rewrite Hb, nth_error_skipn, <- Hnth. f_equal. nia.
Qed.

End Pages.

(** [X15] The window of a page.  When the view answers, the entries are at
    most [per_page]; on a page that starts inside the list (with a positive
    [per_page]) the range is sound: [from] is the position of the first
    entry, [from <= to], and the page holds exactly [to - from + 1] entries;
    on a page that starts beyond a non-empty list there is no entry and the
    range is reversed: [to < from]. *)
Theorem hitpay_page_window :
  forall (payments : list Payment) (bookings : list BookingRow)
         (host_id page_param per_page_param : option string) (pg : Page),
  hitpay_transactions payments bookings host_id page_param per_page_param = Done pg ->
  let start := (page pg - 1) * per_page pg in
  0 <= start /\
  Z.of_nat (length (payment_requests pg)) <= Z.max 0 (per_page pg) /\
  Z.of_nat (length (payment_requests pg)) <= total pg /\
  (1 <= per_page pg -> start < total pg ->
   from_ pg = start + 1 /\ from_ pg <= to_ pg /\
   Z.of_nat (length (payment_requests pg)) = to_ pg - from_ pg + 1) /\
  (0 < total pg -> total pg <= start ->
   payment_requests pg = [] /\ to_ pg < from_ pg).
Proof.
  intros payments bookings host_id page_param per_page_param pg H start.
  destruct (hitpay_transactions_window _ _ _ _ _ _ H)
    as (rows & _ & _ & _ & H1 & H2 & Hdata & Htot & Hfrom & Hto).
  fold start in H1, H2, Hdata, Hfrom, Hto.
  assert (Hlen : length (payment_requests pg)
                 = Nat.min (Z.to_nat (per_page pg)) (length rows - Z.to_nat start)).
  { now rewrite Hdata, length_firstn, length_skipn. }
  split; [exact H1|]. split; [lia|]. split; [lia|]. split.
  - intros Hpp Hin. rewrite Hfrom, Hto.
    destruct (Z.ltb_spec 0 (total pg)); [|lia]. lia.
  - intros Hpos Hout. split.
    + assert (Hz : length (payment_requests pg) = 0%nat) by lia.
      destruct (payment_requests pg); [reflexivity | discriminate Hz].
    + rewrite Hfrom, Hto. destruct (Z.ltb_spec 0 (total pg)); lia.
Qed.

Lemma hitpay_page_window_witness :
  exists pg,
    hitpay_transactions [] [mkBookingRow (new_booking 1) None 5;
                            mkBookingRow (new_booking 1) None 7;
                            mkBookingRow (new_booking 1) None 6]
      None (Some "2") (Some "2") = Done pg /\
    from_ pg = 3 /\ to_ pg = 3 /\ length (payment_requests pg) = 1%nat.
Proof.
  eexists. split; [reflexivity|].
  pose proof (hitpay_page_window []
                [mkBookingRow (new_booking 1) None 5;
                 mkBookingRow (new_booking 1) None 7;
                 mkBookingRow (new_booking 1) None 6]
                None (Some "2") (Some "2") _ eq_refl) as H.
  destruct H as (_ & _ & _ & Hin & _).
  destruct Hin as (Hfrom & _ & _);
    [vm_compute; discriminate | vm_compute; reflexivity |].
  split; [exact Hfrom | split; reflexivity].
Defined.

(** [X16] No transaction is lost between the pages.  For a parameter
    [host_id] that the lookup accepts, a positive [per_page] and tables
    within the integers of the database, whose instants are pairwise distinct
    (so that the order of the query is determined), every payment of the
    host is served on some page of the view, whose [total] is the number of
    the payments of that host; when the host has no payment the same holds
    of the bookings of the host. *)
Theorem hitpay_pages_cover :
  forall (payments : list Payment) (bookings : list BookingRow)
         (host_id : option string) (pp : Z),
  host_param_ok host_id ->
  1 <= pp <= max_int64 ->
  Z.of_nat (length payments) <= max_int64 ->
  Z.of_nat (length bookings) <= max_int64 ->
  NoDup (map payment_created_at payments) ->
  NoDup (map booking_created_at bookings) ->
  (forall p, In p payments -> of_host host_id (payment_host_id p) = true ->
     exists k pg,
       1 <= k /\
       hitpay_transactions payments bookings host_id
         (Some (Py.str k)) (Some (Py.str pp)) = Done pg /\
       In (FromPayment p) (payment_requests pg) /\
       total pg
       = qs_count (filter (fun x => of_host host_id (payment_host_id x)) payments)) /\
  ((forall p, In p payments -> of_host host_id (payment_host_id p) = false) ->
   forall b, In b bookings -> of_host host_id (booking_host_id b) = true ->
     exists k pg,
       1 <= k /\
       hitpay_transactions payments bookings host_id
         (Some (Py.str k)) (Some (Py.str pp)) = Done pg /\
       In (FromBooking b) (payment_requests pg) /\
       total pg
       = qs_count (filter (fun x => of_host host_id (booking_host_id x)) bookings)).
Proof.
  intros payments bookings host_id pp Hok Hpp Hlp Hlb _ _.
  destruct (transactions_ok payments bookings host_id Hok) as (rows & Ht).
  pose proof (transactions_Done_inv _ _ _ _ Ht) as Hinv. cbv zeta in Hinv.
  set (ps := filter (fun x => of_host host_id (payment_host_id x)) payments) in *.
  set (bs := filter (fun x => of_host host_id (booking_host_id x)) bookings) in *.
  assert (Hps : (length ps <= length payments)%nat) by apply filter_length_le.
  assert (Hbs : (length bs <= length bookings)%nat) by apply filter_length_le.
  assert (Hserve : forall e, In e rows ->
            exists k pg,
              1 <= k /\
              hitpay_transactions payments bookings host_id
                (Some (Py.str k)) (Some (Py.str pp)) = Done pg /\
              In e (payment_requests pg) /\ total pg = Z.of_nat (length rows)).
  { intros e He. apply In_nth_error in He. destruct He as [i Hi].
    destruct (hitpay_page_of_row _ _ _ _ pp i e Ht Hpp) as (pg & Hv & Hn & _ & Htot);
      [|exact Hi|].
    - destruct Hinv as [[_ ->]|[_ ->]];
        rewrite length_map, order_by_desc_length; lia.
    - exists (Z.of_nat i / pp + 1), pg.
      split; [assert (0 <= Z.of_nat i / pp) by (apply Z.div_pos; lia); lia|].
      split; [exact Hv|]. split; [|exact Htot].
      eapply nth_error_In. exact Hn. }
  split.
  - intros p Hp Hhost.
    assert (Hin : In p ps) by (apply filter_In; auto).
    destruct Hinv as [[_ Hrows]|[Hnil _]]; [|rewrite Hnil in Hin; destruct Hin].
    destruct (Hserve (FromPayment p)) as (k & pg & Hk & Hv & He & Htot).
    { rewrite Hrows. apply in_map. now apply order_by_desc_In. }
    exists k, pg. repeat (split; [assumption|]).
    rewrite Htot, Hrows, length_map, order_by_desc_length. reflexivity.
  - intros Hnone b Hb Hhost.
    assert (Hin : In b bs) by (apply filter_In; auto).
    destruct Hinv as [[Hne _]|[_ Hrows]].
    { exfalso. apply Hne. destruct ps as [|p0 ps0] eqn:E; [reflexivity|].
      assert (H0 : In p0 ps) by (rewrite E; now left).
      apply filter_In in H0. destruct H0 as [H0 H1].
      rewrite (Hnone p0 H0) in H1. discriminate. }
    destruct (Hserve (FromBooking b)) as (k & pg & Hk & Hv & He & Htot).
    { rewrite Hrows. apply in_map. now apply order_by_desc_In. }
    exists k, pg. repeat (split; [assumption|]).
    rewrite Htot, Hrows, length_map, order_by_desc_length. reflexivity.
Qed.

Lemma hitpay_pages_cover_witness :
  exists k pg,
    1 <= k /\
    hitpay_transactions
      [mkPayment 1 (Some 7%nat) 10; mkPayment 2 (Some 8%nat) 40;
       mkPayment 3 (Some 7%nat) 30; mkPayment 4 (Some 7%nat) 20] []
      (Some "7") (Some (Py.str k)) (Some "2") = Done pg /\
    In (FromPayment (mkPayment 1 (Some 7%nat) 10)) (payment_requests pg) /\
    total pg = 3.
Proof.
  refine (proj1 (hitpay_pages_cover
            [mkPayment 1 (Some 7%nat) 10; mkPayment 2 (Some 8%nat) 40;
             mkPayment 3 (Some 7%nat) 30; mkPayment 4 (Some 7%nat) 20] []
            (Some "7") 2 _ _ _ _ _ _) (mkPayment 1 (Some 7%nat) 10)
            (or_introl eq_refl) eq_refl).
  - right. exists 7. split.
    + split; [reflexivity|]. split; [simpl; lia | reflexivity].
    + unfold int64, max_int64. lia.
  - unfold max_int64. lia.
  - unfold max_int64. simpl. lia.
  - unfold max_int64. simpl. lia.
  - repeat constructor; simpl; intuition discriminate.
  - constructor.
Defined.

(** [X17] Which requests are answered.  With parameters [page] and
    [per_page] that read as numbers (or are absent: 1 and 20), the latter
    positive, and a parameter [host_id] that the lookup accepts, the view
    answers exactly when [page >= 1] and neither the offset
    [(page - 1) * per_page] nor [per_page] is beyond the integers of the
    database.  A page number of zero or below is a negative index on the
    query set, which raises; an offset or a limit beyond the integers of
    SQLite is refused by the database. *)
Theorem hitpay_transactions_answers :
  forall (payments : list Payment) (bookings : list BookingRow)
         (host_id page_param per_page_param : option string) (p pp : Z),
  host_param_ok host_id ->
  param_reads page_param 1 p ->
  param_reads per_page_param 20 pp ->
  1 <= pp ->
  ((exists pg,
      hitpay_transactions payments bookings host_id page_param per_page_param
      = Done pg)
   <-> 1 <= p /\ (p - 1) * pp <= max_int64 /\ pp <= max_int64) /\
  (p <= 0 ->
   hitpay_transactions payments bookings host_id page_param per_page_param
   = Failed NegativeIndex) /\
  (1 <= p -> max_int64 < (p - 1) * pp \/ max_int64 < pp ->
   hitpay_transactions payments bookings host_id page_param per_page_param
   = Failed DatatypeMismatch).
Proof.
  intros payments bookings host_id page_param per_page_param p pp
         Hok Hp Hpp Hpos.
  apply param_reads_int in Hp. apply param_reads_int in Hpp.
  destruct (transactions_ok payments bookings host_id Hok) as (rows & Ht).
  rewrite (hitpay_transactions_slice _ _ _ _ _ rows p pp Hp Hpp Ht).
  assert (Hneg : p <= 0 ->
            qs_slice rows ((p - 1) * pp) ((p - 1) * pp + pp) = Failed NegativeIndex).
  { intros Hle. unfold qs_slice.
    destruct (Z.ltb_spec ((p - 1) * pp) 0); [reflexivity | nia]. }
  assert (Hbig : 1 <= p -> max_int64 < (p - 1) * pp \/ max_int64 < pp ->
            qs_slice rows ((p - 1) * pp) ((p - 1) * pp + pp) = Failed DatatypeMismatch).
  { intros Hge Hb. unfold qs_slice.
    destruct (Z.ltb_spec ((p - 1) * pp) 0); [nia|].
    destruct (Z.ltb_spec ((p - 1) * pp + pp) 0); [lia|]. simpl.
    destruct (Z.leb_spec ((p - 1) * pp + pp) ((p - 1) * pp)); [lia|].
    destruct (Z.ltb_spec max_int64 ((p - 1) * pp + pp - (p - 1) * pp));
      [reflexivity|].
    destruct (Z.ltb_spec max_int64 ((p - 1) * pp)); [reflexivity | lia]. }
  split; [|split].
  - split.
    + intros [pg Hv].
      destruct (Z_le_gt_dec p 0) as [Hle|Hgt];
        [rewrite (Hneg Hle) in Hv; discriminate|].
      destruct (Z_le_gt_dec ((p - 1) * pp) max_int64) as [H1|H1];
        [|rewrite Hbig in Hv by lia; discriminate].
      destruct (Z_le_gt_dec pp max_int64) as [H2|H2];
        [|rewrite Hbig in Hv by lia; discriminate].
      lia.
    + intros (H1 & H2 & H3). eexists.
      rewrite <- (hitpay_transactions_slice _ _ _ _ _ rows p pp Hp Hpp Ht).
      apply (hitpay_transactions_Done _ _ _ _ _ rows p pp); try assumption; nia.
  - intros Hle. now rewrite Hneg.
  - intros Hge Hb. now rewrite Hbig.
Qed.

Lemma hitpay_transactions_answers_witness :
  hitpay_transactions [mkPayment 1 None 10] [] None (Some "0") None
  = Failed NegativeIndex /\
  hitpay_transactions [mkPayment 1 None 10] [] None
    (Some "99999999999999999999") None
  = Failed DatatypeMismatch.
Proof.
  split.
  - refine (proj1 (proj2 (hitpay_transactions_answers [mkPayment 1 None 10] [] None
                    (Some "0") None 0 20 I _ eq_refl _)) _); try lia.
    split; [reflexivity|]. split; [simpl; lia | reflexivity].
  - refine (proj2 (proj2 (hitpay_transactions_answers [mkPayment 1 None 10] [] None
                    (Some "99999999999999999999") None 99999999999999999999 20
                    I _ eq_refl _)) _ _); try lia.
    + split; [reflexivity|]. split; [simpl; lia | reflexivity].
    + left. unfold max_int64. lia.
Defined.

(** [X18] What a page holds.  For a parameter [host_id] that the lookup
    accepts, the entries of an answer are in the order of the query, the
    newest first.  Whenever the host has a payment they are payments of that
    host, [total] being the number of the payments of that host; only when
    the host has no payment are they bookings, then of that host, [total]
    being their number: the two tables are never mixed in an answer, and a
    row of another host is never served. *)
Theorem hitpay_page_ordered :
  forall (payments : list Payment) (bookings : list BookingRow)
         (host_id page_param per_page_param : option string) (pg : Page),
  host_param_ok host_id ->
  hitpay_transactions payments bookings host_id page_param per_page_param = Done pg ->
  StronglySorted newest_first (payment_requests pg) /\
  ((exists p, In p payments /\ of_host host_id (payment_host_id p) = true) ->
   total pg
   = qs_count (filter (fun x => of_host host_id (payment_host_id x)) payments) /\
   forall e, In e (payment_requests pg) ->
     exists p, e = FromPayment p /\ In p payments /\
               of_host host_id (payment_host_id p) = true) /\
  ((forall p, In p payments -> of_host host_id (payment_host_id p) = false) ->
   total pg
   = qs_count (filter (fun x => of_host host_id (booking_host_id x)) bookings) /\
   forall e, In e (payment_requests pg) ->
     exists b, e = FromBooking b /\ In b bookings /\
               of_host host_id (booking_host_id b) = true).
Proof.
  intros payments bookings host_id page_param per_page_param pg _ H.
  destruct (hitpay_transactions_window _ _ _ _ _ _ H)
    as (rows & Ht & _ & _ & _ & _ & Hdata & Htot & _).
  assert (Hsub : forall e, In e (payment_requests pg) -> In e rows).
  { intros e He. rewrite Hdata in He. now apply In_firstn, In_skipn in He. }
  pose proof (transactions_Done_inv _ _ _ _ Ht) as Hinv. cbv zeta in Hinv.
  set (ps := filter (fun x => of_host host_id (payment_host_id x)) payments) in *.
  set (bs := filter (fun x => of_host host_id (booking_host_id x)) bookings) in *.
  split; [|split].
  - rewrite Hdata. apply StronglySorted_firstn, StronglySorted_skipn.
    exact (transactions_sorted _ _ _ _ Ht).
  - intros (p0 & Hp0 & Hh0).
    assert (Hin0 : In p0 ps) by (apply filter_In; auto).
    destruct Hinv as [[_ Hrows]|[Hnil _]]; [|rewrite Hnil in Hin0; destruct Hin0].
    split.
    + rewrite Htot, Hrows, length_map, order_by_desc_length. reflexivity.
    + intros e He. apply Hsub in He. rewrite Hrows in He.
      apply in_map_iff in He. destruct He as (p & <- & Hp).
      apply order_by_desc_In, filter_In in Hp. exists p. tauto.
  - intros Hnone.
    destruct Hinv as [[Hne _]|[_ Hrows]].
    { exfalso. apply Hne. destruct ps as [|p0 ps0] eqn:E; [reflexivity|].
      assert (H0 : In p0 ps) by (rewrite E; now left).
      apply filter_In in H0. destruct H0 as [H0 H1].
      rewrite (Hnone p0 H0) in H1. discriminate. }
    split.
    + rewrite Htot, Hrows, length_map, order_by_desc_length. reflexivity.
    + intros e He. apply Hsub in He. rewrite Hrows in He.
      apply in_map_iff in He. destruct He as (b & <- & Hb).
      apply order_by_desc_In, filter_In in Hb. exists b. tauto.
Qed.

Lemma hitpay_page_ordered_witness :
  exists pg,
    hitpay_transactions
      [mkPayment 1 (Some 7%nat) 10; mkPayment 2 (Some 8%nat) 40;
       mkPayment 3 (Some 7%nat) 30]
      [mkBookingRow (new_booking 1) (Some 7%nat) 5] (Some "7") None (Some "2")
    = Done pg /\
    StronglySorted newest_first (payment_requests pg) /\ total pg = 2.
Proof.
  assert (Hok : host_param_ok (Some "7")).
  { right. exists 7. split.
    - split; [reflexivity|]. split; [simpl; lia | reflexivity].
    - unfold int64, max_int64. lia. }
  eexists. split; [reflexivity|].
  split; [|reflexivity].
  exact (proj1 (hitpay_page_ordered
                  [mkPayment 1 (Some 7%nat) 10; mkPayment 2 (Some 8%nat) 40;
                   mkPayment 3 (Some 7%nat) 30]
                  [mkBookingRow (new_booking 1) (Some 7%nat) 5]
                  (Some "7") None (Some "2") _ Hok eq_refl)).
Defined.
